(** * Inventory service: item and photo lifecycle

    A shallow embedding of the two variants of the inventory HTTP service:

    - [Volatile]   : the in-memory variant (array [devices], counter [Id]);
    - [Persistent] : the MySQL variant of [main.js] (table [items]).

    Both keep uploaded photos as files on the local disk.  The disk is a
    finite set of paths, the in-memory store a list of records, the SQL
    table a finite map from primary keys to rows.  Every handler is a
    function from the request and the current state to the response and the
    next state; the state carries a log of the storage effects in the order
    in which the handler performs them.

    What the model takes from the environment:

    - JavaScript numbers are the integers (ids are small counters, exact in
      double precision); [Number(x)] of a request parameter is an input;
    - strings are sequences of code units below 256; request fields are
      absent ([None]) or strings;
    - multer's clock and random number are inputs of an upload; a request
      has at most one file part, which multer accepts under the name photo
      only;
    - whether [req.body] is an object when the handler runs is an input of
      the request (it depends on the body parsers of the Express version);
      a request the body parsers themselves reject never reaches a route;
    - a query of the MySQL variant may reject: an oracle says which of the
      successive queries of a request do;
    - file system calls on files that exist do not fail;
    - requests are served one at a time. *)

From Stdlib Require Import Ascii String.
From stdpp Require Import base gmap sets list strings pretty sorting.

Set Warnings "-clear-no-such-hyp".
Open Scope Z_scope.

(** ** JavaScript values *)

(** The value of [Number(x)] for a request parameter [x]: not a number, an
    integer, or any other number (non integral or infinite), which is
    [===] to no id. *)
Inductive jsnum := NaN | Int (z : Z) | NonInt.

Global Instance jsnum_eq_dec : EqDecision jsnum.
Proof. solve_decision. Defined.

Definition isNaN (n : jsnum) : bool :=
  match n with NaN => true | _ => false end.

(** A number inside a template literal; the handlers only print ids of
    items they found, which are integers. *)
Definition number_to_string (n : jsnum) : string :=
  match n with Int z => pretty z | NaN => "NaN" | NonInt => "" end.

(** Truthiness of a string, and of a possibly absent or null string. *)
Definition truthy (s : string) : bool := negb (String.eqb s "").

Definition truthy_opt (o : option string) : bool :=
  match o with Some s => truthy s | None => false end.

(** [String.prototype.trim] on code units below 256: TAB, LF, VT, FF, CR,
    SPACE and NBSP are the white space and line terminators there. *)
Definition is_white_space (c : ascii) : bool :=
  let n := Z.of_nat (nat_of_ascii c) in
  (9 <=? n) && (n <=? 13) || (n =? 32) || (n =? 160).

Fixpoint trimStart (s : string) : string :=
  match s with
  | String c r => if is_white_space c then trimStart r else s
  | EmptyString => EmptyString
  end.

Definition trimEnd (s : string) : string :=
  String.rev (trimStart (String.rev s)).

Definition trim (s : string) : string := trimEnd (trimStart s).

Fixpoint all_white_space (s : string) : bool :=
  match s with
  | String c r => is_white_space c && all_white_space r
  | EmptyString => true
  end.

(** JSON documents written by [res.json]; an object keeps its fields in
    insertion order, and a field whose value is [undefined] is left out. *)
#[warnings="-register-all"]
Inductive json :=
  | JNull
  | JNum (n : Z)
  | JStr (s : string)
  | JObj (fields : list (string * json))
  | JArr (elements : list json).

Definition field (k : string) (j : json) : option json :=
  match j with
  | JObj fs => snd <$> List.find (fun kv => String.eqb (fst kv) k) fs
  | _ => None
  end.

Definition string_or_null (o : option string) : json :=
  match o with Some s => JStr s | None => JNull end.

(** ** Items *)

Record device := {
  id : Z;
  inventory_name : string;
  description : string;
  photo : option string
}.

(** [JSON.stringify] of a stored item. *)
Definition device_json (d : device) : list (string * json) :=
  [ ("id", JNum (id d));
    ("inventory_name", JStr (inventory_name d));
    ("description", JStr (description d));
    ("photo", string_or_null (photo d)) ].

(** The template literal [`/inventory/${id}/photo`]. *)
Definition photo_url_of (i : Z) : string :=
  "/inventory/" +:+ pretty i +:+ "/photo".

(** [d.photo ? `/inventory/${d.id}/photo` : null] *)
Definition photo_url (d : device) : json :=
  if truthy_opt (photo d) then JStr (photo_url_of (id d)) else JNull.

(** ** Uploads (multer disk storage) *)

(** The process environment read at start-up. *)
Class Env := { CACHE_PATH : option string }.

(** [process.env.CACHE_PATH || 'public/uploads'] *)
Definition cache `{Env} : string :=
  if truthy_opt CACHE_PATH then default "" CACHE_PATH else "public/uploads".

(** A file part of a multipart request, with the clock and the random
    number multer's [filename] callback reads: [now] is [Date.now()],
    [random] is [Math.round(Math.random() * 1E9)], [extname] is
    [path.extname(file.originalname)]. *)
Record upload := {
  fieldname : string;
  now : Z;
  random : Z;
  extname : string
}.

Definition uniqueSuffix (f : upload) : string :=
  pretty (now f) +:+ "-" +:+ pretty (random f).

Definition filename (f : upload) : string :=
  fieldname f +:+ "-" +:+ uniqueSuffix f +:+ extname f.

(** [req.file.path]: the destination directory joined with the file name. *)
Definition file_path `{Env} (f : upload) : string :=
  cache +:+ "/" +:+ filename f.

(** What multer can hand to the [filename] callback: the clock and the
    rounded random number are not negative, and [path.extname] returns
    nothing or a suffix that starts with a dot. *)
Definition extname_ok (e : string) : Prop :=
  e = "" \/ exists t, e = String "."%char t.

Definition well_formed_upload (f : upload) : Prop :=
  0 <= now f /\ 0 <= random f /\ extname_ok (extname f).

(** Decimal digits, and strings that do not go on with a digit. *)
Definition is_digit (c : ascii) : bool :=
  let n := Z.of_nat (nat_of_ascii c) in (48 <=? n) && (n <=? 57).

Fixpoint all_digits (s : string) : bool :=
  match s with
  | String c r => is_digit c && all_digits r
  | EmptyString => true
  end.

Definition no_digit_ahead (s : string) : Prop :=
  match s with
  | String c _ => is_digit c = false
  | EmptyString => True
  end.

(** ** Requests and responses *)

Inductive method := GET | HEAD | POST | PUT | DELETE | PATCH | OPTIONS.

Global Instance method_eq_dec : EqDecision method.
Proof. solve_decision. Defined.

(** The routes of the application; [Item n] and [ItemPhoto n] carry
    [Number(req.params.id)].  [Unrouted] is any other path that the static
    and documentation middlewares do not serve either. *)
Inductive route :=
  | Register
  | Inventory
  | Item (n : jsnum)
  | ItemPhoto (n : jsnum)
  | Search
  | Unrouted.

Global Instance route_eq_dec : EqDecision route.
Proof. solve_decision. Defined.

Record request := {
  req_method : method;
  req_route : route;
  body_inventory_name : option string;
  body_description : option string;
  body_id : jsnum;            (* Number(req.body.id) *)
  req_file : option upload;   (* the file part of the request, if any *)
  body_defined : bool         (* req.body is an object *)
}.

(** The methods the interface table of the specification lists for a
    route, and the value of the [Allow] header the route's catch-all
    handler sets. *)
Definition supported (rt : route) : list method :=
  match rt with
  | Register => [POST]
  | Inventory => [GET]
  | Item _ => [GET; PUT; DELETE]
  | ItemPhoto _ => [GET; PUT]
  | Search => [POST]
  | Unrouted => []
  end.

Definition allow (rt : route) : string :=
  match rt with
  | Register => "POST"
  | Inventory => "GET"
  | Item _ => "GET, PUT, DELETE"
  | ItemPhoto _ => "GET, PUT"
  | Search => "POST"
  | Unrouted => ""
  end.

Inductive body :=
  | Text (s : string)
  | Json (j : json)
  | Undefined                 (* res.json(undefined) *)
  | SendFile (p : string)
  | ErrorPage                 (* the page of Express's error handler *)
  | NoBody.

Record response := {
  status : Z;
  headers : list (string * string);
  payload : body
}.

Definition dq : string := String (ascii_of_nat 34) EmptyString.

Definition end_ (code : Z) (msg : string) : response :=
  {| status := code; headers := []; payload := Text msg |}.

Definition json_ (code : Z) (j : json) : response :=
  {| status := code; headers := []; payload := Json j |}.

(** [res.setHeader('Allow', allow); res.status(405).end('Method Not Allowed')] *)
Definition method_not_allowed (allow : string) : response :=
  {| status := 405; headers := [("Allow", allow)];
     payload := Text "Method Not Allowed" |}.

(** What Express answers when no route handles the request. *)
Definition express_not_found : response :=
  {| status := 404; headers := []; payload := NoBody |}.

(** What the router answers to an OPTIONS request that no handler of the
    path takes: the methods the path has handlers for, in [Allow] and in
    the body. *)
Definition options_response (allow : string) : response :=
  {| status := 200; headers := [("Allow", allow)]; payload := Text allow |}.

(** What Express's error handler answers when a middleware passes an error
    on or a handler throws. *)
Definition express_error : response :=
  {| status := 500; headers := []; payload := ErrorPage |}.

(** [upload.single('photo')] accepts a file part named photo only; for a
    file part under another name it passes a MulterError on, before the
    file is written and before the handler runs. *)
Definition unexpected_file (r : request) : bool :=
  match req_route r, req_method r with
  | Register, POST | ItemPhoto _, PUT =>
      match req_file r with
      | Some f => negb (String.eqb (fieldname f) "photo")
      | None => false
      end
  | _, _ => false
  end.

(** [const { ... } = req.body] throws a TypeError when [req.body] is
    undefined (Express 5 leaves it so when no body parser read the
    request; Express 4 defaults it to an object).  The handlers of POST
    /register, PUT /inventory/:id and POST /search start with it; multer
    sets [req.body] for a request it reads. *)
Definition body_missing (r : request) : bool :=
  match req_route r, req_method r with
  | Register, POST =>
      match req_file r with Some _ => false | None => negb (body_defined r) end
  | Item _, PUT | Search, POST => negb (body_defined r)
  | _, _ => false
  end.

Definition header (k : string) (r : response) : option string :=
  snd <$> List.find (fun kv => String.eqb (fst kv) k) (headers r).

(** [res.status(500).json({ error: msg })] *)
Definition server_error (msg : string) : response :=
  json_ 500 (JObj [("error", JStr msg)]).

(** [{ id, inventory_name, description, photo_url }]: an item without its
    storage path, as the MySQL server lists it. *)
Definition summary (d : device) : json :=
  JObj [ ("id", JNum (id d));
         ("inventory_name", JStr (inventory_name d));
         ("description", JStr (description d));
         ("photo_url", photo_url d) ].

(** The requests that reach a handler that writes: Register, UpdateFields,
    Delete and ReplacePhoto.  Every other request is a read or is not
    served. *)
Definition mutating (r : request) : bool :=
  match req_route r, req_method r with
  | Register, POST | Item _, PUT | Item _, DELETE | ItemPhoto _, PUT => true
  | _, _ => false
  end.

(** The id in the path of the request, if its route has one. *)
Definition addressed (r : request) : option jsnum :=
  match req_route r with
  | Item n | ItemPhoto n => Some n
  | _ => None
  end.

(** The JSON object of a response, if it carries one. *)
Definition json_of (r : response) : option json :=
  match payload r with Json j => Some j | _ => None end.

(** The value of field [k] in the JSON object of a response. *)
Definition response_field (k : string) (r : response) : option json :=
  json_of r ≫= field k.

(** The partial update of one field: a truthy value replaces the stored
    one, an absent or empty value keeps it. *)
Definition partial_update (provided : option string) (stored : string) : string :=
  if truthy_opt provided then default "" provided else stored.

(** The item [d] after UpdateFields with the body of [r], as the
    specification words it: name and description partially updated, id and
    photo reference kept. *)
Definition update_device (r : request) (d : device) : device :=
  {| id := id d;
     inventory_name := partial_update (body_inventory_name r) (inventory_name d);
     description := partial_update (body_description r) (description d);
     photo := photo d |}.

(** ** Storage effects, in the order a handler performs them *)

Inductive event :=
  | BlobStored (p : string)                  (* multer wrote the upload *)
  | BlobDeleted (p : string)                 (* fs.unlinkSync *)
  | RecordCreated (i : Z) (ref : option string)
  | PhotoRecorded (i : Z) (p : string)       (* the item's photo := p *)
  | RecordDeleted (i : Z).

Global Instance event_eq_dec : EqDecision event.
Proof. solve_decision. Defined.

(** [e1] occurs in [l], and [e2] occurs later. *)
Fixpoint precedes (e1 e2 : event) (l : list event) : bool :=
  match l with
  | [] => false
  | e :: l' =>
      bool_decide (e = e1) && bool_decide (e2 ∈ l') || precedes e1 e2 l'
  end.

(** What [if (ref && fs.existsSync(ref)) fs.unlinkSync(ref)] logs on a
    disk holding [files]. *)
Definition unlink_events (ref : option string) (files : gset string) : list event :=
  match ref with
  | Some p => if truthy p && bool_decide (p ∈ files) then [BlobDeleted p] else []
  | None => []
  end.

(** The field is absent, empty, or white space only. *)
Definition blank (o : option string) : Prop :=
  forall s, o = Some s -> all_white_space s = true.

(** A 2xx status. *)
Definition success (r : response) : Prop := 200 <= status r < 300.

(** * The in-memory variant *)

Module Volatile.

(** [let devices = []; let Id = 1;] and the upload directory. *)
Record state := {
  devices : list device;
  Id : Z;
  disk : gset string;
  log : list event
}.

Definition init (files : gset string) : state :=
  {| devices := []; Id := 1; disk := files; log := [] |}.

Definition emit (e : event) (s : state) : state :=
  {| devices := devices s; Id := Id s; disk := disk s; log := log s ++ [e] |}.

Definition set_disk (fs : gset string) (s : state) : state :=
  {| devices := devices s; Id := Id s; disk := fs; log := log s |}.

Definition set_devices (l : list device) (s : state) : state :=
  {| devices := l; Id := Id s; disk := disk s; log := log s |}.

(** The file system calls. *)
Definition store_blob (p : string) (s : state) : state :=
  emit (BlobStored p) (set_disk ({[p]} ∪ disk s) s).

Definition existsSync (p : string) (s : state) : bool :=
  bool_decide (p ∈ disk s).

Definition unlinkSync (p : string) (s : state) : state :=
  emit (BlobDeleted p) (set_disk (disk s ∖ {[p]}) s).

(** [if (ref && fs.existsSync(ref)) fs.unlinkSync(ref);] *)
Definition unlink_if_exists (ref : option string) (s : state) : state :=
  match ref with
  | Some p => if truthy p && existsSync p s then unlinkSync p s else s
  | None => s
  end.

(** [devices.find(d => d.id === n)], with the index [findIndex] gives. *)
Definition find (n : jsnum) (s : state) : option (nat * device) :=
  list_find (fun d => Int (id d) = n) (devices s).

Section Handlers.
Context `{Env}.

(** The middleware [upload.single('photo')]: the file part, if there is
    one, is on disk before the handler runs. *)
Definition upload_single (file : option upload) (s : state) : state :=
  match file with
  | Some f => store_blob (file_path f) s
  | None => s
  end.

Definition with_photo_url (d : device) : json :=
  JObj (device_json d ++ [("photo_url", photo_url d)]).

(** POST /register *)
Definition post_register (r : request) (s0 : state) : response * state :=
  let s := upload_single (req_file r) s0 in
  let name := body_inventory_name r in
  let desc := body_description r in
  let file := req_file r in
  if negb (truthy_opt name) || String.eqb (trim (default "" name)) "" then
    (end_ 400 ("The " +:+ dq +:+ "inventory_name" +:+ dq +:+ " field is required"), s)
  else
    let device :=
      {| id := Id s;
         inventory_name := default "" name;
         description := if truthy_opt desc then default "" desc else "";
         photo := file_path <$> file |} in
    (json_ 201 (JObj (device_json device)),
     emit (RecordCreated (id device) (photo device))
       {| devices := devices s ++ [device]; Id := Id s + 1;
          disk := disk s; log := log s |}).

(** GET /inventory *)
Definition get_inventory (s : state) : response * state :=
  (json_ 200 (JArr (with_photo_url <$> devices s)), s).

(** GET /inventory/:id *)
Definition get_item (n : jsnum) (s : state) : response * state :=
  match find n s with
  | None => (end_ 404 "No item with such ID", s)
  | Some (_, device) => (json_ 200 (with_photo_url device), s)
  end.

(** PUT /inventory/:id *)
Definition put_item (n : jsnum) (r : request) (s : state) : response * state :=
  let name := body_inventory_name r in
  let desc := body_description r in
  match find n s with
  | None => (end_ 404 "No item with such ID", s)
  | Some (index, device) =>
      let device1 :=
        if truthy_opt name then
          {| id := id device; inventory_name := default "" name;
             description := description device; photo := photo device |}
        else device in
      let device2 :=
        if truthy_opt desc then
          {| id := id device1; inventory_name := inventory_name device1;
             description := default "" desc; photo := photo device1 |}
        else device1 in
      (json_ 200 (JObj (device_json device2)),
       set_devices (<[index := device2]> (devices s)) s)
  end.

(** DELETE /inventory/:id *)
Definition delete_item (n : jsnum) (s : state) : response * state :=
  match find n s with
  | None => (end_ 404 "Item not found", s)
  | Some (index, device) =>
      let s1 := unlink_if_exists (photo device) s in
      (json_ 200 (JObj [("deleted", JObj (device_json device))]),
       emit (RecordDeleted (id device))
         (set_devices (delete index (devices s1)) s1))
  end.

(** GET /inventory/:id/photo *)
Definition get_photo (n : jsnum) (s : state) : response * state :=
  match find n s with
  | None => (end_ 404 "Item not found", s)
  | Some (_, device) =>
      if negb (truthy_opt (photo device))
         || negb (existsSync (default "" (photo device)) s)
      then (end_ 404 "Photo not found", s)
      else ({| status := 200; headers := [("Content-Type", "image/jpeg")];
               payload := SendFile (default "" (photo device)) |}, s)
  end.

(** PUT /inventory/:id/photo *)
Definition put_photo (n : jsnum) (r : request) (s0 : state) : response * state :=
  let s := upload_single (req_file r) s0 in
  match find n s with
  | None => (end_ 404 "Item not found", s)
  | Some (index, device) =>
      match req_file r with
      | None => (end_ 400 "Photo file not sent", s)
      | Some file =>
          let s1 := unlink_if_exists (photo device) s in
          let device' :=
            {| id := id device; inventory_name := inventory_name device;
               description := description device;
               photo := Some (file_path file) |} in
          (json_ 200 (JObj (device_json device')),
           emit (PhotoRecorded (id device) (file_path file))
             (set_devices (<[index := device']> (devices s1)) s1))
      end
  end.

(** POST /search *)
Definition post_search (r : request) (s : state) : response * state :=
  let numericId := body_id r in
  if isNaN numericId then (end_ 400 "Invalid ID", s)
  else
    match find numericId s with
    | None => (end_ 404 "Item not found", s)
    | Some (_, device) =>
        let result :=
          [ ("id", JNum (id device));
            ("inventory_name", JStr (inventory_name device));
            ("description", JStr (description device)) ] in
        let result :=
          if truthy_opt (photo device)
          then result ++ [("photo_url", JStr (photo_url_of (id device)))]
          else result in
        (json_ 201 (JObj result), s)
    end.

(** The routing table, in registration order.  Express serves HEAD through
    a GET handler, and answers OPTIONS itself on a path whose handlers do
    not take it; a request no route handles gets the default 404. *)
Definition routes (r : request) (s : state) : response * state :=
  match req_route r, req_method r with
  | Register, POST => post_register r s
  | Register, _ => (method_not_allowed "POST", s)
  | Inventory, (GET | HEAD) => get_inventory s
  | Inventory, _ => (method_not_allowed "GET", s)
  | Item n, (GET | HEAD) => get_item n s
  | Item n, PUT => put_item n r s
  | Item n, DELETE => delete_item n s
  | Item _, _ => (method_not_allowed "GET, PUT, DELETE", s)
  | ItemPhoto n, (GET | HEAD) => get_photo n s
  | ItemPhoto n, PUT => put_photo n r s
  | ItemPhoto _, _ => (method_not_allowed "GET, PUT", s)
  | Search, POST => post_search r s
  | Search, OPTIONS => (options_response "POST", s)
  | Search, _ => (express_not_found, s)
  | Unrouted, _ => (express_not_found, s)
  end.

(** The application: a request that multer refuses, or whose handler
    throws on an undefined body, gets Express's 500 and nothing is done. *)
Definition app (r : request) (s : state) : response * state :=
  if unexpected_file r || body_missing r then (express_error, s)
  else routes r s.

(** multer names every upload afresh: the path is not on disk yet. *)
Definition fresh_upload (r : request) (s : state) : Prop :=
  forall f, req_file r = Some f -> file_path f ∉ disk s.

(** The states the server goes through, from an empty list of items. *)
Inductive reachable : state -> Prop :=
  | reachable_init files : reachable (init files)
  | reachable_step r s :
      reachable s -> fresh_upload r s -> reachable (snd (app r s)).

(** [steps s s']: the server gets from [s] to [s'] by serving requests. *)
Inductive steps : state -> state -> Prop :=
  | steps_refl s : steps s s
  | steps_step r s s' : steps s s' -> steps s (snd (app r s')).

End Handlers.

(** The id [i] was handed out and no item carries it any more. *)
Definition retired (i : Z) (s : state) : Prop :=
  i < Id s /\ forall k d, devices s !! k = Some d -> id d <> i.

(** No item refers to [p]. *)
Definition unreferenced (p : string) (s : state) : Prop :=
  forall i d, devices s !! i = Some d -> photo d <> Some p.

(** Every non-null photo reference names a file on disk, is a non-empty
    path, and belongs to one item only. *)
Definition no_dangling (s : state) : Prop :=
  forall i d p, devices s !! i = Some d -> photo d = Some p -> p ∈ disk s.

Definition exclusive (s : state) : Prop :=
  forall i j d d' p,
    devices s !! i = Some d -> devices s !! j = Some d' ->
    photo d = Some p -> photo d' = Some p -> i = j.

Definition refs_truthy (s : state) : Prop :=
  forall i d p, devices s !! i = Some d -> photo d = Some p -> truthy p = true.

Definition consistent (s : state) : Prop :=
  no_dangling s /\ exclusive s /\ refs_truthy s.

(** Every file on disk is the photo of some item. *)
Definition no_orphan (s : state) : Prop :=
  forall p, p ∈ disk s ->
    exists i d, devices s !! i = Some d /\ photo d = Some p.

(** Ids are below the counter, and no two items share one. *)
Definition ids_fresh (s : state) : Prop :=
  (forall i d, devices s !! i = Some d -> id d < Id s)
  /\ (forall i j d d',
        devices s !! i = Some d -> devices s !! j = Some d' ->
        id d = id d' -> i = j).

End Volatile.

(** * The MySQL variant *)

Module Persistent.

(** A row of [items], without its primary key: [inventory_name VARCHAR],
    [description TEXT], [photo VARCHAR] (nullable). *)
Record row := {
  col_inventory_name : string;
  col_description : string;
  col_photo : option string
}.

(** The object mysql2 builds for the row stored under key [i]. *)
Definition as_device (i : Z) (r : row) : device :=
  {| id := i; inventory_name := col_inventory_name r;
     description := col_description r; photo := col_photo r |}.

(** The table (primary key to row), its AUTO_INCREMENT counter, and the
    upload directory. *)
Record state := {
  items : gmap Z row;
  auto_increment : Z;
  disk : gset string;
  log : list event
}.

(** The table as the initialisation script leaves it. *)
Definition init (files : gset string) : state :=
  {| items :=
       {[ 1 := {| col_inventory_name := "Docker Laptop";
                  col_description := "Item initialized from MySQL script";
                  col_photo := None |} ]};
     auto_increment := 2; disk := files; log := [] |}.

Definition emit (e : event) (s : state) : state :=
  {| items := items s; auto_increment := auto_increment s;
     disk := disk s; log := log s ++ [e] |}.

Definition set_disk (fs : gset string) (s : state) : state :=
  {| items := items s; auto_increment := auto_increment s;
     disk := fs; log := log s |}.

Definition set_items (m : gmap Z row) (s : state) : state :=
  {| items := m; auto_increment := auto_increment s;
     disk := disk s; log := log s |}.

(** The file system calls. *)
Definition store_blob (p : string) (s : state) : state :=
  emit (BlobStored p) (set_disk ({[p]} ∪ disk s) s).

Definition remove_blob (p : string) (s : state) : state :=
  emit (BlobDeleted p) (set_disk (disk s ∖ {[p]}) s).

Definition remove_if_exists (ref : option string) (s : state) : state :=
  match ref with
  | Some p => if truthy p && bool_decide (p ∈ disk s) then remove_blob p s else s
  | None => s
  end.

(** ** Promises over the state

    Each [pool.query] may reject: the oracle lists, for the successive
    queries of a request, [None] when the query runs and [Some msg] when it
    rejects with [err.message = msg]; past its end every query runs. *)
Definition oracle := list (option string).

Inductive outcome (A : Type) :=
  | Resolved (a : A)
  | Rejected (msg : string).
Arguments Resolved {A} a.
Arguments Rejected {A} msg.

Definition M (A : Type) : Type := oracle -> state -> outcome A * oracle * state.

Global Instance M_ret : MRet M := fun A a o s => (Resolved a, o, s).

Global Instance M_bind : MBind M := fun A B k m o s =>
  match m o s with
  | (Resolved a, o', s') => k a o' s'
  | (Rejected e, o', s') => (Rejected e, o', s')
  end.

(** [try { m } catch (err) { h err }] *)
Definition try_catch {A} (m : M A) (h : string -> M A) : M A := fun o s =>
  match m o s with
  | (Rejected e, o', s') => h e o' s'
  | r => r
  end.

Definition modify (f : state -> state) : M unit := fun o s =>
  (Resolved tt, o, f s).

Definition gets {A} (f : state -> A) : M A := fun o s => (Resolved (f s), o, s).

(** [await pool.query(q)] *)
Definition pool_query {A} (q : state -> outcome A * state) : M A := fun o s =>
  match o with
  | Some msg :: o' => (Rejected msg, o', s)
  | None :: o' => let '(a, s') := q s in (a, o', s')
  | [] => let '(a, s') := q s in (a, [], s')
  end.

(** A handler that lets a rejection escape gets Express's own 500. *)
Definition run (m : M response) (o : oracle) (s : state) : response * state :=
  match m o s with
  | (Resolved r, _, s') => (r, s')
  | (Rejected _, _, s') =>
      ({| status := 500; headers := []; payload := NoBody |}, s')
  end.

(** ** The queries *)

(** [INSERT INTO items (inventory_name, description, photo) VALUES (?, ?, ?)],
    resolving to [insertId]. *)
Definition INSERT (name desc : string) (ref : option string) (s : state)
  : outcome Z * state :=
  let i := auto_increment s in
  match items s !! i with
  | Some _ => (Rejected "Duplicate entry", s)
  | None =>
      (Resolved i,
       emit (RecordCreated i ref)
         {| items := <[i := {| col_inventory_name := name;
                               col_description := desc;
                               col_photo := ref |}]> (items s);
            auto_increment := i + 1; disk := disk s; log := log s |})
  end.

(** The row whose primary key is [n], if any. *)
Definition find (n : jsnum) (s : state) : option device :=
  match n with
  | Int i => as_device i <$> items s !! i
  | _ => None
  end.

(** [SELECT ... FROM items WHERE id = ?]: no row, or one. *)
Definition SELECT (n : jsnum) (s : state) : outcome (list device) * state :=
  (Resolved (option_list (find n s)), s).

(** [SELECT * FROM items], in primary key order. *)
Definition key_le (a b : Z * row) : Prop := fst a <= fst b.

Global Instance key_le_dec a b : Decision (key_le a b).
Proof. unfold key_le. apply _. Defined.

Definition SELECT_all (s : state) : outcome (list device) * state :=
  (Resolved
     ((fun kv => as_device (fst kv) (snd kv)) <$>
        merge_sort key_le (map_to_list (items s))), s).

Inductive column := c_inventory_name | c_description.

Definition assign (r : row) (a : column * string) : row :=
  match fst a with
  | c_inventory_name =>
      {| col_inventory_name := snd a; col_description := col_description r;
         col_photo := col_photo r |}
  | c_description =>
      {| col_inventory_name := col_inventory_name r; col_description := snd a;
         col_photo := col_photo r |}
  end.

(** [UPDATE items SET c1 = ?, ... WHERE id = ?] *)
Definition UPDATE (fields : list (column * string)) (n : jsnum) (s : state)
  : outcome unit * state :=
  (Resolved tt,
   match n with
   | Int i => set_items (alter (fun r => foldl assign r fields) i (items s)) s
   | _ => s
   end).

(** [UPDATE items SET photo = ? WHERE id = ?] *)
Definition UPDATE_photo (p : string) (n : jsnum) (s : state)
  : outcome unit * state :=
  (Resolved tt,
   match n with
   | Int i =>
       match items s !! i with
       | Some r =>
           emit (PhotoRecorded i p)
             (set_items
                (<[i := {| col_inventory_name := col_inventory_name r;
                           col_description := col_description r;
                           col_photo := Some p |}]> (items s)) s)
       | None => s
       end
   | _ => s
   end).

(** [DELETE FROM items WHERE id = ?] *)
Definition DELETE_FROM (n : jsnum) (s : state) : outcome unit * state :=
  (Resolved tt,
   match n with
   | Int i =>
       match items s !! i with
       | Some _ => emit (RecordDeleted i) (set_items (delete i (items s)) s)
       | None => s
       end
   | _ => s
   end).

Section Handlers.
Context `{Env}.

Definition upload_single (file : option upload) : M unit :=
  match file with
  | Some f => modify (store_blob (file_path f))
  | None => mret tt
  end.

Definition existsSync (p : string) : M bool :=
  gets (fun s => bool_decide (p ∈ disk s)).

Definition unlinkSync (p : string) : M unit := modify (remove_blob p).

(** [if (ref && fs.existsSync(ref)) fs.unlinkSync(ref);] *)
Definition unlink_if_exists (ref : option string) : M unit :=
  modify (remove_if_exists ref).

Definition error_message (msg : string) : M response :=
  mret (json_ 500 (JObj [("error", JStr msg)])).

(** POST /register *)
Definition post_register (r : request) : M response :=
  _ ← upload_single (req_file r);
  let name := body_inventory_name r in
  let desc := body_description r in
  let ref := file_path <$> req_file r in
  if negb (truthy_opt name) || String.eqb (trim (default "" name)) "" then
    mret (end_ 400 ("The " +:+ dq +:+ "inventory_name" +:+ dq +:+ " field is required"))
  else
    try_catch
      (insertId ← pool_query
         (INSERT (default "" name)
                 (if truthy_opt desc then default "" desc else "") ref);
       let newItem :=
         [ ("id", JNum insertId); ("inventory_name", JStr (default "" name)) ]
         ++ match desc with Some d => [("description", JStr d)] | None => [] end
         ++ [ ("photo_url",
               if truthy_opt ref then JStr (photo_url_of insertId) else JNull) ] in
       mret (json_ 201 (JObj newItem)))
      (fun _ => mret (json_ 500 (JObj [("error", JStr "Database error")]))).

(** GET /inventory *)
Definition get_inventory : M response :=
  try_catch
    (rows ← pool_query SELECT_all;
     let result :=
       (fun d => JObj [ ("id", JNum (id d));
                        ("inventory_name", JStr (inventory_name d));
                        ("description", JStr (description d));
                        ("photo_url", photo_url d) ]) <$> rows in
     mret (json_ 200 (JArr result)))
    (fun _ => mret (json_ 500 (JObj [("error", JStr "Database error")]))).

(** GET /inventory/:id *)
Definition get_item (n : jsnum) : M response :=
  try_catch
    (rows ← pool_query (SELECT n);
     match rows with
     | [] => mret (end_ 404 "No item with such ID")
     | device :: _ =>
         mret (json_ 200 (JObj (device_json device ++ [("photo_url", photo_url device)])))
     end)
    error_message.

(** PUT /inventory/:id *)
Definition put_item (n : jsnum) (r : request) : M response :=
  let name := body_inventory_name r in
  let desc := body_description r in
  try_catch
    (check ← pool_query (SELECT n);
     match check with
     | [] => mret (end_ 404 "No item with such ID")
     | _ :: _ =>
         let fields :=
           (if truthy_opt name then [(c_inventory_name, default "" name)] else [])
           ++ (if truthy_opt desc then [(c_description, default "" desc)] else []) in
         _ ← (if Nat.ltb 0 (length fields)
              then pool_query (UPDATE fields n) else mret tt);
         updated ← pool_query (SELECT n);
         mret match updated with
              | d :: _ => json_ 200 (JObj (device_json d))
              | [] => {| status := 200; headers := []; payload := Undefined |}
              end
     end)
    error_message.

(** DELETE /inventory/:id *)
Definition delete_item (n : jsnum) : M response :=
  try_catch
    (rows ← pool_query (SELECT n);
     match rows with
     | [] => mret (end_ 404 "Item not found")
     | device :: _ =>
         _ ← pool_query (DELETE_FROM n);
         _ ← unlink_if_exists (photo device);
         mret (json_ 200
                 (JObj [("message", JStr ("Item " +:+ number_to_string n +:+ " deleted"))]))
     end)
    error_message.

(** GET /inventory/:id/photo *)
Definition get_photo (n : jsnum) : M response :=
  try_catch
    (rows ← pool_query (SELECT n);
     match rows with
     | [] => mret (end_ 404 "Item not found")
     | device :: _ =>
         e ← existsSync (default "" (photo device));
         if negb (truthy_opt (photo device)) || negb e
         then mret (end_ 404 "Photo not found")
         else mret {| status := 200; headers := [("Content-Type", "image/jpeg")];
                      payload := SendFile (default "" (photo device)) |}
     end)
    (fun _ => mret {| status := 500; headers := []; payload := NoBody |}).

(** PUT /inventory/:id/photo *)
Definition put_photo (n : jsnum) (r : request) : M response :=
  _ ← upload_single (req_file r);
  match req_file r with
  | None => mret (end_ 400 "Photo file not sent")
  | Some file =>
      try_catch
        (rows ← pool_query (SELECT n);
         match rows with
         | [] =>
             _ ← unlinkSync (file_path file);
             mret (end_ 404 "Item not found")
         | device :: _ =>
             let oldPhoto := photo device in
             _ ← pool_query (UPDATE_photo (file_path file) n);
             _ ← unlink_if_exists oldPhoto;
             updated ← pool_query (SELECT n);
             mret match updated with
                  | d :: _ => json_ 200 (JObj (device_json d))
                  | [] => {| status := 200; headers := []; payload := Undefined |}
                  end
         end)
        error_message
  end.

(** POST /search *)
Definition post_search (r : request) : M response :=
  let numericId := body_id r in
  if isNaN numericId then mret (end_ 400 "Invalid ID")
  else
    try_catch
      (rows ← pool_query (SELECT numericId);
       match rows with
       | [] => mret (end_ 404 "Item not found")
       | device :: _ =>
           let result :=
             [ ("id", JNum (id device));
               ("inventory_name", JStr (inventory_name device));
               ("description", JStr (description device));
               ("photo_url", photo_url device) ] in
           mret (json_ 201 (JObj result))
       end)
      error_message.

(** The routing table, in registration order.  Express serves HEAD through
    a GET handler, and answers OPTIONS itself on a path whose handlers do
    not take it; a request no route handles gets the default 404. *)
Definition routes (r : request) (o : oracle) (s : state) : response * state :=
  match req_route r, req_method r with
  | Register, POST => run (post_register r) o s
  | Register, _ => (method_not_allowed "POST", s)
  | Inventory, (GET | HEAD) => run get_inventory o s
  | Inventory, _ => (method_not_allowed "GET", s)
  | Item n, (GET | HEAD) => run (get_item n) o s
  | Item n, PUT => run (put_item n r) o s
  | Item n, DELETE => run (delete_item n) o s
  | Item _, _ => (method_not_allowed "GET, PUT, DELETE", s)
  | ItemPhoto n, (GET | HEAD) => run (get_photo n) o s
  | ItemPhoto n, PUT => run (put_photo n r) o s
  | ItemPhoto _, _ => (method_not_allowed "GET, PUT", s)
  | Search, POST => run (post_search r) o s
  | Search, OPTIONS => (options_response "POST", s)
  | Search, _ => (express_not_found, s)
  | Unrouted, _ => (express_not_found, s)
  end.

(** The application: a request that multer refuses, or whose handler
    throws on an undefined body, gets Express's 500 and nothing is done,
    no query included. *)
Definition app (r : request) (o : oracle) (s : state) : response * state :=
  if unexpected_file r || body_missing r then (express_error, s)
  else routes r o s.

(** multer names every upload afresh: the path is not on disk yet. *)
Definition fresh_upload (r : request) (s : state) : Prop :=
  forall f, req_file r = Some f -> file_path f ∉ disk s.

(** The states the server goes through, from the initialised table. *)
Inductive reachable : state -> Prop :=
  | reachable_init files : reachable (init files)
  | reachable_step r o s :
      reachable s -> fresh_upload r s -> reachable (snd (app r o s)).

(** [steps s s']: the server gets from [s] to [s'] by serving requests. *)
Inductive steps : state -> state -> Prop :=
  | steps_refl s : steps s s
  | steps_step r o s s' : steps s s' -> steps s (snd (app r o s')).

End Handlers.

(** Every primary key is below the AUTO_INCREMENT counter. *)
Definition keys_below (s : state) : Prop :=
  forall k x, items s !! k = Some x -> k < auto_increment s.

(** The key [i] was handed out and no row carries it any more. *)
Definition retired (i : Z) (s : state) : Prop :=
  i < auto_increment s /\ items s !! i = None.

(** The row after UpdateFields with the body of [r]. *)
Definition update_row (r : request) (x : row) : row :=
  {| col_inventory_name :=
       partial_update (body_inventory_name r) (col_inventory_name x);
     col_description :=
       partial_update (body_description r) (col_description x);
     col_photo := col_photo x |}.

(** The state a successful ReplacePhoto leaves: the upload stored, the
    reference recorded, the old file removed. *)
Definition photo_replaced (i : Z) (r : row) (new : string) (s : state) : state :=
  remove_if_exists (col_photo r)
    (emit (PhotoRecorded i new)
       (set_items
          (<[i := {| col_inventory_name := col_inventory_name r;
                     col_description := col_description r;
                     col_photo := Some new |}]> (items s))
          (store_blob new s))).

(** Every query of the request runs. *)
Definition healthy (o : oracle) : Prop := Forall (fun q => q = None) o.

(** No row refers to [p]. *)
Definition unreferenced (p : string) (s : state) : Prop :=
  forall i r, items s !! i = Some r -> col_photo r <> Some p.

(** Every non-null photo reference names a file on disk, is a non-empty
    path, and belongs to one row only. *)
Definition no_dangling (s : state) : Prop :=
  forall i r p, items s !! i = Some r -> col_photo r = Some p -> p ∈ disk s.

Definition exclusive (s : state) : Prop :=
  forall i j r r' p,
    items s !! i = Some r -> items s !! j = Some r' ->
    col_photo r = Some p -> col_photo r' = Some p -> i = j.

Definition refs_truthy (s : state) : Prop :=
  forall i r p, items s !! i = Some r -> col_photo r = Some p -> truthy p = true.

Definition consistent (s : state) : Prop :=
  no_dangling s /\ exclusive s /\ refs_truthy s.

(** Every file on disk is the photo of some row. *)
Definition no_orphan (s : state) : Prop :=
  forall p, p ∈ disk s -> exists i r, items s !! i = Some r /\ col_photo r = Some p.

End Persistent.

(** * Sample data *)

Module Sample.

Definition env : Env := {| CACHE_PATH := None |}.

Definition photoA : upload :=
  {| fieldname := "photo"; now := 1700000000000; random := 42; extname := ".jpg" |}.

Definition photoB : upload :=
  {| fieldname := "photo"; now := 1700000000001; random := 7; extname := ".png" |}.

Definition pathA : string := "public/uploads/photo-1700000000000-42.jpg".
Definition pathB : string := "public/uploads/photo-1700000000001-7.png".

Definition req (m : method) (rt : route) : request :=
  {| req_method := m; req_route := rt; body_inventory_name := None;
     body_description := None; body_id := NaN; req_file := None;
     body_defined := true |}.

Definition register (name : option string) (desc : option string)
    (file : option upload) : request :=
  {| req_method := POST; req_route := Register; body_inventory_name := name;
     body_description := desc; body_id := NaN; req_file := file;
     body_defined := true |}.

Definition update (i : Z) (name desc : option string) : request :=
  {| req_method := PUT; req_route := Item (Int i); body_inventory_name := name;
     body_description := desc; body_id := NaN; req_file := None;
     body_defined := true |}.

Definition replace_photo (n : jsnum) (file : option upload) : request :=
  {| req_method := PUT; req_route := ItemPhoto n; body_inventory_name := None;
     body_description := None; body_id := NaN; req_file := file;
     body_defined := true |}.

Definition search (n : jsnum) : request :=
  {| req_method := POST; req_route := Search; body_inventory_name := None;
     body_description := None; body_id := n; req_file := None;
     body_defined := true |}.

(** The in-memory server after Register("Laptop", "Dell", photoA). *)
Definition volatile_laptop : Volatile.state :=
  snd (@Volatile.app env (register (Some "Laptop") (Some "Dell") (Some photoA))
         (Volatile.init ∅)).

(** The MySQL server after the same registration (the script's row has
    id 1, the laptop id 2). *)
Definition persistent_laptop : Persistent.state :=
  snd (@Persistent.app env (register (Some "Laptop") (Some "Dell") (Some photoA))
         [] (Persistent.init ∅)).

End Sample.

(** * Strings *)

Lemma truthy_append_cons (a b : string) (c : ascii) :
  truthy (a +:+ String c b) = true.
Proof. destruct a; reflexivity. Qed.

Lemma file_path_truthy `{Env} (f : upload) : truthy (file_path f) = true.
Proof. unfold file_path. apply (truthy_append_cons cache (filename f) "/"%char). Qed.

Lemma all_white_space_trimStart (s : string) :
  all_white_space (trimStart s) = all_white_space s.
Proof.
  induction s as [|c r IH]; simpl; [done|].
  destruct (is_white_space c) eqn:Hc; simpl; [done|]. by rewrite Hc.
Qed.

Lemma trimStart_empty (s : string) :
  trimStart s = "" <-> all_white_space s = true.
Proof.
  induction s as [|c r IH]; simpl; [done|].
  destruct (is_white_space c); simpl; [done|]. split; discriminate.
Qed.

Lemma rev_app_empty (s t : string) :
  String.rev_app s t = "" <-> s = "" /\ t = "".
Proof.
  revert t. induction s as [|c r IH]; intros t; simpl.
  - split; [by intros ->|by intros [_ ->]].
  - rewrite IH. split; [intros [_ ?]|intros [? _]]; discriminate.
Qed.

Lemma all_white_space_rev_app (s t : string) :
  all_white_space (String.rev_app s t)
  = all_white_space s && all_white_space t.
Proof.
  revert t. induction s as [|c r IH]; intros t; simpl; [done|].
  rewrite IH. simpl. destruct (is_white_space c), (all_white_space r); done.
Qed.

Lemma trim_empty (s : string) : trim s = "" <-> all_white_space s = true.
Proof.
  unfold trim, trimEnd, String.rev.
  rewrite rev_app_empty, trimStart_empty, all_white_space_rev_app.
  rewrite all_white_space_trimStart. simpl. rewrite andb_true_r.
  tauto.
Qed.

(** The guard of POST /register fires exactly on a blank name. *)
Lemma name_rejected_iff_blank (name : option string) :
  negb (truthy_opt name) || String.eqb (trim (default "" name)) "" = true
  <-> blank name.
Proof.
  unfold blank. destruct name as [s|]; simpl.
  - rewrite orb_true_iff, negb_true_iff, String.eqb_eq, trim_empty.
    split.
    + intros [Hs|Hs] ? [= <-]; [|done].
      unfold truthy in Hs. apply negb_false_iff, String.eqb_eq in Hs. by subst.
    + intros Hs. right. by apply Hs.
  - split; [intros _ ? [=]|done].
Qed.

(** * Upload names *)

Lemma string_app_assoc (a b c : string) : (a +:+ b) +:+ c = a +:+ (b +:+ c).
Proof.
  induction a as [|x a IH]; [done|].
  change (String x ((a +:+ b) +:+ c) = String x (a +:+ (b +:+ c))).
  by rewrite IH.
Qed.

Lemma all_digits_pretty_N_go (x : N) (s : string) :
  all_digits s = true -> all_digits (pretty_N_go x s) = true.
Proof.
  revert s. induction (N.lt_wf_0 x) as [x _ IH]; intros s Hs.
  assert (x = 0 \/ 0 < x)%N as [->|Hx] by lia.
  - by rewrite pretty_N_go_0.
  - rewrite pretty_N_go_step by done. apply IH.
    + by apply N.div_lt.
    + cbn. rewrite Hs, andb_true_r.
      unfold pretty_N_char. by repeat case_match.
Qed.

Lemma all_digits_pretty_Z (z : Z) : 0 <= z -> all_digits (pretty z) = true.
Proof.
  intros Hz. destruct z as [|x|x]; [done| |lia].
  unfold pretty, pretty_Z, pretty, pretty_positive, pretty, pretty_N.
  case_decide; [done|]. by apply all_digits_pretty_N_go.
Qed.

(** A run of digits followed by something that is not a digit reads in one
    way only. *)
Lemma digits_prefix_unique (a c t1 t2 : string) :
  all_digits a = true -> all_digits c = true ->
  no_digit_ahead t1 -> no_digit_ahead t2 ->
  a +:+ t1 = c +:+ t2 -> a = c /\ t1 = t2.
Proof.
  assert (Hnil : forall s, "" +:+ s = s) by done.
  assert (Hcons : forall x u v, String x u +:+ v = String x (u +:+ v)) by done.
  revert c. induction a as [|x a IH]; intros [|y c] Ha Hc H1 H2 Heq;
    rewrite ?Hnil, ?Hcons in Heq; cbn in *.
  - done.
  - subst t1. cbn in H1. apply andb_true_iff in Hc as [Hy _]. congruence.
  - subst t2. cbn in H2. apply andb_true_iff in Ha as [Hx _]. congruence.
  - apply andb_true_iff in Ha as [_ Ha]. apply andb_true_iff in Hc as [_ Hc].
    injection Heq as -> Heq. destruct (IH c Ha Hc H1 H2 Heq) as [-> ->]. done.
Qed.

(** A request the application refuses changes nothing; else the routing
    table decides. *)
Ltac refused_or_routed :=
  match goal with
  | |- context [if ?b then (express_error, _) else _] =>
      destruct b; [cbn [fst snd]; first [done | reflexivity | tauto]|]
  end.

(** * The in-memory variant: invariants of the handlers *)

Section VolatileFacts.
Context `{Env}.
Import Volatile.

Lemma volatile_find_Some n s k d :
  find n s = Some (k, d) ->
  devices s !! k = Some d /\ n = Int (id d)
  /\ forall j y, devices s !! j = Some y -> (j < k)%nat -> Int (id y) <> n.
Proof.
  unfold find. intros Hf. apply list_find_Some in Hf as (? & ? & ?). eauto.
Qed.

Lemma volatile_find_None n s :
  find n s = None -> forall j y, devices s !! j = Some y -> Int (id y) <> n.
Proof.
  unfold find. intros Hf j y Hj. apply list_find_None in Hf.
  rewrite Forall_lookup in Hf. by apply (Hf j y).
Qed.

Lemma volatile_consistent_store_blob p s :
  consistent s -> consistent (store_blob p s).
Proof.
  intros (Hd & He & Ht). split_and!; [|done..].
  intros i d q Hi Hq. simpl. apply elem_of_union_r. by eapply Hd.
Qed.

Lemma volatile_consistent_upload file s :
  consistent s -> consistent (upload_single file s).
Proof. destruct file; simpl; auto using volatile_consistent_store_blob. Qed.

Lemma volatile_consistent_unlink_if_exists ref s :
  consistent s -> (forall p, ref = Some p -> unreferenced p s) ->
  consistent (unlink_if_exists ref s).
Proof.
  intros Hc Hu. destruct ref as [p|]; simpl; [|done].
  destruct (truthy p && existsSync p s); [|done].
  destruct Hc as (Hd & He & Ht). split_and!; [|done..].
  intros i d q Hi Hq. simpl. apply elem_of_difference. split; [by eapply Hd|].
  intros ->%elem_of_singleton. by eapply (Hu p).
Qed.

Lemma volatile_devices_upload file s :
  devices (upload_single file s) = devices s.
Proof. by destruct file. Qed.

Lemma volatile_devices_unlink_if_exists ref s :
  devices (unlink_if_exists ref s) = devices s.
Proof.
  destruct ref as [p|]; simpl; [|done]. by destruct (truthy p && existsSync p s).
Qed.

(** A fresh path is referenced by no item of a consistent state. *)
Lemma volatile_fresh_unreferenced p s :
  consistent s -> p ∉ disk s -> unreferenced p s.
Proof. intros (Hd & _) Hp i d Hi Hq. apply Hp. by eapply Hd. Qed.

Lemma volatile_consistent_register r s :
  consistent s -> fresh_upload r s -> consistent (snd (post_register r s)).
Proof.
  intros Hc Hfresh. unfold post_register.
  pose proof (volatile_consistent_upload (req_file r) s Hc) as Hc1.
  destruct (negb _ || _); simpl; [done|].
  destruct Hc1 as (Hd & He & Ht).
  assert (Hnew : forall p, file_path <$> req_file r = Some p ->
            p ∈ disk (upload_single (req_file r) s) /\ truthy p = true
            /\ unreferenced p s).
  { intros p Hp. destruct (req_file r) as [f|] eqn:Hf; simplify_eq/=.
    split_and!; [set_solver|apply file_path_truthy|].
    apply volatile_fresh_unreferenced; auto. }
  split_and!.
  - intros i d p [[_ Hi]|[_ <-]]%lookup_snoc_Some Hp; simpl in *.
    + by eapply Hd.
    + by apply Hnew.
  - intros i j d d' p Hi Hj Hp Hp'; simpl in *.
    apply lookup_snoc_Some in Hi as [[_ Hi]|[-> <-]];
      apply lookup_snoc_Some in Hj as [[_ Hj]|[-> <-]]; simpl in *.
    + by eapply He.
    + apply Hnew in Hp' as (_ & _ & Hu).
      rewrite volatile_devices_upload in Hi. by destruct (Hu _ _ Hi).
    + apply Hnew in Hp as (_ & _ & Hu).
      rewrite volatile_devices_upload in Hj. by destruct (Hu _ _ Hj).
    + done.
  - intros i d p [[_ Hi]|[_ <-]]%lookup_snoc_Some Hp; simpl in *.
    + by eapply Ht.
    + by apply Hnew.
Qed.

(** Replacing an item by one with the same photo keeps the invariants. *)
Lemma volatile_consistent_same_photo s k d d' :
  devices s !! k = Some d -> photo d' = photo d ->
  consistent s -> consistent (set_devices (<[k := d']> (devices s)) s).
Proof.
  intros Hk Hph (Hd & He & Ht).
  assert (Hold : forall i x p,
            <[k := d']> (devices s) !! i = Some x -> photo x = Some p ->
            exists y, devices s !! i = Some y /\ photo y = Some p).
  { intros i x p [(-> & <- & _)|[_ Hi]]%list_lookup_insert_Some Hp.
    - exists d. by rewrite <- Hph.
    - by exists x. }
  split_and!.
  - intros i x p Hi Hp. simpl in *.
    destruct (Hold _ _ _ Hi Hp) as (y & ? & ?). by eapply Hd.
  - intros i j x x' p Hi Hj Hp Hp'. simpl in *.
    destruct (Hold _ _ _ Hi Hp) as (y & ? & ?).
    destruct (Hold _ _ _ Hj Hp') as (y' & ? & ?). by eapply He.
  - intros i x p Hi Hp. simpl in *.
    destruct (Hold _ _ _ Hi Hp) as (y & ? & ?). by eapply Ht.
Qed.

Lemma volatile_consistent_put_item n r s :
  consistent s -> consistent (snd (put_item n r s)).
Proof.
  intros Hc. unfold put_item. destruct (find n s) as [[k d]|] eqn:Hf; [|done].
  apply volatile_find_Some in Hf as (Hk & _). simpl.
  eapply volatile_consistent_same_photo; eauto.
  by destruct (truthy_opt (body_inventory_name r)),
    (truthy_opt (body_description r)).
Qed.

Lemma volatile_consistent_delete_item n s :
  consistent s -> consistent (snd (delete_item n s)).
Proof.
  intros (Hd & He & Ht). unfold delete_item.
  destruct (find n s) as [[k d]|] eqn:Hf; [|done].
  apply volatile_find_Some in Hf as (Hk & _). simpl.
  assert (Hold : forall i x,
            delete k (devices s) !! i = Some x ->
            exists i', i' <> k /\ devices s !! i' = Some x
                       /\ i = (if decide (i' < k)%nat then i' else pred i')).
  { intros i x. rewrite list_lookup_delete. case_decide.
    - exists i. split_and!; [lia|done|]. by rewrite decide_True.
    - exists (S i). split_and!; [lia|done|]. by rewrite decide_False by lia. }
  split_and!.
  - intros i x p Hi Hp. simpl in *.
    rewrite volatile_devices_unlink_if_exists in Hi.
    destruct (Hold _ _ Hi) as (i' & Hne & Hi' & _).
    destruct (photo d) as [q|] eqn:Hq; simpl; [|by eapply Hd].
    destruct (truthy q && existsSync q s); simpl; [|by eapply Hd].
    apply elem_of_difference. split; [by eapply Hd|].
    intros ->%elem_of_singleton. apply Hne. by eapply He.
  - intros i j x x' p Hi Hj Hp Hp'. simpl in *.
    rewrite volatile_devices_unlink_if_exists in Hi, Hj.
    destruct (Hold _ _ Hi) as (i' & ? & Hi' & ->).
    destruct (Hold _ _ Hj) as (j' & ? & Hj' & ->).
    assert (i' = j') as -> by (by eapply He). done.
  - intros i x p Hi Hp. simpl in *.
    rewrite volatile_devices_unlink_if_exists in Hi.
    destruct (Hold _ _ Hi) as (i' & _ & Hi' & _). by eapply Ht.
Qed.

Lemma volatile_consistent_put_photo n r s :
  consistent s -> fresh_upload r s -> consistent (snd (put_photo n r s)).
Proof.
  intros Hc Hfresh. unfold put_photo.
  pose proof (volatile_consistent_upload (req_file r) s Hc) as Hc1.
  destruct (find n _) as [[k d]|] eqn:Hf; [|done].
  destruct (req_file r) as [f|] eqn:Hfile; [|done].
  apply volatile_find_Some in Hf as (Hk & _). simpl in Hk. simpl.
  set (new := file_path f).
  assert (Hnew : unreferenced new s)
    by (apply volatile_fresh_unreferenced; [done|by apply Hfresh]).
  destruct Hc as (Hd & He & Ht).
  assert (Hdisk : forall i x p, i <> k -> devices s !! i = Some x ->
            photo x = Some p ->
            p ∈ disk (unlink_if_exists (photo d) (store_blob new s))).
  { intros i x p Hne Hi Hp.
    assert (p ∈ disk (store_blob new s))
      by (simpl; apply elem_of_union_r; by eapply Hd).
    destruct (photo d) as [q|] eqn:Hq; simpl; [|done].
    destruct (truthy q && existsSync q _); simpl; [|done].
    apply elem_of_difference. split; [done|].
    intros ->%elem_of_singleton. apply Hne. by eapply He. }
  assert (Hkeep : new ∈ disk (unlink_if_exists (photo d) (store_blob new s))).
  { destruct (photo d) as [q|] eqn:Hq; simpl; [|set_solver].
    destruct (truthy q && existsSync q _); simpl; [|set_solver].
    apply elem_of_difference. split; [set_solver|].
    intros ->%elem_of_singleton. by destruct (Hnew _ _ Hk). }
  split_and!.
  - intros i x p Hi Hp. simpl in *.
    rewrite volatile_devices_unlink_if_exists in Hi. simpl in Hi.
    apply list_lookup_insert_Some in Hi as [(-> & <- & _)|[Hne Hi]].
    + simpl in Hp. by simplify_eq.
    + by eapply Hdisk.
  - intros i j x x' p Hi Hj Hp Hp'. simpl in *.
    rewrite volatile_devices_unlink_if_exists in Hi, Hj. simpl in Hi, Hj.
    apply list_lookup_insert_Some in Hi as [(-> & <- & _)|[Hni Hi]];
      apply list_lookup_insert_Some in Hj as [(? & <- & _)|[Hnj Hj]];
      simpl in *; simplify_eq; try done.
    + by destruct (Hnew _ _ Hj).
    + by destruct (Hnew _ _ Hi).
    + by eapply He.
  - intros i x p Hi Hp. simpl in *.
    rewrite volatile_devices_unlink_if_exists in Hi. simpl in Hi.
    apply list_lookup_insert_Some in Hi as [(-> & <- & _)|[Hne Hi]].
    + simpl in Hp. simplify_eq. apply file_path_truthy.
    + by eapply Ht.
Qed.

(** Every request keeps the photo references of the in-memory variant
    sound, whatever the outcome. *)
Lemma volatile_consistent_app r s :
  consistent s -> fresh_upload r s -> consistent (snd (app r s)).
Proof.
  intros Hc Hfresh. unfold app. refused_or_routed. unfold routes.
  destruct (req_route r), (req_method r); simpl; try done;
    auto using volatile_consistent_register, volatile_consistent_put_item,
      volatile_consistent_delete_item, volatile_consistent_put_photo.
  all: unfold get_item, get_photo, post_search;
    repeat (case_match; simpl; try done).
Qed.

Lemma volatile_no_orphan_register r s :
  no_orphan s -> (req_file r = None \/ success (fst (post_register r s))) ->
  no_orphan (snd (post_register r s)).
Proof.
  intros Ho Hok. unfold post_register in *.
  destruct (negb _ || _); simpl in *.
  - destruct Hok as [->|Hok]; [done|]. unfold success in Hok. simpl in Hok. lia.
  - intros p Hp. simpl in Hp.
    assert (Hcase : p ∈ disk s \/ file_path <$> req_file r = Some p).
    { destruct (req_file r) as [f|]; simpl in *; [|by left].
      apply elem_of_union in Hp as [->%elem_of_singleton|?]; auto. }
    destruct Hcase as [Hold|Hnew].
    + destruct (Ho p Hold) as (i & d & Hi & Hd). exists i, d. split; [|done].
      rewrite volatile_devices_upload. apply lookup_app_l_Some. done.
    + eexists (length (devices (upload_single (req_file r) s))), _.
      split; [apply list_lookup_middle; done|]. done.
Qed.

Lemma volatile_no_orphan_put_item n r s :
  no_orphan s -> no_orphan (snd (put_item n r s)).
Proof.
  intros Ho. unfold put_item. destruct (find n s) as [[k d]|] eqn:Hf; [|done].
  apply volatile_find_Some in Hf as (Hk & _). simpl.
  intros p Hp. simpl in *. destruct (Ho p Hp) as (i & x & Hi & Hx).
  destruct (decide (i = k)) as [->|Hne].
  - eexists k, _. split.
    + apply list_lookup_insert_eq. by eapply lookup_lt_Some.
    + simplify_eq. by destruct (truthy_opt (body_inventory_name r)),
        (truthy_opt (body_description r)).
  - exists i, x. split; [|done]. by rewrite list_lookup_insert_ne.
Qed.

Lemma volatile_no_orphan_delete_item n s :
  consistent s -> no_orphan s -> no_orphan (snd (delete_item n s)).
Proof.
  intros (Hd & He & Ht) Ho. unfold delete_item.
  destruct (find n s) as [[k d]|] eqn:Hf; [|done].
  apply volatile_find_Some in Hf as (Hk & _). simpl.
  intros p Hp. simpl in Hp.
  assert (Hp' : p ∈ disk s /\ photo d <> Some p).
  { destruct (photo d) as [q|] eqn:Hq; simpl in Hp; [|done].
    destruct (truthy q && existsSync q s) eqn:Hg; simpl in Hp.
    - apply elem_of_difference in Hp as [? Hne]. split; [done|].
      intros [= ->]. apply Hne. by apply elem_of_singleton.
    - split; [done|]. intros [= ->].
      apply andb_false_iff in Hg as [Hg|Hg].
      + rewrite (Ht _ _ _ Hk Hq) in Hg. done.
      + unfold existsSync in Hg. by apply bool_decide_eq_false in Hg. }
  destruct Hp' as [Hin Hne]. destruct (Ho p Hin) as (i & x & Hi & Hx).
  assert (i <> k) by (intros ->; simplify_eq; done).
  destruct (decide (i < k)%nat).
  - exists i, x. simpl. rewrite volatile_devices_unlink_if_exists.
    by rewrite list_lookup_delete_lt.
  - exists (pred i), x. simpl. rewrite volatile_devices_unlink_if_exists.
    rewrite list_lookup_delete_ge by lia.
    by replace (S (pred i)) with i by lia.
Qed.

Lemma volatile_no_orphan_put_photo n r s :
  consistent s -> no_orphan s ->
  (req_file r = None \/ success (fst (put_photo n r s))) ->
  no_orphan (snd (put_photo n r s)).
Proof.
  intros (Hd & He & Ht) Ho Hok. unfold put_photo in *.
  destruct (find n _) as [[k d]|] eqn:Hf.
  - destruct (req_file r) as [f|] eqn:Hfile; [|exact Ho].
    apply volatile_find_Some in Hf as (Hk & _). simpl in Hk. simpl.
    intros p Hp. simpl in Hp. rewrite volatile_devices_unlink_if_exists. simpl.
    destruct (decide (p = file_path f)) as [->|Hnew].
    { eexists k, _. split.
      - apply list_lookup_insert_eq. by eapply lookup_lt_Some.
      - done. }
    assert (Hp' : p ∈ disk s /\ photo d <> Some p).
    { destruct (photo d) as [q|] eqn:Hq; simpl in Hp; [|set_solver].
      destruct (truthy q && existsSync q _) eqn:Hg; simpl in Hp.
      - split; [set_solver|]. intros [= ->]. set_solver.
      - assert (p ∈ disk s) by set_solver. split; [done|]. intros [= ->].
        apply andb_false_iff in Hg as [Hg|Hg].
        + rewrite (Ht _ _ _ Hk Hq) in Hg. done.
        + unfold existsSync in Hg. apply bool_decide_eq_false in Hg.
          apply Hg. simpl. set_solver. }
    destruct Hp' as [Hin Hne]. destruct (Ho p Hin) as (i & x & Hi & Hx).
    assert (i <> k) by (intros ->; simplify_eq; done).
    exists i, x. by rewrite list_lookup_insert_ne.
  - simpl in *. destruct Hok as [->|Hok]; [done|].
    unfold success in Hok. simpl in Hok. lia.
Qed.

(** A request that succeeds, or that uploads nothing, leaves no file
    without an owner. *)
Lemma volatile_no_orphan_app r s :
  consistent s -> no_orphan s ->
  (req_file r = None \/ success (fst (app r s))) ->
  no_orphan (snd (app r s)).
Proof.
  intros Hc Ho Hok. unfold app in *.
  destruct (unexpected_file r || body_missing r); [done|]. unfold routes in *.
  destruct (req_route r), (req_method r); simpl; try done;
    auto using volatile_no_orphan_register, volatile_no_orphan_put_item,
      volatile_no_orphan_delete_item, volatile_no_orphan_put_photo.
  all: unfold get_item, get_photo, post_search;
    repeat (case_match; simpl; try done).
Qed.

(** ** Ids *)

Lemma volatile_Id_upload file s : Id (upload_single file s) = Id s.
Proof. by destruct file. Qed.

Lemma volatile_Id_unlink_if_exists ref s : Id (unlink_if_exists ref s) = Id s.
Proof.
  destruct ref as [p|]; simpl; [|done]. by destruct (truthy p && existsSync p s).
Qed.

Lemma volatile_ids_fresh_upload file s :
  ids_fresh s -> ids_fresh (upload_single file s).
Proof.
  unfold ids_fresh. by rewrite volatile_Id_upload, volatile_devices_upload.
Qed.

Lemma volatile_ids_fresh_app r s : ids_fresh s -> ids_fresh (snd (app r s)).
Proof.
  intros [Hlt Hu]. unfold app. refused_or_routed. unfold routes.
  destruct (req_route r) as [| |n|n| |], (req_method r); simpl; try done.
  - (* POST /register *)
    unfold post_register. destruct (negb _ || _); simpl.
    { by apply volatile_ids_fresh_upload. }
    split; simpl; rewrite volatile_Id_upload, volatile_devices_upload.
    + intros i d [[_ Hi]|[_ <-]]%lookup_snoc_Some; simpl.
      * apply Hlt in Hi. lia.
      * lia.
    + intros i j d d' Hi Hj Hid'.
      apply lookup_snoc_Some in Hi as [[_ Hi]|[-> <-]];
        apply lookup_snoc_Some in Hj as [[_ Hj]|[-> <-]];
        simpl in *; rewrite ?volatile_devices_upload in *.
      * eauto.
      * apply Hlt in Hi. lia.
      * apply Hlt in Hj. lia.
      * done.
  - unfold get_item. by repeat case_match.
  - unfold get_item. by repeat case_match.
  - (* PUT /inventory/:id *)
    unfold put_item. destruct (find n s) as [[k d]|] eqn:Hf; [|done].
    apply volatile_find_Some in Hf as (Hk & _). simpl.
    set (d2 := if truthy_opt (body_description r) then _ else _).
    assert (Hd2 : id d2 = id d).
    { subst d2. by destruct (truthy_opt (body_inventory_name r)),
        (truthy_opt (body_description r)). }
    assert (Hold : forall i x, <[k := d2]> (devices s) !! i = Some x ->
              exists y, devices s !! i = Some y /\ id y = id x).
    { intros i x [(-> & <- & _)|[_ Hi]]%list_lookup_insert_Some; eauto. }
    split; simpl.
    + intros i x Hi. destruct (Hold _ _ Hi) as (y & Hy & <-). eauto.
    + intros i j x x' Hi Hj Hid.
      destruct (Hold _ _ Hi) as (y & Hy & Hiy).
      destruct (Hold _ _ Hj) as (y' & Hy' & Hjy).
      eapply Hu; eauto. congruence.
  - (* DELETE /inventory/:id *)
    unfold delete_item. destruct (find n s) as [[k d]|] eqn:Hf; [|done].
    split; cbn [devices Id emit set_devices snd];
      rewrite ?volatile_Id_unlink_if_exists, ?volatile_devices_unlink_if_exists.
    + intros i x. rewrite list_lookup_delete. eauto.
    + intros i j x x'. rewrite !list_lookup_delete. intros Hi Hj Hid.
      pose proof (Hu _ _ _ _ Hi Hj Hid). repeat case_decide; lia.
  - unfold get_photo. by repeat case_match.
  - unfold get_photo. by repeat case_match.
  - (* PUT /inventory/:id/photo *)
    unfold put_photo. destruct (find n _) as [[k d]|] eqn:Hf; simpl.
    2:{ by apply volatile_ids_fresh_upload. }
    destruct (req_file r) as [f|] eqn:Hfile; [|done].
    apply volatile_find_Some in Hf as (Hk & _). simpl in Hk.
    set (d2 := Build_device _ _ _ _).
    assert (Hold : forall i x, <[k := d2]> (devices s) !! i = Some x ->
              exists y, devices s !! i = Some y /\ id y = id x).
    { intros i x [(-> & <- & _)|[_ Hi]]%list_lookup_insert_Some; eauto. }
    split; cbn [devices Id emit set_devices snd];
      rewrite ?volatile_Id_unlink_if_exists, ?volatile_devices_unlink_if_exists;
      cbn [devices Id emit set_devices store_blob set_disk].
    + intros i x Hi. destruct (Hold _ _ Hi) as (y & Hy & <-). eauto.
    + intros i j x x' Hi Hj Hid.
      destruct (Hold _ _ Hi) as (y & Hy & Hiy).
      destruct (Hold _ _ Hj) as (y' & Hy' & Hjy).
      eapply Hu; eauto. congruence.
  - unfold post_search. by repeat case_match.
Qed.

(** Every state the server reaches has unique ids and sound references. *)
Lemma volatile_reachable_invariant s :
  reachable s -> ids_fresh s /\ consistent s.
Proof.
  induction 1 as [files|r s _ [IHi IHc] Hfresh].
  - split; [split|split_and!]; intros *; simpl;
      rewrite ?lookup_nil; done.
  - split; [by apply volatile_ids_fresh_app|by apply volatile_consistent_app].
Qed.

(** An id that was retired stays retired, whatever is served next. *)
Lemma volatile_retired_app i r s : retired i s -> retired i (snd (app r s)).
Proof.
  intros [Hlt Hno]. unfold app. refused_or_routed. unfold routes.
  destruct (req_route r) as [| |n|n| |], (req_method r); simpl; try done.
  - unfold post_register. destruct (negb _ || _); simpl.
    { split; [by rewrite volatile_Id_upload|].
      intros k d. rewrite volatile_devices_upload. eauto. }
    split; simpl; rewrite volatile_Id_upload; [lia|].
    intros k d. rewrite volatile_devices_upload.
    intros [[_ Hk]|[_ <-]]%lookup_snoc_Some; simpl; [eauto|lia].
  - unfold get_item. by repeat case_match.
  - unfold get_item. by repeat case_match.
  - unfold put_item. destruct (find n s) as [[k d]|] eqn:Hf; [|done].
    apply volatile_find_Some in Hf as (Hk & _). split; [done|]. simpl.
    intros j x [(-> & <- & _)|[_ Hj]]%list_lookup_insert_Some; [|eauto].
    specialize (Hno _ _ Hk).
    by destruct (truthy_opt (body_inventory_name r)),
      (truthy_opt (body_description r)).
  - unfold delete_item. destruct (find n s) as [[k d]|] eqn:Hf; [|done].
    split; cbn [devices Id emit set_devices snd];
      rewrite ?volatile_Id_unlink_if_exists, ?volatile_devices_unlink_if_exists;
      [done|].
    intros j x. rewrite list_lookup_delete. eauto.
  - unfold get_photo. by repeat case_match.
  - unfold get_photo. by repeat case_match.
  - unfold put_photo. destruct (find n _) as [[k d]|] eqn:Hf; simpl.
    2:{ split; [by rewrite volatile_Id_upload|].
        intros k d. rewrite volatile_devices_upload. eauto. }
    destruct (req_file r) as [f|] eqn:Hfile; [|done].
    apply volatile_find_Some in Hf as (Hk & _). simpl in Hk.
    split; cbn [devices Id emit set_devices snd];
      rewrite ?volatile_Id_unlink_if_exists, ?volatile_devices_unlink_if_exists;
      [done|].
    cbn [devices store_blob emit set_disk].
    intros j x [(-> & <- & _)|[_ Hj]]%list_lookup_insert_Some; [|eauto].
    simpl. eauto.
  - unfold post_search. by repeat case_match.
Qed.

Lemma volatile_retired_steps i s s' : steps s s' -> retired i s -> retired i s'.
Proof. induction 1; auto using volatile_retired_app. Qed.

Lemma volatile_retired_absent i s : retired i s -> find (Int i) s = None.
Proof.
  intros [_ Hno]. unfold find. apply list_find_None, Forall_lookup.
  intros k d Hk [= Hid]. by eapply Hno.
Qed.

(** ** Register *)

Lemma volatile_register_blank r s :
  blank (body_inventory_name r) ->
  post_register r s
  = (end_ 400 ("The " +:+ dq +:+ "inventory_name" +:+ dq +:+ " field is required"),
     upload_single (req_file r) s).
Proof.
  intros Hb%name_rejected_iff_blank. unfold post_register. by rewrite Hb.
Qed.

Lemma volatile_register_valid r s :
  ~ blank (body_inventory_name r) ->
  exists d,
    post_register r s
    = (json_ 201 (JObj (device_json d)),
       emit (RecordCreated (id d) (photo d))
         {| devices := devices s ++ [d]; Id := Id s + 1;
            disk := disk (upload_single (req_file r) s);
            log := log (upload_single (req_file r) s) |})
    /\ id d = Id s
    /\ Some (inventory_name d) = body_inventory_name r
    /\ photo d = file_path <$> req_file r.
Proof.
  intros Hb. unfold post_register.
  destruct (negb _ || _) eqn:Hg.
  { by apply name_rejected_iff_blank in Hg. }
  eexists. rewrite volatile_devices_upload, volatile_Id_upload.
  split; [reflexivity|]. simpl. split_and!; [done| |done].
  destruct (body_inventory_name r); [done|]. destruct Hb. by intros ? [=].
Qed.

(** ** UpdateFields *)

Lemma volatile_put_item_absent n r s :
  find n s = None -> put_item n r s = (end_ 404 "No item with such ID", s).
Proof. unfold put_item. by intros ->. Qed.

Lemma volatile_put_item_present n r s k d :
  find n s = Some (k, d) ->
  exists d',
    put_item n r s
    = (json_ 200 (JObj (device_json d')),
       set_devices (<[k := d']> (devices s)) s)
    /\ id d' = id d /\ photo d' = photo d
    /\ inventory_name d'
       = (if truthy_opt (body_inventory_name r)
          then default "" (body_inventory_name r) else inventory_name d)
    /\ description d'
       = (if truthy_opt (body_description r)
          then default "" (body_description r) else description d).
Proof.
  intros Hf. unfold put_item. rewrite Hf. eexists. split; [reflexivity|].
  by destruct (truthy_opt (body_inventory_name r)),
    (truthy_opt (body_description r)).
Qed.

(** ** Delete *)

Lemma volatile_delete_absent n s :
  find n s = None -> delete_item n s = (end_ 404 "Item not found", s).
Proof. unfold delete_item. by intros ->. Qed.

Lemma volatile_delete_present n s k d :
  ids_fresh s -> find n s = Some (k, d) ->
  let res := fst (delete_item n s) in
  let s' := snd (delete_item n s) in
  status res = 200
  /\ find n s' = None
  /\ devices s' = delete k (devices s)
  /\ (forall p, photo d = Some p -> truthy p = true -> p ∉ disk s')
  /\ log s'
     = log s
       ++ match photo d with
          | Some p => if truthy p && existsSync p s then [BlobDeleted p] else []
          | None => []
          end
       ++ [RecordDeleted (id d)].
Proof.
  intros [_ Hu] Hf. unfold delete_item. rewrite Hf.
  apply volatile_find_Some in Hf as (Hk & -> & _).
  cbn [fst snd status json_ devices emit set_devices disk log].
  rewrite volatile_devices_unlink_if_exists. split_and!; [done| |done| |].
  - unfold find. apply list_find_None, Forall_lookup. intros j y Hj [= Hid].
    cbn [devices emit set_devices] in Hj.
    rewrite list_lookup_delete in Hj.
    pose proof (Hu _ _ _ _ Hj Hk Hid). case_decide; lia.
  - intros p -> Hp. simpl. rewrite Hp. simpl. unfold existsSync.
    case_bool_decide; simpl; set_solver.
  - destruct (photo d) as [p|]; simpl; [|done].
    destruct (truthy p && existsSync p s); simpl; [|done].
    by rewrite <- app_assoc.
Qed.

(** ** GetById and GetPhoto *)

Lemma volatile_get_absent n s :
  find n s = None ->
  get_item n s = (end_ 404 "No item with such ID", s)
  /\ get_photo n s = (end_ 404 "Item not found", s).
Proof. unfold get_item, get_photo. by intros ->. Qed.

Lemma volatile_get_item_present n s k d :
  find n s = Some (k, d) ->
  get_item n s = (json_ 200 (with_photo_url d), s).
Proof. unfold get_item. by intros ->. Qed.

(** ** ReplacePhoto *)

Lemma volatile_put_photo_absent n r s :
  find n s = None ->
  put_photo n r s = (end_ 404 "Item not found", upload_single (req_file r) s).
Proof.
  intros Hf. unfold put_photo, find in *.
  by rewrite volatile_devices_upload, Hf.
Qed.

Lemma volatile_put_photo_no_file n r s k d :
  find n s = Some (k, d) -> req_file r = None ->
  put_photo n r s = (end_ 400 "Photo file not sent", s).
Proof. intros Hf Hr. unfold put_photo. rewrite Hr. simpl. by rewrite Hf. Qed.

Lemma volatile_put_photo_present n r s k d f :
  find n s = Some (k, d) -> req_file r = Some f ->
  let res := fst (put_photo n r s) in
  let s' := snd (put_photo n r s) in
  let d' := {| id := id d; inventory_name := inventory_name d;
               description := description d; photo := Some (file_path f) |} in
  res = json_ 200 (JObj (device_json d'))
  /\ devices s' = <[k := d']> (devices s)
  /\ (photo d <> Some (file_path f) -> file_path f ∈ disk s')
  /\ (forall p, photo d = Some p -> truthy p = true -> p ∉ disk s')
  /\ log s'
     = log s ++ [BlobStored (file_path f)]
       ++ match photo d with
          | Some p =>
              if truthy p && bool_decide (p ∈ {[file_path f]} ∪ disk s)
              then [BlobDeleted p] else []
          | None => []
          end
       ++ [PhotoRecorded (id d) (file_path f)].
Proof.
  intros Hf Hr. unfold put_photo, find in *.
  rewrite volatile_devices_upload, Hf, Hr.
  cbn [fst snd status json_ devices emit set_devices disk log upload_single].
  rewrite volatile_devices_unlink_if_exists. split_and!; [done|done|..].
  - intros Hne. destruct (photo d) as [p|] eqn:Hp; simpl; [|set_solver].
    destruct (truthy p); simpl; [|set_solver]. unfold existsSync. simpl.
    case_bool_decide; simpl; [|set_solver].
    apply elem_of_difference. split; [set_solver|].
    intros ?%elem_of_singleton. congruence.
  - intros p -> Hp. simpl. rewrite Hp. simpl. unfold existsSync. simpl.
    case_bool_decide; simpl; set_solver.
  - destruct (photo d) as [p|]; simpl; [|by rewrite <- app_assoc].
    destruct (truthy p); simpl; [|by rewrite <- app_assoc].
    unfold existsSync. simpl.
    case_bool_decide; simpl; by rewrite <- !app_assoc.
Qed.

(** ** SearchById *)

Lemma volatile_search_NaN r s :
  body_id r = NaN -> post_search r s = (end_ 400 "Invalid ID", s).
Proof. unfold post_search. by intros ->. Qed.

Lemma volatile_search_absent r s :
  body_id r <> NaN -> find (body_id r) s = None ->
  post_search r s = (end_ 404 "Item not found", s).
Proof.
  intros Hn Hf. unfold post_search. rewrite Hf.
  by destruct (body_id r).
Qed.

Lemma volatile_search_present r s k d :
  find (body_id r) s = Some (k, d) ->
  post_search r s
  = (json_ 201
       (JObj ([ ("id", JNum (id d));
                ("inventory_name", JStr (inventory_name d));
                ("description", JStr (description d)) ]
              ++ if truthy_opt (photo d)
                 then [("photo_url", JStr (photo_url_of (id d)))] else [])), s).
Proof.
  intros Hf. unfold post_search. rewrite Hf.
  apply volatile_find_Some in Hf as (_ & -> & _). simpl.
  by destruct (truthy_opt (photo d)).
Qed.

(** ** The item a path addresses *)

(** [devices.find(d => d.id === n)] returns the first item whose id is
    [n]. *)
Lemma volatile_find_first n s k d :
  devices s !! k = Some d -> Int (id d) = n ->
  (forall j y, devices s !! j = Some y -> (j < k)%nat -> Int (id y) <> n) ->
  find n s = Some (k, d).
Proof. intros Hk Hd Hlt. unfold find. by apply list_find_Some. Qed.

Lemma volatile_find_nowhere n s :
  (forall d, d ∈ devices s -> Int (id d) <> n) -> find n s = None.
Proof.
  intros Hno. unfold find. apply list_find_None, Forall_forall.
  intros d Hd. by apply Hno.
Qed.

Lemma volatile_find_insert n s s0 k d y :
  Volatile.find n s = Some (k, d) -> id y = id d ->
  Volatile.find n (Volatile.set_devices (<[k := y]> (Volatile.devices s)) s0)
  = Some (k, y).
Proof.
  unfold Volatile.find. cbn. rewrite !list_find_Some.
  intros (Hk & Hd & Hlt) Hid. split_and!.
  - apply list_lookup_insert_eq. by eapply lookup_lt_Some.
  - by rewrite Hid.
  - intros j z Hj Hjk. rewrite list_lookup_insert_ne in Hj by lia. eauto.
Qed.

Lemma volatile_find_updated n s s' k d y :
  Volatile.find n s = Some (k, d) -> id y = id d ->
  Volatile.devices s' = <[k := y]> (Volatile.devices s) ->
  Volatile.find n s' = Some (k, y).
Proof.
  unfold Volatile.find. intros Hfind Hid ->. revert Hfind.
  rewrite !list_find_Some. intros (Hk & Hd & Hlt). split_and!.
  - apply list_lookup_insert_eq. by eapply lookup_lt_Some.
  - by rewrite Hid.
  - intros j z Hj Hjk. rewrite list_lookup_insert_ne in Hj by lia. eauto.
Qed.

End VolatileFacts.

(** * The MySQL variant: invariants of the handlers *)

Section PersistentFacts.
Context `{Env}.
Import Persistent.

(** A query either rejects and leaves the state alone, or runs. *)
Lemma persistent_pool_query_cases {A} (q : state -> outcome A * state) o s :
  (exists msg o', pool_query q o s = (Rejected msg, o', s))
  \/ (exists o', pool_query q o s = (fst (q s), o', snd (q s))).
Proof.
  destruct o as [|[msg|] o']; simpl; [right; exists []|left|right; exists o'];
    destruct (q s); eauto.
Qed.

Lemma persistent_pool_query_healthy {A} (q : state -> outcome A * state) o s :
  healthy o ->
  exists o', healthy o' /\ pool_query q o s = (fst (q s), o', snd (q s)).
Proof.
  intros Ho. destruct o as [|[msg|] o']; simpl.
  - exists []. by destruct (q s).
  - by apply Forall_cons in Ho as [? _].
  - apply Forall_cons in Ho as [_ Ho]. exists o'. by destruct (q s).
Qed.

Lemma persistent_assign_photo fields r :
  col_photo (foldl assign r fields) = col_photo r.
Proof.
  revert r. induction fields as [|[[] v] fields IH]; intros r; simpl; [done|..];
    by rewrite IH.
Qed.

Lemma persistent_fresh_unreferenced p s :
  consistent s -> p ∉ disk s -> unreferenced p s.
Proof. intros (Hd & _) Hp i r Hi Hq. apply Hp. by eapply Hd. Qed.

Lemma persistent_consistent_store_blob p s :
  consistent s -> consistent (store_blob p s).
Proof.
  intros (Hd & He & Ht). split_and!; [|done..].
  intros i r q Hi Hq. simpl. apply elem_of_union_r. by eapply Hd.
Qed.

Lemma persistent_unreferenced_store_blob p q s :
  unreferenced p s -> unreferenced p (store_blob q s).
Proof. done. Qed.

Lemma persistent_consistent_remove_blob p s :
  consistent s -> unreferenced p s -> consistent (remove_blob p s).
Proof.
  intros (Hd & He & Ht) Hu. split_and!; [|done..].
  intros i r q Hi Hq. simpl. apply elem_of_difference. split; [by eapply Hd|].
  intros ->%elem_of_singleton. by eapply Hu.
Qed.

Lemma persistent_consistent_remove_if_exists ref s :
  consistent s -> (forall p, ref = Some p -> unreferenced p s) ->
  consistent (remove_if_exists ref s).
Proof.
  intros Hc Hu. destruct ref as [p|]; simpl; [|done].
  destruct (truthy p && _); [|done].
  apply persistent_consistent_remove_blob; auto.
Qed.

Lemma persistent_consistent_INSERT name desc ref s :
  consistent s ->
  (forall p, ref = Some p -> p ∈ disk s /\ truthy p = true /\ unreferenced p s) ->
  consistent (snd (INSERT name desc ref s)).
Proof.
  intros (Hd & He & Ht) Hnew. unfold INSERT.
  destruct (items s !! auto_increment s) eqn:Hfree; [done|].
  split_and!; intros i; cbn [items disk emit snd].
  - intros r p [[<- <-]|[_ Hi]]%lookup_insert_Some Hp; simpl in *.
    + by apply Hnew.
    + by eapply Hd.
  - intros j r r' p Hi Hj Hp Hp'; simpl in *.
    apply lookup_insert_Some in Hi as [[<- <-]|[Hni Hi]];
      apply lookup_insert_Some in Hj as [[<- <-]|[Hnj Hj]]; simpl in *.
    + done.
    + apply Hnew in Hp as (_ & _ & Hu). by destruct (Hu _ _ Hj).
    + apply Hnew in Hp' as (_ & _ & Hu). by destruct (Hu _ _ Hi).
    + by eapply He.
  - intros r p [[<- <-]|[_ Hi]]%lookup_insert_Some Hp; simpl in *.
    + by apply Hnew.
    + by eapply Ht.
Qed.

Lemma persistent_consistent_UPDATE fields n s :
  consistent s -> consistent (snd (UPDATE fields n s)).
Proof.
  intros (Hd & He & Ht). unfold UPDATE. destruct n as [|k|]; simpl; [done| |done].
  assert (Hold : forall i r p,
            alter (fun r => foldl assign r fields) k (items s) !! i = Some r ->
            col_photo r = Some p ->
            exists r0, items s !! i = Some r0 /\ col_photo r0 = Some p).
  { intros i r p [(<- & r0 & ? & ->)|[_ Hi]]%lookup_alter_Some Hp; [|eauto].
    rewrite persistent_assign_photo in Hp. eauto. }
  split_and!; intros i; cbn [items disk set_items].
  - intros r p Hi Hp. destruct (Hold _ _ _ Hi Hp) as (? & ? & ?).
    by eapply Hd.
  - intros j r r' p Hi Hj Hp Hp'. cbn [items disk set_items] in *.
    destruct (Hold _ _ _ Hi Hp) as (? & ? & ?).
    destruct (Hold _ _ _ Hj Hp') as (? & ? & ?). by eapply He.
  - intros r p Hi Hp. destruct (Hold _ _ _ Hi Hp) as (? & ? & ?).
    by eapply Ht.
Qed.

Lemma persistent_consistent_UPDATE_photo p n s :
  consistent s -> p ∈ disk s -> truthy p = true -> unreferenced p s ->
  consistent (snd (UPDATE_photo p n s)).
Proof.
  intros (Hd & He & Ht) Hp Htp Hu. unfold UPDATE_photo.
  destruct n as [|k|]; simpl; [done| |done].
  destruct (items s !! k) as [r0|] eqn:Hk; [|done].
  split_and!; intros i; cbn [items disk emit set_items].
  - intros r q [[<- <-]|[_ Hi]]%lookup_insert_Some Hq; simpl in *.
    + by simplify_eq.
    + by eapply Hd.
  - intros j r r' q Hi Hj Hq Hq'; cbn [items disk emit set_items] in *.
    apply lookup_insert_Some in Hi as [[<- <-]|[Hni Hi]];
      apply lookup_insert_Some in Hj as [[<- <-]|[Hnj Hj]]; simpl in *;
      simplify_eq.
    + done.
    + by destruct (Hu _ _ Hj).
    + by destruct (Hu _ _ Hi).
    + by eapply He.
  - intros r q [[<- <-]|[_ Hi]]%lookup_insert_Some Hq; simpl in *.
    + by simplify_eq.
    + by eapply Ht.
Qed.

Lemma persistent_consistent_DELETE n s :
  consistent s -> consistent (snd (DELETE_FROM n s)).
Proof.
  intros (Hd & He & Ht). unfold DELETE_FROM.
  destruct n as [|k|]; simpl; [done| |done].
  destruct (items s !! k) as [r0|] eqn:Hk; [|done].
  split_and!; intros i; cbn [items disk emit set_items].
  - intros r p [_ Hi]%lookup_delete_Some Hp. by eapply Hd.
  - intros j r r' p [_ Hi]%lookup_delete_Some [_ Hj]%lookup_delete_Some ??.
    by eapply He.
  - intros r p [_ Hi]%lookup_delete_Some Hp. by eapply Ht.
Qed.

(** What [SELECT ... WHERE id = n] resolves to. *)
Lemma persistent_SELECT_cases n s :
  (SELECT n s = (Resolved [], s)
   /\ forall i, n = Int i -> items s !! i = None)
  \/ (exists i r, n = Int i /\ items s !! i = Some r
                  /\ SELECT n s = (Resolved [as_device i r], s)).
Proof.
  unfold SELECT, find. destruct n as [|i|]; [left; by split| |left; by split].
  destruct (items s !! i) as [r|] eqn:Hi; [right; eauto|left].
  split; [done|]. by intros ? [= <-].
Qed.

Local Arguments INSERT : simpl never.
Local Arguments SELECT : simpl never.
Local Arguments SELECT_all : simpl never.
Local Arguments UPDATE : simpl never.
Local Arguments UPDATE_photo : simpl never.
Local Arguments DELETE_FROM : simpl never.
Local Arguments store_blob : simpl never.
Local Arguments remove_blob : simpl never.
Local Arguments remove_if_exists : simpl never.

(** Case analysis on the next query of a handler: it rejects, or it runs. *)
Ltac next_query :=
  match goal with
  | |- context [pool_query ?q ?o ?s] =>
      let Hq := fresh "Hq" in
      destruct (persistent_pool_query_cases q o s)
        as [(? & ? & Hq)|(? & Hq)]; rewrite Hq; clear Hq; cbn
  end.

Tactic Notation "next_select" "as" ident(i) ident(row) :=
  match goal with
  | |- context [SELECT ?n ?s] =>
      let Hs := fresh "Hs" in
      let Hn := fresh "Hnone" in
      let Hi := fresh "Hrow" in
      destruct (persistent_SELECT_cases n s)
        as [[Hs Hn]|(i & row & ? & Hi & Hs)]; rewrite Hs; clear Hs; cbn
  end.

Tactic Notation "next_select" :=
  let i := fresh "i" in let row := fresh "row" in next_select as i row.

Ltac unfold_handler :=
  unfold run, post_register, get_inventory, get_item, put_item, delete_item,
    get_photo, put_photo, post_search, error_message, upload_single,
    unlink_if_exists, unlinkSync, existsSync, try_catch, modify, gets,
    mbind, mret, M_bind, M_ret.

Lemma persistent_consistent_register r o s :
  consistent s -> fresh_upload r s ->
  consistent (snd (run (post_register r) o s)).
Proof.
  intros Hc Hfresh. unfold_handler.
  destruct (req_file r) as [f|] eqn:Hf; cbn.
  - pose proof (persistent_consistent_store_blob (file_path f) s Hc) as Hc1.
    destruct (negb _ || _); cbn; [done|].
    next_query; [done|].
    match goal with |- context [INSERT ?a ?b ?c ?s] =>
      assert (Hc2 : consistent (snd (INSERT a b c s)));
      [|by destruct (INSERT a b c s) as [[] ?]] end.
    apply persistent_consistent_INSERT; [done|]. intros ? [= <-].
    split_and!; [apply elem_of_union_l; by apply elem_of_singleton
                |apply file_path_truthy|].
    apply persistent_unreferenced_store_blob, persistent_fresh_unreferenced; auto.
  - destruct (negb _ || _); cbn; [done|].
    next_query; [done|].
    match goal with |- context [INSERT ?a ?b ?c ?s] =>
      assert (Hc2 : consistent (snd (INSERT a b c s)));
      [|by destruct (INSERT a b c s) as [[] ?]] end.
    by apply persistent_consistent_INSERT.
Qed.

Lemma persistent_consistent_put_item n r o s :
  consistent s -> consistent (snd (run (put_item n r) o s)).
Proof.
  intros Hc. unfold_handler.
  next_query; [done|]. next_select; [done|].
  set (fields := _ ++ _). clearbody fields.
  match goal with |- context [if ?b then pool_query _ else _] => destruct b end;
    cbn.
  - next_query; [done|].
    pose proof (persistent_consistent_UPDATE fields n s Hc) as Hc2.
    unfold UPDATE in *. cbn in *. next_query; [done|].
    next_select; done.
  - next_query; [done|]. next_select; done.
Qed.

Lemma persistent_unreferenced_after_DELETE i r p s :
  consistent s -> items s !! i = Some r -> col_photo r = Some p ->
  unreferenced p (snd (DELETE_FROM (Int i) s)).
Proof.
  intros (_ & He & _) Hi Hp. unfold DELETE_FROM, unreferenced. rewrite Hi. cbn.
  intros j r' [Hne Hj]%lookup_delete_Some Hp'. apply Hne. by eapply He.
Qed.

Lemma persistent_consistent_delete_item n o s :
  consistent s -> consistent (snd (run (delete_item n) o s)).
Proof.
  intros Hc. unfold_handler.
  next_query; [done|]. next_select as i row; [done|]. subst n.
  next_query; [done|].
  pose proof (persistent_consistent_DELETE (Int i) s Hc) as Hc2.
  pose proof (persistent_unreferenced_after_DELETE i row) as Hu.
  specialize (fun p => Hu p s Hc Hrow).
  destruct (DELETE_FROM (Int i) s) as [[[]|?] s2] eqn:Hdel; cbn in *; [|done].
  apply persistent_consistent_remove_if_exists; auto.
Qed.

Lemma persistent_unreferenced_after_UPDATE_photo i r p new s :
  consistent s -> items s !! i = Some r -> col_photo r = Some p -> new <> p ->
  unreferenced p (snd (UPDATE_photo new (Int i) s)).
Proof.
  intros (_ & He & _) Hi Hp Hnew. unfold UPDATE_photo, unreferenced.
  rewrite Hi. cbn.
  intros j r' [[<- <-]|[Hne Hj]]%lookup_insert_Some Hp'; simpl in *.
  - congruence.
  - apply Hne. by eapply He.
Qed.

Lemma persistent_consistent_put_photo n r o s :
  consistent s -> fresh_upload r s ->
  consistent (snd (run (put_photo n r) o s)).
Proof.
  intros Hc Hfresh. unfold_handler.
  destruct (req_file r) as [f|] eqn:Hf; cbn; [|done].
  set (new := file_path f).
  assert (Hnew : new ∉ disk s) by (by apply Hfresh).
  pose proof (persistent_consistent_store_blob new s Hc) as Hc1.
  assert (Hu1 : unreferenced new (store_blob new s)).
  { apply persistent_unreferenced_store_blob.
    by apply persistent_fresh_unreferenced. }
  next_query; [done|]. next_select as i row.
  { by apply persistent_consistent_remove_blob. }
  rename i into k, row into old.
  subst n. next_query; [done|].
  assert (Hc2 : consistent (snd (UPDATE_photo new (Int k) (store_blob new s)))).
  { apply persistent_consistent_UPDATE_photo; auto.
    - apply elem_of_union_l. by apply elem_of_singleton.
    - apply file_path_truthy. }
  assert (Hu2 : forall p, col_photo old = Some p ->
            unreferenced p (snd (UPDATE_photo new (Int k) (store_blob new s)))).
  { intros p Hp. eapply persistent_unreferenced_after_UPDATE_photo; eauto.
    intros ->. apply Hnew. destruct Hc as (Hd & _). by eapply Hd. }
  destruct (UPDATE_photo _ _ _) as [[[]|?] s2] eqn:Hupd; cbn in *; [|done].
  pose proof (persistent_consistent_remove_if_exists (col_photo old) s2 Hc2 Hu2).
  next_query; [done|].
  match goal with |- context [SELECT ?n ?s] =>
    by destruct (SELECT n s) as [[[]|] ?] eqn:Hsel;
      unfold SELECT in Hsel; simplify_eq end.
Qed.

(** Every request keeps the photo references of the MySQL variant sound,
    whatever the outcome and whichever queries fail. *)
Lemma persistent_consistent_app r o s :
  consistent s -> fresh_upload r s -> consistent (snd (app r o s)).
Proof.
  intros Hc Hfresh. unfold app. refused_or_routed. unfold routes.
  destruct (req_route r), (req_method r); try done;
    auto using persistent_consistent_register, persistent_consistent_put_item,
      persistent_consistent_delete_item, persistent_consistent_put_photo.
  all: unfold_handler; try (destruct (isNaN _); cbn; [done|]);
    next_query; try done; try next_select; try done.
  all: repeat case_match; by simplify_eq/=.
Qed.

(** ** No orphan *)

Lemma persistent_INSERT_cases name desc ref s :
  (exists msg, INSERT name desc ref s = (Rejected msg, s))
  \/ (items s !! auto_increment s = None
      /\ INSERT name desc ref s
         = (Resolved (auto_increment s),
            emit (RecordCreated (auto_increment s) ref)
              {| items := <[auto_increment s :=
                             {| col_inventory_name := name;
                                col_description := desc;
                                col_photo := ref |}]> (items s);
                 auto_increment := auto_increment s + 1;
                 disk := disk s; log := log s |})).
Proof.
  unfold INSERT. destruct (items s !! auto_increment s); [left|right]; eauto.
Qed.

Lemma persistent_no_orphan_register r o s :
  no_orphan s ->
  (req_file r = None \/ success (fst (run (post_register r) o s))) ->
  no_orphan (snd (run (post_register r) o s)).
Proof.
  intros Ho. unfold_handler. unfold success.
  destruct (req_file r) as [f|] eqn:Hf; cbn.
  - destruct (negb _ || _); cbn; [intros [|]; [done|lia]|].
    next_query; [intros [|]; [done|lia]|].
    match goal with |- context [INSERT ?a ?b ?c ?s] =>
      destruct (persistent_INSERT_cases a b c s) as [[? Hi]|[Hfree Hi]];
      rewrite Hi; clear Hi; cbn end; [intros [|]; [done|lia]|].
    intros _ p Hp. unfold store_blob in *. cbn in *.
    apply elem_of_union in Hp as [->%elem_of_singleton|Hold].
    + eexists _, _. split; [apply lookup_insert_eq|done].
    + destruct (Ho p Hold) as (i & row0 & Hi & Hx). exists i, row0. split; [|done].
      rewrite lookup_insert_ne; [done|]. intros <-. congruence.
  - destruct (negb _ || _); cbn; [done|].
    next_query; [done|].
    match goal with |- context [INSERT ?a ?b ?c ?s] =>
      destruct (persistent_INSERT_cases a b c s) as [[? Hi]|[Hfree Hi]];
      rewrite Hi; clear Hi; cbn end; [done|].
    intros _ p Hp. cbn in *.
    destruct (Ho p Hp) as (i & row0 & Hi & Hx). exists i, row0. split; [|done].
    rewrite lookup_insert_ne; [done|]. intros <-. congruence.
Qed.

Lemma persistent_no_orphan_UPDATE fields n s :
  no_orphan s -> no_orphan (snd (UPDATE fields n s)).
Proof.
  intros Ho. unfold UPDATE. destruct n as [|k|]; cbn; [done| |done].
  intros p Hp. cbn in *. destruct (Ho p Hp) as (i & x & Hi & Hx).
  destruct (decide (k = i)) as [->|Hne].
  - eexists i, _. split.
    + apply lookup_alter_Some. left. eauto.
    + by rewrite persistent_assign_photo.
  - exists i, x. by rewrite lookup_alter_ne.
Qed.

Lemma persistent_no_orphan_put_item n r o s :
  no_orphan s -> no_orphan (snd (run (put_item n r) o s)).
Proof.
  intros Ho. unfold_handler.
  next_query; [done|]. next_select; [done|].
  set (fields := _ ++ _). clearbody fields.
  match goal with |- context [if ?b then pool_query _ else _] => destruct b end;
    cbn.
  - next_query; [done|].
    pose proof (persistent_no_orphan_UPDATE fields n s Ho) as Ho2.
    unfold UPDATE in *. cbn in *. next_query; [done|].
    next_select; done.
  - next_query; [done|]. next_select; done.
Qed.

(** What is on disk after the old file was removed was there before, and
    is not the old file. *)
Lemma persistent_remove_if_exists_disk ref s p :
  p ∈ disk (remove_if_exists ref s) ->
  p ∈ disk s /\ (ref = Some p -> truthy p = false).
Proof.
  intros Hp. unfold remove_if_exists in Hp.
  destruct ref as [q|]; [|done].
  destruct (truthy q && _) eqn:Hg; cbn in Hp.
  - unfold remove_blob in Hp. cbn in Hp.
    apply elem_of_difference in Hp as [? Hne]. split; [done|].
    intros [= ->]. destruct Hne. by apply elem_of_singleton.
  - split; [done|]. intros [= ->].
    apply andb_false_iff in Hg as [Hg|Hg]; [done|].
    by apply bool_decide_eq_false in Hg.
Qed.

Lemma persistent_no_orphan_delete_item n o s :
  consistent s -> no_orphan s -> no_orphan (snd (run (delete_item n) o s)).
Proof.
  intros (Hd & He & Ht) Ho. unfold_handler.
  next_query; [done|]. next_select as k old; [done|]. subst n.
  next_query; [done|]. unfold DELETE_FROM. rewrite Hrow. cbn.
  intros p [Hp Hne]%persistent_remove_if_exists_disk. cbn in Hp.
  destruct (Ho p Hp) as (i & row0 & Hi & Hx).
  assert (remove_if_exists_items : forall ref s0,
            items (remove_if_exists ref s0) = items s0).
  { intros [q|] s0; cbn; [|done]. unfold remove_if_exists.
    by destruct (truthy q && _). }
  rewrite remove_if_exists_items. cbn.
  exists i, row0. split; [|done]. apply lookup_delete_Some. split; [|done].
  intros <-. simplify_eq. rewrite (Ht _ _ _ Hrow Hx) in Hne. by specialize (Hne Hx).
Qed.

Lemma persistent_no_orphan_put_photo n r o s :
  consistent s -> fresh_upload r s -> no_orphan s ->
  (req_file r = None \/ success (fst (run (put_photo n r) o s))) ->
  no_orphan (snd (run (put_photo n r) o s)).
Proof.
  intros (Hd & He & Ht) Hfresh Ho. unfold_handler. unfold success.
  destruct (req_file r) as [f|] eqn:Hf; cbn; [|done].
  next_query; [intros [|]; [done|lia]|]. next_select as k old.
  { intros [|]; [done|lia]. }
  subst n. next_query; [intros [|]; [done|lia]|].
  unfold UPDATE_photo. unfold store_blob at 1 2. cbn. rewrite Hrow. cbn.
  next_query; [intros [|]; [done|lia]|]. intros _.
  match goal with |- no_orphan (snd ?x) =>
    match x with context [SELECT ?n ?s] =>
      assert (Hs : snd x = s)
        by (destruct (SELECT n s) as [[[]|] ?] eqn:Hsel;
            unfold SELECT in Hsel; by simplify_eq);
      rewrite Hs; clear Hs end end.
  intros p [Hp Hne]%persistent_remove_if_exists_disk. cbn in Hp.
  assert (remove_if_exists_items : forall ref s0,
            items (remove_if_exists ref s0) = items s0).
  { intros [q|] s0; cbn; [|done]. unfold remove_if_exists.
    by destruct (truthy q && _). }
  rewrite remove_if_exists_items. cbn.
  unfold store_blob in Hp. cbn in Hp.
  apply elem_of_union in Hp as [->%elem_of_singleton|Hold].
  - eexists k, _. split; [apply lookup_insert_eq|done].
  - destruct (Ho p Hold) as (i & row0 & Hi & Hx).
    exists i, row0. split; [|done]. rewrite lookup_insert_ne; [done|].
    intros <-. unfold store_blob in Hrow. cbn in Hrow. simplify_eq.
    rewrite (Ht _ _ _ Hrow Hx) in Hne. by specialize (Hne Hx).
Qed.

(** A request that succeeds, or that uploads nothing, leaves no file
    without an owner. *)
Lemma persistent_no_orphan_app r o s :
  consistent s -> fresh_upload r s -> no_orphan s ->
  (req_file r = None \/ success (fst (app r o s))) ->
  no_orphan (snd (app r o s)).
Proof.
  intros Hc Hfresh Ho. unfold app. refused_or_routed. unfold routes.
  destruct (req_route r), (req_method r); try done;
    auto using persistent_no_orphan_register, persistent_no_orphan_put_item,
      persistent_no_orphan_delete_item, persistent_no_orphan_put_photo.
  all: intros _; unfold_handler; try (destruct (isNaN _); cbn; [done|]);
    next_query; try done; try next_select; try done.
  all: repeat case_match; by simplify_eq/=.
Qed.

(** ** The handlers when every query runs *)

Ltac healthy_query :=
  match goal with
  | Ho : healthy ?o |- context [pool_query ?q ?o ?s] =>
      let o' := fresh "o" in
      let Ho' := fresh "Ho" in
      let Hq := fresh "Hq" in
      destruct (persistent_pool_query_healthy q o s Ho) as (o' & Ho' & Hq);
      rewrite Hq; clear Hq Ho; cbn
  end.

Lemma persistent_find_Some n s d :
  find n s = Some d ->
  exists i r, n = Int i /\ items s !! i = Some r /\ d = as_device i r.
Proof.
  unfold find. destruct n as [|i|]; [done| |done].
  destruct (items s !! i) as [r|] eqn:Hi; [|done]. intros [= <-]. eauto.
Qed.

Lemma persistent_register_blank r o s :
  blank (body_inventory_name r) ->
  run (post_register r) o s
  = (end_ 400 ("The " +:+ dq +:+ "inventory_name" +:+ dq +:+ " field is required"),
     match req_file r with
     | Some f => store_blob (file_path f) s
     | None => s
     end).
Proof.
  intros Hb%name_rejected_iff_blank. unfold_handler.
  destruct (req_file r); cbn; by rewrite Hb.
Qed.

(** A registration answers 201 only after the row is inserted under the
    id it reports. *)
Lemma persistent_register_created r o s :
  status (fst (run (post_register r) o s)) = 201 ->
  let i := auto_increment s in
  let ref := file_path <$> req_file r in
  fst (run (post_register r) o s)
  = json_ 201
      (JObj ([ ("id", JNum i);
               ("inventory_name", JStr (default "" (body_inventory_name r))) ]
             ++ match body_description r with
                | Some d => [("description", JStr d)]
                | None => []
                end
             ++ [ ("photo_url",
                   if truthy_opt ref then JStr (photo_url_of i) else JNull) ]))
  /\ find (Int i) (snd (run (post_register r) o s))
     = Some {| id := i;
               inventory_name := default "" (body_inventory_name r);
               description := if truthy_opt (body_description r)
                              then default "" (body_description r) else "";
               photo := ref |}.
Proof.
  unfold_handler.
  destruct (req_file r) as [f|] eqn:Hf; cbn.
  all: destruct (negb _ || _); cbn; [done|].
  all: next_query; [done|].
  all: match goal with |- context [INSERT ?a ?b ?c ?s] =>
      destruct (persistent_INSERT_cases a b c s) as [[? Hi]|[Hfree Hi]];
      rewrite Hi; clear Hi; cbn end; [done|].
  all: intros _; split; [done|]; by rewrite lookup_insert_eq.
Qed.

Lemma persistent_register_healthy r o s :
  healthy o -> ~ blank (body_inventory_name r) ->
  items s !! auto_increment s = None ->
  status (fst (run (post_register r) o s)) = 201.
Proof.
  intros Ho Hb Hfree. unfold_handler.
  destruct (req_file r) as [f|] eqn:Hf; cbn.
  all: destruct (negb _ || _) eqn:Hg; cbn;
    [by apply name_rejected_iff_blank in Hg|].
  all: healthy_query; unfold INSERT; cbn.
  all: unfold store_blob; cbn; by rewrite Hfree.
Qed.

Lemma persistent_get_item_healthy n o s :
  healthy o ->
  run (get_item n) o s
  = (match find n s with
     | None => end_ 404 "No item with such ID"
     | Some d => json_ 200 (JObj (device_json d ++ [("photo_url", photo_url d)]))
     end, s).
Proof.
  intros Ho. unfold_handler. healthy_query. unfold SELECT.
  by destruct (find n s).
Qed.

Lemma persistent_get_photo_absent n o s :
  healthy o -> find n s = None ->
  run (get_photo n) o s = (end_ 404 "Item not found", s).
Proof.
  intros Ho Hf. unfold_handler. healthy_query. unfold SELECT. by rewrite Hf.
Qed.

Lemma persistent_search_healthy r o s :
  healthy o ->
  run (post_search r) o s
  = (if isNaN (body_id r) then end_ 400 "Invalid ID"
     else match find (body_id r) s with
          | None => end_ 404 "Item not found"
          | Some d =>
              json_ 201
                (JObj [ ("id", JNum (id d));
                        ("inventory_name", JStr (inventory_name d));
                        ("description", JStr (description d));
                        ("photo_url", photo_url d) ])
          end, s).
Proof.
  intros Ho. unfold_handler. destruct (isNaN _); cbn; [done|].
  healthy_query. unfold SELECT. by destruct (find _ s).
Qed.

Lemma persistent_search_NaN r o s :
  body_id r = NaN ->
  run (post_search r) o s = (end_ 400 "Invalid ID", s).
Proof. intros Hn. unfold_handler. by rewrite Hn. Qed.

Lemma persistent_put_item_absent n r o s :
  healthy o -> find n s = None ->
  run (put_item n r) o s = (end_ 404 "No item with such ID", s).
Proof.
  intros Ho Hf. unfold_handler. healthy_query. unfold SELECT. by rewrite Hf.
Qed.

Lemma persistent_put_item_present i row r o s :
  healthy o -> items s !! i = Some row ->
  let row' :=
    {| col_inventory_name :=
         if truthy_opt (body_inventory_name r)
         then default "" (body_inventory_name r) else col_inventory_name row;
       col_description :=
         if truthy_opt (body_description r)
         then default "" (body_description r) else col_description row;
       col_photo := col_photo row |} in
  run (put_item (Int i) r) o s
  = (json_ 200 (JObj (device_json (as_device i row'))),
     set_items (<[i := row']> (items s)) s).
Proof.
  intros Ho Hi. unfold_handler. healthy_query. unfold SELECT, find.
  rewrite Hi. cbn.
  destruct (truthy_opt (body_inventory_name r)),
    (truthy_opt (body_description r)); cbn.
  all: repeat healthy_query; unfold UPDATE; cbn.
  all: rewrite ?lookup_alter_eq, Hi; cbn.
  all: f_equal; unfold set_items; destruct s; cbn in *; f_equal.
  all: try (apply map_eq; intros j; destruct (decide (i = j)) as [->|];
    [by rewrite lookup_alter_eq, lookup_insert_eq, Hi
    |by rewrite lookup_alter_ne, lookup_insert_ne]).
  rewrite insert_id; [done|]. by destruct row.
Qed.

Lemma persistent_delete_absent n o s :
  healthy o -> find n s = None ->
  run (delete_item n) o s = (end_ 404 "Item not found", s).
Proof.
  intros Ho Hf. unfold_handler. healthy_query. unfold SELECT. by rewrite Hf.
Qed.

Lemma persistent_delete_present i row o s :
  healthy o -> items s !! i = Some row ->
  run (delete_item (Int i)) o s
  = (json_ 200 (JObj [("message", JStr ("Item " +:+ pretty i +:+ " deleted"))]),
     remove_if_exists (col_photo row)
       (emit (RecordDeleted i) (set_items (delete i (items s)) s))).
Proof.
  intros Ho Hi. unfold_handler. healthy_query. unfold SELECT, find.
  rewrite Hi. cbn. healthy_query. unfold DELETE_FROM. by rewrite Hi.
Qed.

Lemma persistent_put_photo_no_file n r o s :
  req_file r = None ->
  run (put_photo n r) o s = (end_ 400 "Photo file not sent", s).
Proof. intros Hf. unfold_handler. by rewrite Hf. Qed.

Lemma persistent_put_photo_absent n r f o s :
  healthy o -> req_file r = Some f -> find n s = None ->
  run (put_photo n r) o s
  = (end_ 404 "Item not found",
     remove_blob (file_path f) (store_blob (file_path f) s)).
Proof.
  intros Ho Hf Hn. unfold_handler. rewrite Hf. cbn. healthy_query.
  unfold SELECT. assert (find n (store_blob (file_path f) s) = None) as -> by done.
  done.
Qed.

Lemma persistent_put_photo_success n r o s :
  status (fst (run (put_photo n r) o s)) = 200 ->
  exists f i row,
    req_file r = Some f /\ n = Int i /\ items s !! i = Some row
    /\ run (put_photo n r) o s
       = (json_ 200
            (JObj (device_json
                     {| id := i; inventory_name := col_inventory_name row;
                        description := col_description row;
                        photo := Some (file_path f) |})),
          photo_replaced i row (file_path f) s).
Proof.
  unfold_handler. destruct (req_file r) as [f|] eqn:Hf; cbn; [|done].
  next_query; [done|]. next_select as i row; [done|]. subst n.
  next_query; [done|]. unfold UPDATE_photo.
  assert (Hi : items s !! i = Some row) by done.
  assert (items (store_blob (file_path f) s) !! i = Some row) as -> by done.
  cbn. next_query; [done|]. unfold SELECT, find.
  assert (Hitems : forall ref s0, items (remove_if_exists ref s0) = items s0).
  { intros [q|] s0; cbn; [|done]. unfold remove_if_exists.
    by destruct (truthy q && _). }
  rewrite Hitems. cbn. rewrite lookup_insert_eq. cbn. intros _.
  exists f, i, row. split_and!; done.
Qed.

Lemma persistent_put_photo_healthy i row r f o s :
  healthy o -> req_file r = Some f -> items s !! i = Some row ->
  status (fst (run (put_photo (Int i) r) o s)) = 200.
Proof.
  intros Ho Hf Hi. unfold_handler. rewrite Hf. cbn.
  healthy_query. unfold SELECT, find.
  assert (items (store_blob (file_path f) s) !! i = Some row) as -> by done.
  cbn. healthy_query. unfold UPDATE_photo.
  assert (items (store_blob (file_path f) s) !! i = Some row) as -> by done.
  cbn. healthy_query. unfold SELECT, find.
  assert (Hitems : forall ref s0, items (remove_if_exists ref s0) = items s0).
  { intros [q|] s0; cbn; [|done]. unfold remove_if_exists.
    by destruct (truthy q && _). }
  rewrite Hitems. cbn. by rewrite lookup_insert_eq.
Qed.

(** ** Properties kept by every storage step *)

(** A property of the state that the file system calls and the queries
    keep is kept by every request, whichever queries fail. *)
Lemma persistent_app_preserves (P : state -> Prop) :
  (forall p s, P s -> P (store_blob p s)) ->
  (forall p s, P s -> P (remove_blob p s)) ->
  (forall name desc ref s, P s -> P (snd (INSERT name desc ref s))) ->
  (forall fields n s, P s -> P (snd (UPDATE fields n s))) ->
  (forall p n s, P s -> P (snd (UPDATE_photo p n s))) ->
  (forall n s, P s -> P (snd (DELETE_FROM n s))) ->
  forall r o s, P s -> P (snd (app r o s)).
Proof.
  intros Hstore Hremove Hinsert Hupdate Hphoto Hdelete r o s HP.
  assert (Hunlink : forall ref s0, P s0 -> P (remove_if_exists ref s0)).
  { intros [q|] s0 HP0; unfold remove_if_exists; [|done].
    destruct (truthy q && _); auto. }
  unfold app. refused_or_routed. unfold routes.
  destruct (req_route r) as [| |n|n| |], (req_method r); try done.
  all: unfold_handler.
  - (* POST /register *)
    assert (HP1 : P (match req_file r with
                     | Some f => store_blob (file_path f) s | None => s end))
      by (destruct (req_file r); auto).
    destruct (req_file r) as [f|]; cbn.
    all: destruct (negb _ || _); cbn; [done|].
    all: next_query; [done|].
    all: match goal with |- context [INSERT ?a ?b ?c ?s0] =>
           pose proof (Hinsert a b c s0 HP1);
           by destruct (INSERT a b c s0) as [[] ?] end.
  - next_query; [done|]. unfold SELECT_all. done.
  - next_query; [done|]. unfold SELECT_all. done.
  - next_query; [done|]. next_select; done.
  - next_query; [done|]. next_select; done.
  - (* PUT /inventory/:id *)
    next_query; [done|]. next_select; [done|].
    set (fields := _ ++ _). clearbody fields.
    match goal with |- context [if ?b then pool_query _ else _] => destruct b end;
      cbn.
    + next_query; [done|].
      pose proof (Hupdate fields n s HP) as HP2.
      unfold UPDATE in *. cbn in *. next_query; [done|]. next_select; done.
    + next_query; [done|]. next_select; done.
  - (* DELETE /inventory/:id *)
    next_query; [done|]. next_select as i row; [done|]. subst n.
    next_query; [done|].
    pose proof (Hdelete (Int i) s HP) as HP2.
    destruct (DELETE_FROM (Int i) s) as [[[]|?] s2]; cbn in *; auto.
  - next_query; [done|]. next_select; [done|]. by destruct (negb _ || _).
  - next_query; [done|]. next_select; [done|]. by destruct (negb _ || _).
  - (* PUT /inventory/:id/photo *)
    destruct (req_file r) as [f|]; cbn; [|done].
    pose proof (Hstore (file_path f) s HP) as HP1.
    next_query; [done|]. next_select as i row; [by apply Hremove|]. subst n.
    next_query; [done|].
    pose proof (Hphoto (file_path f) (Int i) _ HP1) as HP2.
    destruct (UPDATE_photo _ _ _) as [[[]|?] s2]; cbn in *; [|done].
    pose proof (Hunlink (col_photo row) s2 HP2) as HP3.
    next_query; [done|].
    match goal with |- context [SELECT ?n ?s0] =>
      by destruct (SELECT n s0) as [[[]|] ?] eqn:Hsel;
        unfold SELECT in Hsel; simplify_eq end.
  - (* POST /search *)
    destruct (isNaN _); cbn; [done|].
    next_query; [done|]. next_select; done.
Qed.

Lemma persistent_keys_below_app r o s :
  keys_below s -> keys_below (snd (app r o s)).
Proof.
  apply persistent_app_preserves; clear; unfold keys_below.
  - done.
  - done.
  - intros name desc ref s Hs. unfold INSERT.
    destruct (items s !! auto_increment s); [done|]. cbn.
    intros k x [[<- _]|[_ Hk]]%lookup_insert_Some; [lia|].
    apply Hs in Hk. lia.
  - intros fields [|i|] s Hs; unfold UPDATE; cbn; [done| |done].
    intros k x [(<- & x0 & Hk & _)|[_ Hk]]%lookup_alter_Some; eauto.
  - intros p [|i|] s Hs; unfold UPDATE_photo; cbn; [done| |done].
    destruct (items s !! i) eqn:Hi; [|done]. cbn.
    intros k x [[<- _]|[_ Hk]]%lookup_insert_Some; eauto.
  - intros [|i|] s Hs; unfold DELETE_FROM; cbn; [done| |done].
    destruct (items s !! i) eqn:Hi; [|done]. cbn.
    intros k x [_ Hk]%lookup_delete_Some. eauto.
Qed.

(** A key that was retired stays retired, whatever is served next. *)
Lemma persistent_retired_app i r o s :
  retired i s -> retired i (snd (app r o s)).
Proof.
  apply persistent_app_preserves; clear r o s; unfold retired.
  - done.
  - done.
  - intros name desc ref s [Hlt Hno]. unfold INSERT.
    destruct (items s !! auto_increment s); [done|]. cbn.
    split; [lia|]. rewrite lookup_insert_ne; [done|lia].
  - intros fields [|k|] s [Hlt Hno]; unfold UPDATE; cbn; [done| |done].
    split; [done|]. destruct (decide (k = i)) as [->|].
    + by rewrite lookup_alter_eq, Hno.
    + by rewrite lookup_alter_ne.
  - intros p [|k|] s [Hlt Hno]; unfold UPDATE_photo; cbn; [done| |done].
    destruct (items s !! k) eqn:Hk; [|done]. cbn.
    split; [done|]. rewrite lookup_insert_ne; [done|]. intros ->. congruence.
  - intros [|k|] s [Hlt Hno]; unfold DELETE_FROM; cbn; [done| |done].
    destruct (items s !! k) eqn:Hk; [|done]. cbn.
    split; [done|]. rewrite lookup_delete_ne; [done|]. intros ->. congruence.
Qed.

Lemma persistent_retired_steps i s s' : steps s s' -> retired i s -> retired i s'.
Proof. induction 1; auto using persistent_retired_app. Qed.

Lemma persistent_init_consistent (files : gset string) :
  consistent (init files).
Proof.
  split_and!; intros i; cbn.
  - by intros r p [_ <-]%lookup_singleton_Some.
  - by intros j r r' p [_ <-]%lookup_singleton_Some.
  - by intros r p [_ <-]%lookup_singleton_Some.
Qed.

Lemma persistent_reachable_invariant s :
  reachable s -> keys_below s /\ consistent s.
Proof.
  induction 1 as [files|r o s _ [IHk IHc] Hfresh].
  - split; [|apply persistent_init_consistent].
    intros k x. cbn. intros [<- _]%lookup_singleton_Some. done.
  - split; [by apply persistent_keys_below_app|by apply persistent_consistent_app].
Qed.

(** ** The handlers when a query rejects *)

Lemma persistent_first_query_rejected n r msg o s :
  run (get_item n) (Some msg :: o) s = (server_error msg, s)
  /\ run (put_item n r) (Some msg :: o) s = (server_error msg, s)
  /\ run (delete_item n) (Some msg :: o) s = (server_error msg, s)
  /\ run (get_photo n) (Some msg :: o) s
     = ({| status := 500; headers := []; payload := NoBody |}, s)
  /\ run get_inventory (Some msg :: o) s = (server_error "Database error", s)
  /\ (body_id r <> NaN ->
      run (post_search r) (Some msg :: o) s = (server_error msg, s))
  /\ (is_Some (req_file r) ->
      run (put_photo n r) (Some msg :: o) s
      = (server_error msg,
         match req_file r with
         | Some f => store_blob (file_path f) s
         | None => s
         end))
  /\ (~ blank (body_inventory_name r) ->
      run (post_register r) (Some msg :: o) s
      = (server_error "Database error",
         match req_file r with
         | Some f => store_blob (file_path f) s
         | None => s
         end)).
Proof.
  split_and!; try done.
  - intros Hn. unfold_handler. by destruct (body_id r).
  - intros [f Hf]. unfold_handler. by rewrite Hf.
  - intros Hb. unfold_handler.
    destruct (negb _ || _) eqn:Hg; [by apply name_rejected_iff_blank in Hg|].
    by destruct (req_file r).
Qed.

Lemma persistent_write_rejected i row r msg o s :
  items s !! i = Some row ->
  (truthy_opt (body_inventory_name r) || truthy_opt (body_description r) = true ->
   run (put_item (Int i) r) (None :: Some msg :: o) s = (server_error msg, s))
  /\ run (delete_item (Int i)) (None :: Some msg :: o) s = (server_error msg, s)
  /\ (is_Some (req_file r) ->
      run (put_photo (Int i) r) (None :: Some msg :: o) s
      = (server_error msg,
         match req_file r with
         | Some f => store_blob (file_path f) s
         | None => s
         end)).
Proof.
  intros Hi. split_and!.
  - intros Ht. unfold_handler. cbn. unfold SELECT, find. rewrite Hi. cbn.
    by destruct (truthy_opt (body_inventory_name r)),
      (truthy_opt (body_description r)).
  - unfold_handler. cbn. unfold SELECT, find. by rewrite Hi.
  - intros [f Hf]. unfold_handler. rewrite Hf. cbn. unfold SELECT, find.
    by assert (items (store_blob (file_path f) s) !! i = Some row) as -> by done.
Qed.

(** ** The outcomes of each handler, whichever queries reject *)

Lemma persistent_pool_query_outcomes {A} (q : state -> outcome A * state) o s :
  (exists msg o', Some msg ∈ o /\ o' `suffix_of` o
                  /\ pool_query q o s = (Rejected msg, o', s))
  \/ (exists o', o' `suffix_of` o
                 /\ pool_query q o s = (fst (q s), o', snd (q s))).
Proof.
  destruct o as [|[msg|] o']; simpl.
  - right. exists []. split; [done|]. by destruct (q s).
  - left. exists msg, o'. split_and!; [by left|by apply suffix_cons_r|done].
  - right. exists o'. split; [by apply suffix_cons_r|]. by destruct (q s).
Qed.

(** Case analysis on the next query, keeping track of where a rejection
    message comes from. *)
Ltac next_outcome :=
  match goal with
  | |- context [pool_query ?q ?o ?s] =>
      let Hq := fresh "Hq" in
      let Hin := fresh "Hin" in
      let Hsuf := fresh "Hsuf" in
      destruct (persistent_pool_query_outcomes q o s)
        as [(? & ? & Hin & Hsuf & Hq)|(? & Hsuf & Hq)]; rewrite Hq; clear Hq; cbn
  end.

Ltac from_oracle :=
  repeat first [eassumption | eapply elem_of_suffix; [|eassumption]].

(** Case analysis on the row a [SELECT ... WHERE id = ?] finds. *)
Ltac next_find :=
  match goal with
  | |- context [SELECT ?n ?s] =>
      let Hfind := fresh "Hfind" in
      change (SELECT n s) with (Resolved (option_list (find n s)), s);
      cbn [fst snd]; destruct (find n s) eqn:Hfind; cbn
  end.

(** The same, when the row is known. *)
Ltac next_found H :=
  match goal with
  | |- context [SELECT ?n ?s] =>
      change (SELECT n s) with (Resolved (option_list (find n s)), s);
      cbn [fst snd]; rewrite H; cbn
  end.

(** The response and final state of a handler, named before the handler is
    unfolded. *)
Ltac outcomes_of m :=
  match goal with
  | |- context [run m ?o ?s] =>
      let res := fresh "res" in
      let Hres := fresh "Hres" in
      remember (run m o s) as res eqn:Hres; revert Hres; unfold_handler
  end.

Lemma persistent_get_item_outcomes n o s :
  (exists msg, Some msg ∈ o /\ run (get_item n) o s = (server_error msg, s))
  \/ run (get_item n) o s
     = (match find n s with
        | None => end_ 404 "No item with such ID"
        | Some d => json_ 200 (JObj (device_json d ++ [("photo_url", photo_url d)]))
        end, s).
Proof.
  outcomes_of (get_item n). next_outcome; [intros ->; left; eauto|].
  next_find; intros ->; by right.
Qed.

Lemma persistent_get_photo_outcomes n o s :
  (exists msg, Some msg ∈ o
     /\ run (get_photo n) o s
        = ({| status := 500; headers := []; payload := NoBody |}, s))
  \/ run (get_photo n) o s
     = (match find n s with
        | None => end_ 404 "Item not found"
        | Some d =>
            if negb (truthy_opt (photo d))
               || negb (bool_decide (default "" (photo d) ∈ disk s))
            then end_ 404 "Photo not found"
            else {| status := 200; headers := [("Content-Type", "image/jpeg")];
                    payload := SendFile (default "" (photo d)) |}
        end, s).
Proof.
  outcomes_of (get_photo n). next_outcome; [intros ->; left; eauto|].
  next_find; [|intros ->; by right].
  destruct (negb _ || _); intros ->; by right.
Qed.

Lemma persistent_search_outcomes r o s :
  (exists msg, Some msg ∈ o /\ run (post_search r) o s = (server_error msg, s))
  \/ run (post_search r) o s
     = (if isNaN (body_id r) then end_ 400 "Invalid ID"
        else match find (body_id r) s with
             | None => end_ 404 "Item not found"
             | Some d =>
                 json_ 201
                   (JObj [ ("id", JNum (id d));
                           ("inventory_name", JStr (inventory_name d));
                           ("description", JStr (description d));
                           ("photo_url", photo_url d) ])
             end, s).
Proof.
  outcomes_of (post_search r). destruct (isNaN _); cbn; [intros ->; by right|].
  next_outcome; [intros ->; left; eauto|].
  next_find; intros ->; by right.
Qed.

Lemma persistent_get_inventory_outcomes o s :
  ((exists msg, Some msg ∈ o)
   /\ run get_inventory o s = (server_error "Database error", s))
  \/ exists rows,
       rows ≡ₚ (fun kv => as_device (fst kv) (snd kv)) <$> map_to_list (items s)
       /\ run get_inventory o s
          = (json_ 200
               (JArr ((fun d => JObj [ ("id", JNum (id d));
                                       ("inventory_name", JStr (inventory_name d));
                                       ("description", JStr (description d));
                                       ("photo_url", photo_url d) ]) <$> rows)), s).
Proof.
  outcomes_of get_inventory. next_outcome; [intros ->; left; eauto|].
  intros ->. right. unfold SELECT_all. cbn. eexists. split; [|done].
  by rewrite merge_sort_Permutation.
Qed.

Lemma persistent_put_item_outcomes n r o s :
  (exists msg, Some msg ∈ o /\ run (put_item n r) o s = (server_error msg, s))
  \/ (find n s = None
      /\ run (put_item n r) o s = (end_ 404 "No item with such ID", s))
  \/ (exists i row,
        n = Int i /\ items s !! i = Some row
        /\ ((exists msg, Some msg ∈ o
               /\ run (put_item n r) o s
                  = (server_error msg,
                     set_items (<[i := update_row r row]> (items s)) s))
            \/ run (put_item n r) o s
               = (json_ 200 (JObj (device_json (as_device i (update_row r row)))),
                  set_items (<[i := update_row r row]> (items s)) s))).
Proof.
  outcomes_of (put_item n r).
  next_outcome; [intros ->; left; eexists; split; [from_oracle|done]|].
  next_find; [|intros ->; right; left; done].
  apply persistent_find_Some in Hfind as (i & row & -> & Hi & ->).
  assert (Hupd : forall fields,
            foldl assign row fields = update_row r row ->
            snd (UPDATE fields (Int i) s)
            = set_items (<[i := update_row r row]> (items s)) s).
  { intros fields Hf. unfold UPDATE, set_items. cbn. f_equal. apply map_eq.
    intros j. destruct (decide (i = j)) as [<-|];
      [|by rewrite lookup_alter_ne, lookup_insert_ne].
    by rewrite lookup_alter_eq, lookup_insert_eq, Hi, <- Hf. }
  assert (Hsame : truthy_opt (body_inventory_name r) = false ->
                  truthy_opt (body_description r) = false ->
                  set_items (<[i := update_row r row]> (items s)) s = s).
  { intros Hn Hd. unfold set_items, update_row, partial_update.
    rewrite Hn, Hd. rewrite insert_id; [by destruct s|]. by destruct row. }
  assert (Hlook : find (Int i)
            (set_items (<[i := update_row r row]> (items s)) s)
          = Some (as_device i (update_row r row))).
  { unfold find. cbn. by rewrite lookup_insert_eq. }
  destruct (truthy_opt (body_inventory_name r)) eqn:Hn,
    (truthy_opt (body_description r)) eqn:Hd; cbn.
  4:{ rewrite <- (Hsame eq_refl eq_refl) at 1 2.
      next_outcome; [|next_found Hlook]; intros ->; right; right;
        exists i, row; (split_and!; [done..|]); [left|right; done].
      eexists. split; [from_oracle|done]. }
  all: next_outcome; [intros ->; left; eexists; split; [from_oracle|done]|].
  all: rewrite (Hupd _);
    [|unfold update_row, partial_update; rewrite Hn, Hd; by destruct row].
  all: next_outcome; [|next_found Hlook]; intros ->; right; right;
    exists i, row; (split_and!; [done..|]); [left|right; done].
  all: eexists; split; [from_oracle|done].
Qed.

Lemma persistent_items_remove_if_exists ref s :
  items (remove_if_exists ref s) = items s.
Proof.
  destruct ref as [q|]; [|done]. unfold remove_if_exists.
  by destruct (truthy q && _).
Qed.

Lemma persistent_delete_outcomes n o s :
  (exists msg, Some msg ∈ o /\ run (delete_item n) o s = (server_error msg, s))
  \/ (find n s = None
      /\ run (delete_item n) o s = (end_ 404 "Item not found", s))
  \/ (exists i row,
        n = Int i /\ items s !! i = Some row
        /\ run (delete_item n) o s
           = (json_ 200
                (JObj [("message", JStr ("Item " +:+ pretty i +:+ " deleted"))]),
              remove_if_exists (col_photo row)
                (emit (RecordDeleted i) (set_items (delete i (items s)) s)))).
Proof.
  outcomes_of (delete_item n).
  next_outcome; [intros ->; left; eexists; split; [from_oracle|done]|].
  next_find; [|intros ->; right; left; done].
  apply persistent_find_Some in Hfind as (i & row & -> & Hi & ->).
  next_outcome; [intros ->; left; eexists; split; [from_oracle|done]|].
  intros ->. right; right. exists i, row. split_and!; [done..|].
  unfold DELETE_FROM. by rewrite Hi.
Qed.

Lemma persistent_put_photo_outcomes n r f o s :
  req_file r = Some f ->
  (exists msg, Some msg ∈ o
     /\ run (put_photo n r) o s = (server_error msg, store_blob (file_path f) s))
  \/ (find n s = None
      /\ run (put_photo n r) o s
         = (end_ 404 "Item not found",
            remove_blob (file_path f) (store_blob (file_path f) s)))
  \/ (exists i row,
        n = Int i /\ items s !! i = Some row
        /\ ((exists msg, Some msg ∈ o
               /\ run (put_photo n r) o s
                  = (server_error msg, photo_replaced i row (file_path f) s))
            \/ run (put_photo n r) o s
               = (json_ 200
                    (JObj (device_json
                             {| id := i; inventory_name := col_inventory_name row;
                                description := col_description row;
                                photo := Some (file_path f) |})),
                  photo_replaced i row (file_path f) s))).
Proof.
  intros Hf. outcomes_of (put_photo n r). rewrite Hf. cbn.
  next_outcome; [intros ->; left; eexists; split; [from_oracle|done]|].
  change (find n (store_blob (file_path f) s)) with (find n s).
  next_find; [|intros ->; right; left; done].
  apply persistent_find_Some in Hfind as (i & row & -> & Hi & ->).
  next_outcome; [intros ->; left; eexists; split; [from_oracle|done]|].
  unfold UPDATE_photo.
  assert (items (store_blob (file_path f) s) !! i = Some row) as -> by done.
  cbn [fst snd photo as_device].
  match goal with |- context [remove_if_exists ?ref ?s0] =>
    change (remove_if_exists ref s0) with (photo_replaced i row (file_path f) s)
  end.
  assert (Hlook : find (Int i) (photo_replaced i row (file_path f) s)
                  = Some {| id := i; inventory_name := col_inventory_name row;
                            description := col_description row;
                            photo := Some (file_path f) |}).
  { unfold find, photo_replaced. rewrite persistent_items_remove_if_exists.
    cbn. by rewrite lookup_insert_eq. }
  next_outcome; [|next_found Hlook]; intros ->; right; right;
    exists i, row; (split_and!; [done..|]); [left|right; done].
  eexists; split; [from_oracle|done].
Qed.

Lemma persistent_INSERT_outcomes name desc ref s :
  (is_Some (items s !! auto_increment s)
   /\ INSERT name desc ref s = (Rejected "Duplicate entry", s))
  \/ (items s !! auto_increment s = None
      /\ INSERT name desc ref s
         = (Resolved (auto_increment s),
            emit (RecordCreated (auto_increment s) ref)
              {| items := <[auto_increment s :=
                             {| col_inventory_name := name;
                                col_description := desc;
                                col_photo := ref |}]> (items s);
                 auto_increment := auto_increment s + 1;
                 disk := disk s; log := log s |})).
Proof.
  unfold INSERT. destruct (items s !! auto_increment s); [left|right]; eauto.
Qed.

Lemma persistent_register_outcomes r o s :
  let s1 := match req_file r with
            | Some f => store_blob (file_path f) s
            | None => s
            end in
  let ref := file_path <$> req_file r in
  let i := auto_increment s in
  (blank (body_inventory_name r)
   /\ run (post_register r) o s
      = (end_ 400 ("The " +:+ dq +:+ "inventory_name" +:+ dq +:+ " field is required"),
         s1))
  \/ (~ blank (body_inventory_name r)
      /\ ((exists msg, Some msg ∈ o) \/ is_Some (items s !! i))
      /\ run (post_register r) o s = (server_error "Database error", s1))
  \/ (~ blank (body_inventory_name r) /\ items s !! i = None
      /\ run (post_register r) o s
         = (json_ 201
              (JObj ([ ("id", JNum i);
                       ("inventory_name", JStr (default "" (body_inventory_name r))) ]
                     ++ match body_description r with
                        | Some d => [("description", JStr d)]
                        | None => []
                        end
                     ++ [ ("photo_url",
                           if truthy_opt ref then JStr (photo_url_of i) else JNull) ])),
            emit (RecordCreated i ref)
              {| items := <[i := {| col_inventory_name :=
                                      default "" (body_inventory_name r);
                                    col_description :=
                                      if truthy_opt (body_description r)
                                      then default "" (body_description r) else "";
                                    col_photo := ref |}]> (items s1);
                 auto_increment := i + 1; disk := disk s1; log := log s1 |})).
Proof.
  intros s1 ref i.
  destruct (negb (truthy_opt (body_inventory_name r))
            || String.eqb (trim (default "" (body_inventory_name r))) "")
    eqn:Hguard.
  { apply name_rejected_iff_blank in Hguard. left. split; [done|].
    by apply persistent_register_blank. }
  assert (Hb : ~ blank (body_inventory_name r)).
  { intros Hb. apply name_rejected_iff_blank in Hb. congruence. }
  right. outcomes_of (post_register r).
  destruct (req_file r) as [f|] eqn:Hf; cbn; rewrite Hguard; cbn.
  all: next_outcome; [intros ->; left; split_and!; [done|left; eauto|done]|].
  all: match goal with |- context [INSERT ?a ?b ?c ?s0] =>
         destruct (persistent_INSERT_outcomes a b c s0) as [[Hi Hq]|[Hi Hq]];
         rewrite Hq; cbn; intros ->;
         [left; split_and!; [done|by right|done]|right; split_and!; done] end.
Qed.

End PersistentFacts.

(** * The claims of the specification

    First the claims both servers satisfy (C7, C8, C10), then those the
    in-memory server departs from while the MySQL server, on the same
    route, does what the claim says (C3, C5, C6), then those the code
    departs from on a failure path or for want of a handler (C1, C2, C4,
    C9), each with the evaluation that shows it. *)

(** Decide a closed membership (or other decidable) goal by evaluation. *)
Ltac by_evaluation := apply (bool_decide_unpack _); vm_compute; exact I.

(** C7. UpdateFields on an existing item replaces a field exactly when the
    provided value is truthy and keeps the stored value when the field is
    omitted or empty; id and photo are untouched, and so are the other
    items, the counter and the upload directory; the item read back with
    GetById is the updated one.  On an absent item it answers 404 and
    changes nothing.  An item exists when the list (the table) holds it;
    in memory the first item with the id is the one addressed.  In the
    MySQL variant this is the behaviour when the queries of the requests
    run. *)
Theorem update_fields_partial `{Env} (n : jsnum) (r : request) :
  (forall s,
     (forall d, d ∈ Volatile.devices s -> Int (id d) <> n) ->
     Volatile.put_item n r s = (end_ 404 "No item with such ID", s))
  /\ (forall s k d,
        Volatile.devices s !! k = Some d -> Int (id d) = n ->
        (forall j y, Volatile.devices s !! j = Some y -> (j < k)%nat ->
                     Int (id y) <> n) ->
        let s' := snd (Volatile.put_item n r s) in
        fst (Volatile.put_item n r s)
        = json_ 200 (JObj (device_json (update_device r d)))
        /\ Volatile.devices s' !! k = Some (update_device r d)
        /\ (forall j, j <> k -> Volatile.devices s' !! j = Volatile.devices s !! j)
        /\ length (Volatile.devices s') = length (Volatile.devices s)
        /\ Volatile.Id s' = Volatile.Id s
        /\ Volatile.disk s' = Volatile.disk s
        /\ Volatile.log s' = Volatile.log s
        /\ Volatile.get_item n s'
           = (json_ 200
                (JObj (device_json (update_device r d)
                       ++ [("photo_url", photo_url (update_device r d))])), s'))
  /\ (forall o s,
        Persistent.healthy o ->
        (forall i, n = Int i -> Persistent.items s !! i = None) ->
        Persistent.run (Persistent.put_item n r) o s
        = (end_ 404 "No item with such ID", s))
  /\ (forall o o' s i row,
        Persistent.healthy o -> Persistent.healthy o' -> n = Int i ->
        Persistent.items s !! i = Some row ->
        let s' := snd (Persistent.run (Persistent.put_item n r) o s) in
        let d' :=
          {| id := i;
             inventory_name :=
               partial_update (body_inventory_name r)
                 (Persistent.col_inventory_name row);
             description :=
               partial_update (body_description r)
                 (Persistent.col_description row);
             photo := Persistent.col_photo row |} in
        fst (Persistent.run (Persistent.put_item n r) o s)
        = json_ 200 (JObj (device_json d'))
        /\ Persistent.items s' !! i
           = Some {| Persistent.col_inventory_name := inventory_name d';
                     Persistent.col_description := description d';
                     Persistent.col_photo := photo d' |}
        /\ (forall j, j <> i ->
              Persistent.items s' !! j = Persistent.items s !! j)
        /\ Persistent.auto_increment s' = Persistent.auto_increment s
        /\ Persistent.disk s' = Persistent.disk s
        /\ Persistent.log s' = Persistent.log s
        /\ Persistent.run (Persistent.get_item n) o' s'
           = (json_ 200
                (JObj (device_json d' ++ [("photo_url", photo_url d')])), s'))
  /\ (forall stored : string,
        partial_update None stored = stored
        /\ partial_update (Some "") stored = stored)
  /\ (forall provided stored : string,
        provided <> "" -> partial_update (Some provided) stored = provided).
Proof.
  split_and!.
  - intros s Hno. by apply volatile_put_item_absent, volatile_find_nowhere.
  - intros s k d Hk Hd Hfirst. cbv zeta.
    pose proof (volatile_find_first n s k d Hk Hd Hfirst) as Hfind.
    assert (Hrun : Volatile.put_item n r s
                   = (json_ 200 (JObj (device_json (update_device r d))),
                      Volatile.set_devices
                        (<[k := update_device r d]> (Volatile.devices s)) s)).
    { unfold Volatile.put_item, update_device, partial_update. rewrite Hfind.
      destruct d. by destruct (truthy_opt (body_inventory_name r)),
        (truthy_opt (body_description r)). }
    rewrite Hrun. cbn [fst snd Volatile.set_devices Volatile.devices
                       Volatile.Id Volatile.disk Volatile.log].
    split_and!; try done.
    + apply list_lookup_insert_eq. by eapply lookup_lt_Some.
    + intros j Hj. by apply list_lookup_insert_ne.
    + by rewrite length_insert.
    + apply (volatile_get_item_present _ _ k).
      by apply (volatile_find_insert n s s k d).
  - intros o s Ho Hno. apply persistent_put_item_absent; [done|].
    unfold Persistent.find. destruct n as [|i|]; [done| |done].
    by rewrite (Hno i).
  - intros o o' s i row Ho Ho' -> Hi. cbv zeta.
    rewrite (persistent_put_item_present i row r o s Ho Hi).
    cbn [fst snd Persistent.set_items Persistent.items
         Persistent.auto_increment Persistent.disk Persistent.log].
    split_and!; try done.
    + by rewrite lookup_insert_eq.
    + intros j Hj. by apply lookup_insert_ne.
    + rewrite persistent_get_item_healthy by done.
      unfold Persistent.find. cbn. by rewrite lookup_insert_eq.
  - intros stored. by split.
  - intros provided stored Hp. unfold partial_update. cbn.
    unfold truthy. by apply String.eqb_neq in Hp as ->.
Qed.

(** An empty description keeps the stored one and a new non-empty name
    replaces it, on the laptop registered in both variants: the response,
    and the item stored afterwards. *)
Lemma update_fields_partial_witness :
  (fst (@Volatile.put_item (Int 1) (Sample.update 1 (Some "Notebook") (Some ""))
          Sample.volatile_laptop)
   = json_ 200 (JObj [ ("id", JNum 1); ("inventory_name", JStr "Notebook");
                       ("description", JStr "Dell");
                       ("photo", JStr Sample.pathA) ])
   /\ Volatile.devices
        (snd (@Volatile.put_item (Int 1)
                (Sample.update 1 (Some "Notebook") (Some ""))
                Sample.volatile_laptop)) !! 0%nat
      = Some {| id := 1; inventory_name := "Notebook"; description := "Dell";
                photo := Some Sample.pathA |})
  /\ (fst (Persistent.run
             (@Persistent.put_item (Int 2)
                (Sample.update 2 (Some "Notebook") (Some "")))
             [] Sample.persistent_laptop)
      = json_ 200 (JObj [ ("id", JNum 2); ("inventory_name", JStr "Notebook");
                          ("description", JStr "Dell");
                          ("photo", JStr Sample.pathA) ])
      /\ Persistent.items
           (snd (Persistent.run
                   (@Persistent.put_item (Int 2)
                      (Sample.update 2 (Some "Notebook") (Some "")))
                   [] Sample.persistent_laptop)) !! 2
         = Some {| Persistent.col_inventory_name := "Notebook";
                   Persistent.col_description := "Dell";
                   Persistent.col_photo := Some Sample.pathA |}).
Proof.
  split.
  - destruct (proj1 (proj2 (@update_fields_partial Sample.env (Int 1)
                (Sample.update 1 (Some "Notebook") (Some ""))))
              Sample.volatile_laptop 0%nat
              {| id := 1; inventory_name := "Laptop"; description := "Dell";
                 photo := Some Sample.pathA |})
      as (Hres & Hstored & _); [reflexivity|reflexivity|intros j y _ Hj; lia|].
    split; [exact Hres|exact Hstored].
  - destruct (proj1 (proj2 (proj2 (proj2 (@update_fields_partial Sample.env (Int 2)
                (Sample.update 2 (Some "Notebook") (Some ""))))))
              [] [] Sample.persistent_laptop 2
              {| Persistent.col_inventory_name := "Laptop";
                 Persistent.col_description := "Dell";
                 Persistent.col_photo := Some Sample.pathA |})
      as (Hres & Hstored & _);
      [constructor|constructor|reflexivity|vm_compute; reflexivity|].
    split; [exact Hres|exact Hstored].
Defined.

(** C8. SearchById answers 400 when [Number(id)] is not a number, 404
    when it is a number and no item has it, and otherwise 201 with the
    item's id, name and description and the derived photo URL only: the
    response has no [photo] field, so no storage path.  An item exists
    when the list (the table) holds it; in memory the first item with the
    id is the one found.  In the MySQL variant this is the behaviour when
    the query of the request runs. *)
Theorem search_by_id `{Env} (r : request) :
  (forall s,
     body_id r = NaN ->
     Volatile.post_search r s = (end_ 400 "Invalid ID", s))
  /\ (forall s,
        body_id r <> NaN ->
        (forall d, d ∈ Volatile.devices s -> Int (id d) <> body_id r) ->
        Volatile.post_search r s = (end_ 404 "Item not found", s))
  /\ (forall s k d,
        Volatile.devices s !! k = Some d -> Int (id d) = body_id r ->
        (forall j y, Volatile.devices s !! j = Some y -> (j < k)%nat ->
                     Int (id y) <> body_id r) ->
        Volatile.post_search r s
        = (json_ 201
             (JObj ([ ("id", JNum (id d));
                      ("inventory_name", JStr (inventory_name d));
                      ("description", JStr (description d)) ]
                    ++ if truthy_opt (photo d)
                       then [("photo_url", JStr (photo_url_of (id d)))]
                       else [])), s)
        /\ response_field "photo" (fst (Volatile.post_search r s)) = None)
  /\ (forall o s,
        body_id r = NaN ->
        Persistent.run (Persistent.post_search r) o s
        = (end_ 400 "Invalid ID", s))
  /\ (forall o s,
        Persistent.healthy o -> body_id r <> NaN ->
        (forall i, body_id r = Int i -> Persistent.items s !! i = None) ->
        Persistent.run (Persistent.post_search r) o s
        = (end_ 404 "Item not found", s))
  /\ (forall o s i row,
        Persistent.healthy o -> body_id r = Int i ->
        Persistent.items s !! i = Some row ->
        Persistent.run (Persistent.post_search r) o s
        = (json_ 201
             (JObj [ ("id", JNum i);
                     ("inventory_name", JStr (Persistent.col_inventory_name row));
                     ("description", JStr (Persistent.col_description row));
                     ("photo_url",
                      if truthy_opt (Persistent.col_photo row)
                      then JStr (photo_url_of i) else JNull) ]), s)
        /\ response_field "photo"
             (fst (Persistent.run (Persistent.post_search r) o s)) = None).
Proof.
  split_and!.
  - intros s. apply volatile_search_NaN.
  - intros s Hn Hno. by apply volatile_search_absent, volatile_find_nowhere.
  - intros s k d Hk Hd Hfirst.
    rewrite (volatile_search_present r s k d)
      by (by apply volatile_find_first).
    split; [done|]. by destruct (truthy_opt (photo d)).
  - intros o s. apply persistent_search_NaN.
  - intros o s Ho Hn Hno. rewrite persistent_search_healthy by done.
    unfold Persistent.find.
    destruct (body_id r) as [|i|]; [done| |done]. by rewrite (Hno i).
  - intros o s i row Ho Hid Hi. rewrite persistent_search_healthy by done.
    rewrite Hid. unfold Persistent.find. rewrite Hi. done.
Qed.

(** SearchById("abc"), SearchById(999999) and the search for the
    registered laptop, in both variants. *)
Lemma search_by_id_witness :
  (@Volatile.post_search (Sample.search NaN) Sample.volatile_laptop
   = (end_ 400 "Invalid ID", Sample.volatile_laptop)
   /\ @Volatile.post_search (Sample.search (Int 999999)) Sample.volatile_laptop
      = (end_ 404 "Item not found", Sample.volatile_laptop)
   /\ @Volatile.post_search (Sample.search (Int 1)) Sample.volatile_laptop
      = (json_ 201
           (JObj [ ("id", JNum 1); ("inventory_name", JStr "Laptop");
                   ("description", JStr "Dell");
                   ("photo_url", JStr "/inventory/1/photo") ]),
         Sample.volatile_laptop))
  /\ (Persistent.run (@Persistent.post_search (Sample.search NaN))
        [] Sample.persistent_laptop
      = (end_ 400 "Invalid ID", Sample.persistent_laptop)
      /\ Persistent.run (@Persistent.post_search (Sample.search (Int 999999)))
           [] Sample.persistent_laptop
         = (end_ 404 "Item not found", Sample.persistent_laptop)
      /\ Persistent.run (@Persistent.post_search (Sample.search (Int 2)))
           [] Sample.persistent_laptop
         = (json_ 201
              (JObj [ ("id", JNum 2); ("inventory_name", JStr "Laptop");
                      ("description", JStr "Dell");
                      ("photo_url", JStr "/inventory/2/photo") ]),
            Sample.persistent_laptop)).
Proof.
  split; split_and!.
  - exact (proj1 (@search_by_id Sample.env (Sample.search NaN))
             Sample.volatile_laptop eq_refl).
  - apply (proj1 (proj2 (@search_by_id Sample.env (Sample.search (Int 999999))))
             Sample.volatile_laptop); [discriminate|].
    intros d Hd. apply list_elem_of_singleton in Hd as ->. discriminate.
  - apply (proj1 (proj2 (proj2 (@search_by_id Sample.env (Sample.search (Int 1)))))
             Sample.volatile_laptop 0%nat
             {| id := 1; inventory_name := "Laptop"; description := "Dell";
                photo := Some Sample.pathA |});
      [reflexivity|reflexivity|intros j y _ Hj; lia].
  - exact (proj1 (proj2 (proj2 (proj2 (@search_by_id Sample.env (Sample.search NaN)))))
             [] Sample.persistent_laptop eq_refl).
  - apply (proj1 (proj2 (proj2 (proj2 (proj2
             (@search_by_id Sample.env (Sample.search (Int 999999)))))))
             [] Sample.persistent_laptop); [constructor|discriminate|].
    intros i [= <-]. vm_compute. reflexivity.
  - apply (proj2 (proj2 (proj2 (proj2 (proj2
             (@search_by_id Sample.env (Sample.search (Int 2)))))))
             [] Sample.persistent_laptop 2
             {| Persistent.col_inventory_name := "Laptop";
                Persistent.col_description := "Dell";
                Persistent.col_photo := Some Sample.pathA |});
      [constructor|reflexivity|vm_compute; reflexivity].
Defined.

(** C10. For an item whose photo reference is set, GetById answers with
    the stored path in the field [photo] next to [photo_url], UpdateFields
    answers with the stored path in [photo] and no [photo_url], and
    SearchById answers without a [photo] field.  In the MySQL variant this
    is the behaviour when the queries of the request run. *)
Theorem storage_path_in_item_responses `{Env} (n : jsnum) (r : request) (p : string) :
  (forall s k d,
     Volatile.find n s = Some (k, d) -> photo d = Some p ->
     let get := fst (Volatile.get_item n s) in
     let put := fst (Volatile.put_item n r s) in
     status get = 200 /\ response_field "photo" get = Some (JStr p)
     /\ response_field "photo_url" get = Some (photo_url d)
     /\ status put = 200 /\ response_field "photo" put = Some (JStr p)
     /\ response_field "photo_url" put = None
     /\ (body_id r = n ->
         status (fst (Volatile.post_search r s)) = 201
         /\ response_field "photo" (fst (Volatile.post_search r s)) = None))
  /\ (forall o s d,
        Persistent.healthy o ->
        Persistent.find n s = Some d -> photo d = Some p ->
        let get := fst (Persistent.run (Persistent.get_item n) o s) in
        let put := fst (Persistent.run (Persistent.put_item n r) o s) in
        let search := fst (Persistent.run (Persistent.post_search r) o s) in
        status get = 200 /\ response_field "photo" get = Some (JStr p)
        /\ response_field "photo_url" get = Some (photo_url d)
        /\ status put = 200 /\ response_field "photo" put = Some (JStr p)
        /\ response_field "photo_url" put = None
        /\ (body_id r = n ->
            status search = 201 /\ response_field "photo" search = None)).
Proof.
  split.
  - intros s k d Hf Hp. cbv zeta.
    rewrite (volatile_get_item_present _ _ _ _ Hf).
    destruct (volatile_put_item_present n r s k d Hf)
      as (d' & -> & _ & Hp' & _).
    unfold response_field. cbn. rewrite Hp', Hp. cbn. split_and!; try done.
    intros Hn. rewrite <- Hn in Hf.
    rewrite (volatile_search_present _ _ _ _ Hf). cbn.
    split; [done|]. by destruct (truthy_opt (photo d)).
  - intros o s d Ho Hf Hp. cbv zeta.
    rewrite persistent_get_item_healthy by done. rewrite Hf.
    pose proof Hf as (i & row & -> & Hi & ->)%persistent_find_Some.
    rewrite (persistent_put_item_present i row r o s Ho Hi).
    unfold response_field. cbn in *. rewrite Hp. cbn. split_and!; try done.
    intros Hn. rewrite persistent_search_healthy by done. rewrite Hn.
    cbn. by rewrite Hi.
Qed.

(** The registered laptop: GetById and UpdateFields show the upload's
    path, SearchById does not. *)
Lemma storage_path_in_item_responses_witness :
  (response_field "photo" (fst (@Volatile.get_item (Int 1) Sample.volatile_laptop))
   = Some (JStr Sample.pathA)
   /\ response_field "photo"
        (fst (@Volatile.put_item (Int 1) (Sample.search (Int 1)) Sample.volatile_laptop))
      = Some (JStr Sample.pathA)
   /\ response_field "photo"
        (fst (@Volatile.post_search (Sample.search (Int 1)) Sample.volatile_laptop))
      = None)
  /\ (response_field "photo"
        (fst (Persistent.run (@Persistent.get_item (Int 2)) [] Sample.persistent_laptop))
      = Some (JStr Sample.pathA)
      /\ response_field "photo"
           (fst (Persistent.run (@Persistent.put_item (Int 2) (Sample.search (Int 2)))
                   [] Sample.persistent_laptop))
         = Some (JStr Sample.pathA)
      /\ response_field "photo"
           (fst (Persistent.run (@Persistent.post_search (Sample.search (Int 2)))
                   [] Sample.persistent_laptop))
         = None).
Proof.
  split.
  - destruct (proj1 (@storage_path_in_item_responses Sample.env (Int 1)
                       (Sample.search (Int 1)) Sample.pathA)
                Sample.volatile_laptop 0%nat
                {| id := 1; inventory_name := "Laptop"; description := "Dell";
                   photo := Some Sample.pathA |})
      as (_ & Hget & _ & _ & Hput & _ & Hsearch);
      [vm_compute; reflexivity|reflexivity|].
    split_and!; [exact Hget|exact Hput|by apply Hsearch].
  - destruct (proj2 (@storage_path_in_item_responses Sample.env (Int 2)
                       (Sample.search (Int 2)) Sample.pathA)
                [] Sample.persistent_laptop
                {| id := 2; inventory_name := "Laptop"; description := "Dell";
                   photo := Some Sample.pathA |})
      as (_ & Hget & _ & _ & Hput & _ & Hsearch);
      [constructor|vm_compute; reflexivity|reflexivity|].
    split_and!; [exact Hget|exact Hput|by apply Hsearch].
Defined.

(** C3.  The in-memory ReplacePhoto deletes the old blob before it
    records the new reference: on an item whose photo [old] is on disk the
    steps are store, unlink [old], assign.  The MySQL handler of the same
    route keeps the order of the claim: store, UPDATE, unlink [old]. *)
Theorem replace_photo_unlinks_before_recording `{Env}
    (n : jsnum) (r : request) (f : upload) (old : string) :
  req_file r = Some f -> truthy old = true ->
  (forall s k d,
     Volatile.devices s !! k = Some d -> Int (id d) = n ->
     (forall j y, Volatile.devices s !! j = Some y -> (j < k)%nat ->
                  Int (id y) <> n) ->
     photo d = Some old -> old ∈ Volatile.disk s ->
     status (fst (Volatile.put_photo n r s)) = 200
     /\ Volatile.log (snd (Volatile.put_photo n r s))
        = Volatile.log s
          ++ [ BlobStored (file_path f); BlobDeleted old;
               PhotoRecorded (id d) (file_path f) ])
  /\ (forall o s i row,
        n = Int i -> Persistent.items s !! i = Some row ->
        Persistent.col_photo row = Some old -> old ∈ Persistent.disk s ->
        status (fst (Persistent.run (Persistent.put_photo n r) o s)) = 200 ->
        Persistent.log (snd (Persistent.run (Persistent.put_photo n r) o s))
        = Persistent.log s
          ++ [ BlobStored (file_path f); PhotoRecorded i (file_path f);
               BlobDeleted old ]).
Proof.
  intros Hf Ht. split.
  - intros s k d Hk Hd Hfirst Hold Hin.
    pose proof (volatile_find_first n s k d Hk Hd Hfirst) as Hfind.
    destruct (volatile_put_photo_present n r s k d f Hfind Hf)
      as (Hres & _ & _ & _ & Hlog).
    rewrite Hres, Hlog, Hold, Ht. split; [done|].
    by rewrite bool_decide_eq_true_2 by (by apply elem_of_union_r).
  - intros o s i row -> Hi Hold Hin H200.
    destruct (persistent_put_photo_success _ _ _ _ H200)
      as (f' & i' & row' & Hf' & [= <-] & Hi' & Hrun).
    rewrite Hrun. simplify_eq. cbn [snd].
    unfold Persistent.photo_replaced, Persistent.remove_if_exists.
    rewrite Hold, Ht. cbn.
    rewrite bool_decide_eq_true_2 by (by apply elem_of_union_r). cbn.
    by rewrite <- !app_assoc.
Qed.

(** Replacing the registered laptop's photo A by photo B, in both
    variants. *)
Lemma replace_photo_unlinks_before_recording_witness :
  Volatile.log (snd (@Volatile.put_photo Sample.env (Int 1)
                       (Sample.replace_photo (Int 1) (Some Sample.photoB))
                       Sample.volatile_laptop))
  = [ BlobStored Sample.pathA; RecordCreated 1 (Some Sample.pathA);
      BlobStored Sample.pathB; BlobDeleted Sample.pathA;
      PhotoRecorded 1 Sample.pathB ]
  /\ Persistent.log
       (snd (Persistent.run
               (@Persistent.put_photo Sample.env (Int 2)
                  (Sample.replace_photo (Int 2) (Some Sample.photoB)))
               [] Sample.persistent_laptop))
     = [ BlobStored Sample.pathA; RecordCreated 2 (Some Sample.pathA);
         BlobStored Sample.pathB; PhotoRecorded 2 Sample.pathB;
         BlobDeleted Sample.pathA ].
Proof.
  split.
  - refine (proj2 (proj1 (@replace_photo_unlinks_before_recording Sample.env
              (Int 1) (Sample.replace_photo (Int 1) (Some Sample.photoB))
              Sample.photoB Sample.pathA eq_refl eq_refl)
              Sample.volatile_laptop 0%nat
              {| id := 1; inventory_name := "Laptop"; description := "Dell";
                 photo := Some Sample.pathA |} eq_refl eq_refl _ eq_refl _)).
    + intros j y _ Hj. lia.
    + by_evaluation.
  - refine (proj2 (@replace_photo_unlinks_before_recording Sample.env
              (Int 2) (Sample.replace_photo (Int 2) (Some Sample.photoB))
              Sample.photoB Sample.pathA eq_refl eq_refl)
              [] Sample.persistent_laptop 2
              {| Persistent.col_inventory_name := "Laptop";
                 Persistent.col_description := "Dell";
                 Persistent.col_photo := Some Sample.pathA |}
              eq_refl _ eq_refl _ _).
    + vm_compute. reflexivity.
    + by_evaluation.
    + vm_compute. reflexivity.
Defined.

(** C5.  The in-memory Delete deletes the blob before it removes the
    record: on an item whose photo [p] is on disk the steps are unlink
    [p], splice.  The MySQL handler of the same route keeps the order of
    the claim: DELETE the row, then unlink [p]. *)
Theorem delete_unlinks_before_removing (n : jsnum) (p : string) :
  truthy p = true ->
  (forall s k d,
     Volatile.devices s !! k = Some d -> Int (id d) = n ->
     (forall j y, Volatile.devices s !! j = Some y -> (j < k)%nat ->
                  Int (id y) <> n) ->
     photo d = Some p -> p ∈ Volatile.disk s ->
     status (fst (Volatile.delete_item n s)) = 200
     /\ Volatile.log (snd (Volatile.delete_item n s))
        = Volatile.log s ++ [BlobDeleted p; RecordDeleted (id d)])
  /\ (forall o s i row,
        n = Int i -> Persistent.items s !! i = Some row ->
        Persistent.col_photo row = Some p -> p ∈ Persistent.disk s ->
        status (fst (Persistent.run (Persistent.delete_item n) o s)) = 200 ->
        Persistent.log (snd (Persistent.run (Persistent.delete_item n) o s))
        = Persistent.log s ++ [RecordDeleted i; BlobDeleted p]).
Proof.
  intros Ht. split.
  - intros s k d Hk Hd Hfirst Hp Hin.
    pose proof (volatile_find_first n s k d Hk Hd Hfirst) as Hfind.
    unfold Volatile.delete_item. rewrite Hfind, Hp. cbn.
    unfold Volatile.existsSync. rewrite Ht, bool_decide_eq_true_2 by done.
    cbn. split; [done|]. by rewrite <- app_assoc.
  - intros o s i row -> Hi Hp Hin H200.
    destruct (persistent_delete_outcomes (Int i) o s)
      as [(? & _ & Hrun)|[[_ Hrun]|(i' & row' & [= <-] & Hi' & Hrun)]];
      rewrite Hrun in *; [done|done|].
    simplify_eq. cbn [snd]. unfold Persistent.remove_if_exists.
    rewrite Hp, Ht. cbn. rewrite bool_decide_eq_true_2 by done. cbn.
    by rewrite <- app_assoc.
Qed.

(** Deleting the registered laptop, in both variants. *)
Lemma delete_unlinks_before_removing_witness :
  Volatile.log (snd (Volatile.delete_item (Int 1) Sample.volatile_laptop))
  = [ BlobStored Sample.pathA; RecordCreated 1 (Some Sample.pathA);
      BlobDeleted Sample.pathA; RecordDeleted 1 ]
  /\ Persistent.log
       (snd (Persistent.run (Persistent.delete_item (Int 2))
               [] Sample.persistent_laptop))
     = [ BlobStored Sample.pathA; RecordCreated 2 (Some Sample.pathA);
         RecordDeleted 2; BlobDeleted Sample.pathA ].
Proof.
  split.
  - refine (proj2 (proj1 (delete_unlinks_before_removing (Int 1) Sample.pathA
              eq_refl)
              Sample.volatile_laptop 0%nat
              {| id := 1; inventory_name := "Laptop"; description := "Dell";
                 photo := Some Sample.pathA |} eq_refl eq_refl _ eq_refl _)).
    + intros j y _ Hj. lia.
    + by_evaluation.
  - refine (proj2 (delete_unlinks_before_removing (Int 2) Sample.pathA eq_refl)
              [] Sample.persistent_laptop 2
              {| Persistent.col_inventory_name := "Laptop";
                 Persistent.col_description := "Dell";
                 Persistent.col_photo := Some Sample.pathA |}
              eq_refl _ eq_refl _ _).
    + vm_compute. reflexivity.
    + by_evaluation.
    + vm_compute. reflexivity.
Defined.

(** C6.  The in-memory Register answers with the stored record itself:
    whatever the upload, the returned item has no [photo_url] field, and it
    carries the upload's storage path in [photo].  The MySQL handler of
    the same route answers as the claim says: [photo_url] is
    "/inventory/{id}/photo" for the assigned id when a photo was stored and
    null otherwise, and there is no [photo] field. *)
Theorem volatile_register_omits_photo_url `{Env} (r : request) :
  (forall s,
     ~ blank (body_inventory_name r) ->
     status (fst (Volatile.post_register r s)) = 201
     /\ response_field "id" (fst (Volatile.post_register r s))
        = Some (JNum (Volatile.Id s))
     /\ response_field "photo_url" (fst (Volatile.post_register r s)) = None
     /\ response_field "photo" (fst (Volatile.post_register r s))
        = Some (string_or_null (file_path <$> req_file r)))
  /\ (forall o s,
        status (fst (Persistent.run (Persistent.post_register r) o s)) = 201 ->
        response_field "id" (fst (Persistent.run (Persistent.post_register r) o s))
        = Some (JNum (Persistent.auto_increment s))
        /\ response_field "photo_url"
             (fst (Persistent.run (Persistent.post_register r) o s))
           = Some (match req_file r with
                   | Some _ => JStr (photo_url_of (Persistent.auto_increment s))
                   | None => JNull
                   end)
        /\ response_field "photo"
             (fst (Persistent.run (Persistent.post_register r) o s)) = None).
Proof.
  split.
  - intros s Hb.
    destruct (volatile_register_valid r s Hb) as (d & -> & Hid & _ & Hp).
    unfold response_field. cbn. by rewrite Hid, Hp.
  - intros o s H201.
    destruct (persistent_register_created r o s H201) as [-> _].
    unfold response_field. cbn. split_and!; [done| |].
    + destruct (body_description r); cbn;
        destruct (req_file r); cbn; by rewrite ?file_path_truthy.
    + by destruct (body_description r).
Qed.

(** Registering the laptop with photo A: the in-memory variant answers
    with [photo] and without [photo_url], the MySQL variant with
    [photo_url]. *)
Lemma volatile_register_omits_photo_url_witness :
  (response_field "photo_url"
     (fst (@Volatile.post_register Sample.env
             (Sample.register (Some "Laptop") (Some "Dell") (Some Sample.photoA))
             (Volatile.init ∅))) = None
   /\ response_field "photo"
        (fst (@Volatile.post_register Sample.env
                (Sample.register (Some "Laptop") (Some "Dell") (Some Sample.photoA))
                (Volatile.init ∅))) = Some (JStr Sample.pathA))
  /\ response_field "photo_url"
       (fst (Persistent.run
               (@Persistent.post_register Sample.env
                  (Sample.register (Some "Laptop") (Some "Dell") (Some Sample.photoA)))
               [] (Persistent.init ∅)))
     = Some (JStr "/inventory/2/photo").
Proof.
  split.
  - destruct (proj1 (@volatile_register_omits_photo_url Sample.env
                (Sample.register (Some "Laptop") (Some "Dell") (Some Sample.photoA)))
                (Volatile.init ∅)) as (_ & _ & Hurl & Hphoto).
    + intros Hb. specialize (Hb "Laptop" eq_refl). discriminate.
    + split; [exact Hurl|exact Hphoto].
  - refine (proj1 (proj2 (proj2 (@volatile_register_omits_photo_url Sample.env
              (Sample.register (Some "Laptop") (Some "Dell") (Some Sample.photoA)))
              [] (Persistent.init ∅) _))).
    vm_compute. reflexivity.
Defined.

(** The sample states satisfy the invariants. *)
Lemma volatile_init_consistent `{Env} (files : gset string) :
  Volatile.consistent (Volatile.init files).
Proof. apply volatile_reachable_invariant. constructor. Qed.

Lemma sample_volatile_laptop_sound :
  Volatile.consistent Sample.volatile_laptop
  /\ Volatile.no_orphan Sample.volatile_laptop.
Proof.
  pose proof (@volatile_init_consistent Sample.env ∅) as Hc.
  assert (Hfresh : @Volatile.fresh_upload Sample.env
            (Sample.register (Some "Laptop") (Some "Dell") (Some Sample.photoA))
            (Volatile.init ∅)).
  { intros f [= <-]. by_evaluation. }
  split.
  - by apply (@volatile_consistent_app Sample.env).
  - apply (@volatile_no_orphan_app Sample.env); [done| |right; by vm_compute].
    intros p Hp. cbn in Hp. by apply not_elem_of_empty in Hp.
Qed.

Lemma sample_persistent_laptop_sound :
  Persistent.consistent Sample.persistent_laptop
  /\ Persistent.no_orphan Sample.persistent_laptop.
Proof.
  pose proof (persistent_init_consistent ∅) as Hc.
  assert (Hfresh : @Persistent.fresh_upload Sample.env
            (Sample.register (Some "Laptop") (Some "Dell") (Some Sample.photoA))
            (Persistent.init ∅)).
  { intros f [= <-]. by_evaluation. }
  split.
  - by apply (@persistent_consistent_app Sample.env).
  - apply (@persistent_no_orphan_app Sample.env); [done|done| |right; by vm_compute].
    intros p Hp. cbn in Hp. by apply not_elem_of_empty in Hp.
Qed.

(** C1.  The invariant is broken on a failure path: from the initial
    state, where no file is an orphan, a Register with a blank name and a
    photo is rejected with 400, and the file multer wrote stays on disk,
    owned by no item.  Both variants. *)
Theorem rejected_register_orphans_upload :
  (Volatile.no_orphan (Volatile.init ∅)
   /\ status (fst (@Volatile.app Sample.env
                     (Sample.register (Some "   ") None (Some Sample.photoA))
                     (Volatile.init ∅))) = 400
   /\ ~ Volatile.no_orphan
          (snd (@Volatile.app Sample.env
                  (Sample.register (Some "   ") None (Some Sample.photoA))
                  (Volatile.init ∅))))
  /\ (Persistent.no_orphan (Persistent.init ∅)
      /\ status (fst (@Persistent.app Sample.env
                        (Sample.register (Some "   ") None (Some Sample.photoA))
                        [] (Persistent.init ∅))) = 400
      /\ ~ Persistent.no_orphan
             (snd (@Persistent.app Sample.env
                     (Sample.register (Some "   ") None (Some Sample.photoA))
                     [] (Persistent.init ∅)))).
Proof.
  split; split_and!.
  - intros p Hp. by apply not_elem_of_empty in Hp.
  - reflexivity.
  - intros Ho. destruct (Ho Sample.pathA) as (i & d & Hi & _); [by_evaluation|].
    vm_compute in Hi. by destruct i.
  - intros p Hp. by apply not_elem_of_empty in Hp.
  - reflexivity.
  - assert (Heq : snd (@Persistent.app Sample.env
                          (Sample.register (Some "   ") None (Some Sample.photoA))
                          [] (Persistent.init ∅))
                  = Persistent.store_blob Sample.pathA (Persistent.init ∅))
      by (vm_compute; reflexivity).
    rewrite Heq. intros Ho.
    destruct (Ho Sample.pathA) as (i & row & Hi & Hp); [by_evaluation|].
    cbn in Hi. apply lookup_singleton_Some in Hi as [_ <-]. discriminate.
Qed.

(** What does hold of the invariant of C1.  With uploads stored under
    fresh names, every request, on every path (success, rejection, failed
    query), keeps every non-null photo reference pointing to a file on disk
    that no other item refers to: no dangling reference is introduced.  A
    request that succeeds, or that uploads no file, also leaves every file
    on disk owned by an item: no orphan is introduced. *)
Theorem lifecycle_invariant `{Env} (r : request) :
  (forall s,
     Volatile.consistent s -> Volatile.fresh_upload r s ->
     Volatile.consistent (snd (Volatile.app r s))
     /\ (Volatile.no_orphan s ->
         req_file r = None \/ success (fst (Volatile.app r s)) ->
         Volatile.no_orphan (snd (Volatile.app r s))))
  /\ (forall o s,
        Persistent.consistent s -> Persistent.fresh_upload r s ->
        Persistent.consistent (snd (Persistent.app r o s))
        /\ (Persistent.no_orphan s ->
            req_file r = None \/ success (fst (Persistent.app r o s)) ->
            Persistent.no_orphan (snd (Persistent.app r o s)))).
Proof.
  split.
  - intros s Hc Hfresh. split.
    + by apply volatile_consistent_app.
    + intros Ho Hok. by apply volatile_no_orphan_app.
  - intros o s Hc Hfresh. split.
    + by apply persistent_consistent_app.
    + intros Ho Hok. by apply persistent_no_orphan_app.
Qed.

(** Replacing the laptop's photo keeps both stores sound and free of
    orphans, in both variants. *)
Lemma lifecycle_invariant_witness :
  (Volatile.consistent
     (snd (@Volatile.app Sample.env
             (Sample.replace_photo (Int 1) (Some Sample.photoB))
             Sample.volatile_laptop))
   /\ Volatile.no_orphan
        (snd (@Volatile.app Sample.env
                (Sample.replace_photo (Int 1) (Some Sample.photoB))
                Sample.volatile_laptop)))
  /\ (Persistent.consistent
        (snd (@Persistent.app Sample.env
                (Sample.replace_photo (Int 2) (Some Sample.photoB))
                [] Sample.persistent_laptop))
      /\ Persistent.no_orphan
           (snd (@Persistent.app Sample.env
                   (Sample.replace_photo (Int 2) (Some Sample.photoB))
                   [] Sample.persistent_laptop))).
Proof.
  destruct sample_volatile_laptop_sound as [Hcv Hov].
  destruct sample_persistent_laptop_sound as [Hcp Hop].
  split.
  - destruct (proj1 (@lifecycle_invariant Sample.env
                       (Sample.replace_photo (Int 1) (Some Sample.photoB)))
                Sample.volatile_laptop Hcv) as [Hc Ho].
    + intros f [= <-]. by_evaluation.
    + split; [exact Hc|]. apply Ho; [exact Hov|]. right. by vm_compute.
  - destruct (proj2 (@lifecycle_invariant Sample.env
                       (Sample.replace_photo (Int 2) (Some Sample.photoB)))
                [] Sample.persistent_laptop Hcp) as [Hc Ho].
    + intros f [= <-]. by_evaluation.
    + split; [exact Hc|]. apply Ho; [exact Hop|]. right. by vm_compute.
Defined.

(** C2.  A Register with a blank name (absent, empty or white space only)
    is rejected with 400 and creates no record, in both variants and
    whatever the queries would do.  The file multer wrote for the request
    is not deleted: it is on disk after the rejection. *)
Theorem register_blank_name_keeps_upload `{Env} (r : request) :
  blank (body_inventory_name r) ->
  (forall s,
     status (fst (Volatile.post_register r s)) = 400
     /\ Volatile.devices (snd (Volatile.post_register r s)) = Volatile.devices s
     /\ forall f, req_file r = Some f ->
          file_path f ∈ Volatile.disk (snd (Volatile.post_register r s)))
  /\ (forall o s,
        status (fst (Persistent.run (Persistent.post_register r) o s)) = 400
        /\ Persistent.items (snd (Persistent.run (Persistent.post_register r) o s))
           = Persistent.items s
        /\ forall f, req_file r = Some f ->
             file_path f
             ∈ Persistent.disk (snd (Persistent.run (Persistent.post_register r) o s))).
Proof.
  intros Hb. split.
  - intros s. rewrite (volatile_register_blank r s Hb). cbn.
    rewrite volatile_devices_upload. split_and!; [done..|].
    intros f ->. cbn. apply elem_of_union_l. by apply elem_of_singleton.
  - intros o s. rewrite (persistent_register_blank r o s Hb). cbn.
    split_and!; [done|by destruct (req_file r)|].
    intros f ->. cbn. apply elem_of_union_l. by apply elem_of_singleton.
Qed.

(** Register("   ", photo A) on the empty servers: 400, no record, and
    photo A's file left on disk. *)
Lemma register_blank_name_keeps_upload_witness :
  (status (fst (@Volatile.post_register Sample.env
                  (Sample.register (Some "   ") None (Some Sample.photoA))
                  (Volatile.init ∅))) = 400
   /\ Volatile.devices
        (snd (@Volatile.post_register Sample.env
                (Sample.register (Some "   ") None (Some Sample.photoA))
                (Volatile.init ∅))) = []
   /\ Sample.pathA
      ∈ Volatile.disk
          (snd (@Volatile.post_register Sample.env
                  (Sample.register (Some "   ") None (Some Sample.photoA))
                  (Volatile.init ∅))))
  /\ (status (fst (Persistent.run
                     (@Persistent.post_register Sample.env
                        (Sample.register (Some "   ") None (Some Sample.photoA)))
                     [] (Persistent.init ∅))) = 400
      /\ Sample.pathA
         ∈ Persistent.disk
             (snd (Persistent.run
                     (@Persistent.post_register Sample.env
                        (Sample.register (Some "   ") None (Some Sample.photoA)))
                     [] (Persistent.init ∅)))).
Proof.
  assert (Hb : blank (body_inventory_name
                        (Sample.register (Some "   ") None (Some Sample.photoA)))).
  { intros x [= <-]. reflexivity. }
  split.
  - destruct (proj1 (@register_blank_name_keeps_upload Sample.env _ Hb)
                (Volatile.init ∅)) as (H400 & Hdev & Hfile).
    split_and!; [exact H400|exact Hdev|]. by apply (Hfile Sample.photoA).
  - destruct (proj2 (@register_blank_name_keeps_upload Sample.env _ Hb)
                [] (Persistent.init ∅)) as (H400 & _ & Hfile).
    split; [exact H400|]. by apply (Hfile Sample.photoA).
Defined.

(** C4.  In the in-memory variant a ReplacePhoto on an absent item answers
    404 and leaves the items alone, and the file multer wrote for the
    request is not deleted: it is on disk after the rejection. *)
Theorem volatile_replace_photo_absent_keeps_upload `{Env} (n : jsnum)
    (r : request) (f : upload) (s : Volatile.state) :
  Volatile.find n s = None -> req_file r = Some f ->
  status (fst (Volatile.put_photo n r s)) = 404
  /\ Volatile.devices (snd (Volatile.put_photo n r s)) = Volatile.devices s
  /\ file_path f ∈ Volatile.disk (snd (Volatile.put_photo n r s)).
Proof.
  intros Hf Hr. rewrite (volatile_put_photo_absent n r s Hf), Hr. cbn.
  split_and!; [done..|]. apply elem_of_union_l. by apply elem_of_singleton.
Qed.

(** ReplacePhoto(999, photo B) next to the registered laptop. *)
Lemma volatile_replace_photo_absent_keeps_upload_witness :
  status (fst (@Volatile.put_photo Sample.env (Int 999)
                 (Sample.replace_photo (Int 999) (Some Sample.photoB))
                 Sample.volatile_laptop)) = 404
  /\ Sample.pathB
     ∈ Volatile.disk
         (snd (@Volatile.put_photo Sample.env (Int 999)
                 (Sample.replace_photo (Int 999) (Some Sample.photoB))
                 Sample.volatile_laptop)).
Proof.
  destruct (@volatile_replace_photo_absent_keeps_upload Sample.env (Int 999)
              (Sample.replace_photo (Int 999) (Some Sample.photoB))
              Sample.photoB Sample.volatile_laptop) as (H404 & _ & Hfile).
  - vm_compute. reflexivity.
  - reflexivity.
  - split; [exact H404|exact Hfile].
Defined.

(** C9.  No catch-all handler is registered for /search, so no method
    is answered 405 there: GET, HEAD, PUT, DELETE and PATCH fall through
    to Express's default 404, which carries no [Allow] header, and OPTIONS
    is answered by the router itself, 200 with [Allow: POST].  Both
    variants. *)
Theorem search_other_methods_unhandled `{Env} (r : request) :
  req_route r = Search -> req_method r <> POST ->
  (req_method r <> OPTIONS ->
   (forall s, Volatile.app r s = (express_not_found, s))
   /\ (forall o s, Persistent.app r o s = (express_not_found, s)))
  /\ (req_method r = OPTIONS ->
      (forall s, Volatile.app r s = (options_response "POST", s))
      /\ (forall o s, Persistent.app r o s = (options_response "POST", s)))
  /\ status express_not_found = 404
  /\ header "Allow" express_not_found = None
  /\ status (options_response "POST") = 200.
Proof.
  intros Hr Hm.
  unfold Volatile.app, Persistent.app, Volatile.routes, Persistent.routes,
    unexpected_file, body_missing.
  rewrite Hr. by destruct (req_method r).
Qed.

(** GET /search. *)
Lemma search_other_methods_unhandled_witness :
  @Volatile.app Sample.env (Sample.req GET Search) Sample.volatile_laptop
  = ({| status := 404; headers := []; payload := NoBody |},
     Sample.volatile_laptop)
  /\ @Persistent.app Sample.env (Sample.req GET Search) []
       Sample.persistent_laptop
     = ({| status := 404; headers := []; payload := NoBody |},
        Sample.persistent_laptop).
Proof.
  destruct (proj1 (@search_other_methods_unhandled Sample.env
                     (Sample.req GET Search) eq_refl ltac:(discriminate))
              ltac:(discriminate)) as [Hv Hp].
  split; [apply Hv|apply Hp].
Defined.

(** * Further properties of the two servers *)

(** Two different uploads of the same form field get different paths: the
    path determines the clock value, the random number and the extension. *)
Theorem uploads_get_distinct_paths `{Env} (f g : upload) :
  well_formed_upload f -> well_formed_upload g ->
  fieldname f = fieldname g -> f <> g -> file_path f <> file_path g.
Proof.
  intros (Hnf & Hrf & Hef) (Hng & Hrg & Heg) Hfield Hne Heq. apply Hne.
  unfold file_path, filename, uniqueSuffix in Heq. rewrite Hfield in Heq.
  apply (inj (String.app cache)) in Heq.
  apply (inj (String.app "/")) in Heq.
  apply (inj (String.app (fieldname g))) in Heq.
  apply (inj (String.app "-")) in Heq.
  rewrite !string_app_assoc in Heq.
  assert (Hext : forall e, extname_ok e -> no_digit_ahead e).
  { intros e [->|[t ->]]; done. }
  apply digits_prefix_unique in Heq as [Hnow Heq];
    [|by apply all_digits_pretty_Z..|done|done].
  apply (inj (String.app "-")) in Heq.
  apply digits_prefix_unique in Heq as [Hrandom Hextname];
    [|by apply all_digits_pretty_Z..|by apply Hext|by apply Hext].
  apply (inj pretty) in Hnow. apply (inj pretty) in Hrandom.
  destruct f, g; cbn in *; by subst.
Qed.

(** Photo A and photo B. *)
Lemma uploads_get_distinct_paths_witness :
  @file_path Sample.env Sample.photoA <> @file_path Sample.env Sample.photoB.
Proof.
  apply (@uploads_get_distinct_paths Sample.env Sample.photoA Sample.photoB).
  - split_and!; [done|done|]. right. by eexists.
  - split_and!; [done|done|]. right. by eexists.
  - reflexivity.
  - discriminate.
Defined.

(** On /register, /inventory, /inventory/:id and /inventory/:id/photo, a
    method the route does not serve is answered 405 with the [Allow]
    header listing the served methods, and the state is untouched.  (HEAD
    is served by the GET handler where there is one.) *)
Theorem method_not_allowed_elsewhere `{Env} (r : request) :
  req_route r <> Search -> req_route r <> Unrouted ->
  req_method r ∉ supported (req_route r) ->
  ~ (req_method r = HEAD /\ GET ∈ supported (req_route r)) ->
  (forall s,
     Volatile.app r s = (method_not_allowed (allow (req_route r)), s))
  /\ (forall o s,
        Persistent.app r o s = (method_not_allowed (allow (req_route r)), s))
  /\ status (method_not_allowed (allow (req_route r))) = 405
  /\ header "Allow" (method_not_allowed (allow (req_route r)))
     = Some (allow (req_route r)).
Proof.
  intros Hs Hu Hm Hhead.
  unfold Volatile.app, Persistent.app, Volatile.routes, Persistent.routes,
    unexpected_file, body_missing.
  destruct (req_route r), (req_method r); try done.
  all: exfalso; first [apply Hm; cbn; set_solver
                      |apply Hhead; split; [done|cbn; set_solver]].
Qed.

(** DELETE /register and PATCH /inventory/1/photo. *)
Lemma method_not_allowed_elsewhere_witness :
  @Volatile.app Sample.env (Sample.req DELETE Register) Sample.volatile_laptop
  = (method_not_allowed "POST", Sample.volatile_laptop)
  /\ @Persistent.app Sample.env (Sample.req PATCH (ItemPhoto (Int 1))) []
       Sample.persistent_laptop
     = (method_not_allowed "GET, PUT", Sample.persistent_laptop).
Proof.
  split.
  - refine (proj1 (@method_not_allowed_elsewhere Sample.env
                     (Sample.req DELETE Register) _ _ _ _) _);
      try discriminate; cbn.
    + intros ?%list_elem_of_singleton. discriminate.
    + intros [? _]. discriminate.
  - refine (proj1 (proj2 (@method_not_allowed_elsewhere Sample.env
                     (Sample.req PATCH (ItemPhoto (Int 1))) _ _ _ _)) _ _);
      try discriminate; cbn.
    + intros Hin. repeat (apply elem_of_cons in Hin as [?|Hin]; [discriminate|]).
      by apply elem_of_nil in Hin.
    + intros [? _]. discriminate.
Defined.

(** The failure paths of ReplacePhoto in the MySQL variant: without a file
    the answer is 400 and nothing changes, whether or not the item exists;
    with a file and no such item, when the query runs, the answer is 404,
    the rows are untouched and the uploaded file is unlinked again.  In the
    in-memory variant a request without a file on an existing item is
    answered 400 and nothing changes. *)
Theorem replace_photo_rejections `{Env} (n : jsnum) (r : request) :
  (forall o s,
     req_file r = None ->
     Persistent.run (Persistent.put_photo n r) o s
     = (end_ 400 "Photo file not sent", s))
  /\ (forall o s f,
        Persistent.healthy o -> req_file r = Some f ->
        Persistent.find n s = None ->
        let s' := snd (Persistent.run (Persistent.put_photo n r) o s) in
        fst (Persistent.run (Persistent.put_photo n r) o s)
        = end_ 404 "Item not found"
        /\ Persistent.items s' = Persistent.items s
        /\ (file_path f ∉ Persistent.disk s')
        /\ Persistent.disk s' = Persistent.disk s ∖ {[file_path f]})
  /\ (forall s k d,
        Volatile.find n s = Some (k, d) -> req_file r = None ->
        Volatile.put_photo n r s = (end_ 400 "Photo file not sent", s)).
Proof.
  split_and!.
  - intros o s. apply persistent_put_photo_no_file.
  - intros o s f Ho Hf Hn. cbv zeta.
    rewrite (persistent_put_photo_absent n r f o s Ho Hf Hn). cbn.
    split_and!; [done..| |]; set_solver.
  - intros s k d. apply volatile_put_photo_no_file.
Qed.

(** ReplacePhoto(999, photo B) and ReplacePhoto(2, no file) on the MySQL
    server holding the laptop. *)
Lemma replace_photo_rejections_witness :
  Persistent.run
    (@Persistent.put_photo Sample.env (Int 2) (Sample.replace_photo (Int 2) None))
    [] Sample.persistent_laptop
  = (end_ 400 "Photo file not sent", Sample.persistent_laptop)
  /\ fst (Persistent.run
            (@Persistent.put_photo Sample.env (Int 999)
               (Sample.replace_photo (Int 999) (Some Sample.photoB)))
            [] Sample.persistent_laptop)
     = end_ 404 "Item not found"
  /\ Sample.pathB
     ∉ Persistent.disk
         (snd (Persistent.run
                 (@Persistent.put_photo Sample.env (Int 999)
                    (Sample.replace_photo (Int 999) (Some Sample.photoB)))
                 [] Sample.persistent_laptop)).
Proof.
  split.
  - exact (proj1 (@replace_photo_rejections Sample.env (Int 2)
                    (Sample.replace_photo (Int 2) None))
             [] Sample.persistent_laptop eq_refl).
  - destruct (proj1 (proj2 (@replace_photo_rejections Sample.env (Int 999)
                    (Sample.replace_photo (Int 999) (Some Sample.photoB))))
                [] Sample.persistent_laptop Sample.photoB)
      as (H404 & _ & Hgone & _);
      [constructor|reflexivity|vm_compute; reflexivity|].
    split; [exact H404|exact Hgone].
Defined.

(** Every state either server reaches, with uploads stored under fresh
    names, has sound photo references; ids are unique and below the
    counter. *)
Theorem reachable_states_sound `{Env} :
  (forall s, Volatile.reachable s -> Volatile.ids_fresh s /\ Volatile.consistent s)
  /\ (forall s,
        Persistent.reachable s ->
        Persistent.keys_below s /\ Persistent.consistent s).
Proof.
  split; [apply volatile_reachable_invariant|apply persistent_reachable_invariant].
Qed.

(** The servers holding the registered laptop. *)
Lemma reachable_states_sound_witness :
  Volatile.consistent Sample.volatile_laptop
  /\ Persistent.consistent Sample.persistent_laptop.
Proof.
  split.
  - refine (proj2 (proj1 (@reachable_states_sound Sample.env)
                     Sample.volatile_laptop _)).
    apply (@Volatile.reachable_step Sample.env
             (Sample.register (Some "Laptop") (Some "Dell") (Some Sample.photoA))
             (Volatile.init ∅)); [constructor|].
    intros f [= <-]. by_evaluation.
  - refine (proj2 (proj2 (@reachable_states_sound Sample.env)
                     Sample.persistent_laptop _)).
    apply (@Persistent.reachable_step Sample.env
             (Sample.register (Some "Laptop") (Some "Dell") (Some Sample.photoA))
             [] (Persistent.init ∅)); [constructor|].
    intros f [= <-]. by_evaluation.
Defined.

(** Once Delete(id) has succeeded, GetById(id) and GetPhoto(id) answer 404
    after any further requests: ids are never handed out again.  (MySQL
    variant: for a table whose keys are below the AUTO_INCREMENT counter,
    as in every reachable state, and when the queries of the delete and of
    the later read run.) *)
Theorem deleted_item_stays_absent `{Env} (n : jsnum) :
  (forall s k d s',
     Volatile.ids_fresh s -> Volatile.find n s = Some (k, d) ->
     Volatile.steps (snd (Volatile.delete_item n s)) s' ->
     Volatile.get_item n s' = (end_ 404 "No item with such ID", s')
     /\ Volatile.get_photo n s' = (end_ 404 "Item not found", s'))
  /\ (forall o o' s i row s',
        Persistent.healthy o -> Persistent.healthy o' ->
        n = Int i -> Persistent.items s !! i = Some row ->
        Persistent.keys_below s ->
        Persistent.steps (snd (Persistent.run (Persistent.delete_item n) o s)) s' ->
        Persistent.run (Persistent.get_item n) o' s'
        = (end_ 404 "No item with such ID", s')
        /\ Persistent.run (Persistent.get_photo n) o' s'
           = (end_ 404 "Item not found", s')).
Proof.
  split.
  - intros s k d s' Hfresh Hfind Hsteps.
    destruct (volatile_delete_present n s k d Hfresh Hfind)
      as (_ & Hgone & HId & _).
    pose proof Hfind as (Hk & -> & _)%volatile_find_Some.
    assert (Hret : Volatile.retired (id d) (snd (Volatile.delete_item (Int (id d)) s))).
    { split.
      - unfold Volatile.delete_item. rewrite Hfind.
        cbn [snd Volatile.Id Volatile.emit Volatile.set_devices].
        rewrite volatile_Id_unlink_if_exists. by eapply (proj1 Hfresh).
      - intros j x Hj Hid.
        eapply (volatile_find_None _ _ Hgone j x Hj). by rewrite Hid. }
    apply (volatile_retired_steps _ _ _ Hsteps) in Hret.
    by apply volatile_get_absent, volatile_retired_absent.
  - intros o o' s i row s' Ho Ho' -> Hi Hkeys Hsteps.
    rewrite (persistent_delete_present i row o s Ho Hi) in Hsteps.
    cbn [snd] in Hsteps.
    assert (Hret : Persistent.retired i
              (Persistent.remove_if_exists (Persistent.col_photo row)
                 (Persistent.emit (RecordDeleted i)
                    (Persistent.set_items (delete i (Persistent.items s)) s)))).
    { unfold Persistent.remove_if_exists.
      destruct (Persistent.col_photo row) as [q|]; [destruct (truthy q && _)|];
        (split; cbn; [by eapply Hkeys|by rewrite lookup_delete_eq]). }
    apply (persistent_retired_steps _ _ _ Hsteps) in Hret as [_ Hnone].
    assert (Hfind : Persistent.find (Int i) s' = None)
      by (unfold Persistent.find; by rewrite Hnone).
    split.
    + rewrite persistent_get_item_healthy by done. by rewrite Hfind.
    + by apply persistent_get_photo_absent.
Qed.

(** Delete the laptop, register a phone, read the laptop's id again. *)
Lemma deleted_item_stays_absent_witness :
  fst (@Volatile.get_item (Int 1)
         (snd (@Volatile.app Sample.env (Sample.register (Some "Phone") None None)
                 (snd (@Volatile.delete_item (Int 1) Sample.volatile_laptop)))))
  = end_ 404 "No item with such ID"
  /\ fst (Persistent.run (@Persistent.get_item (Int 2)) []
            (snd (@Persistent.app Sample.env
                    (Sample.register (Some "Phone") None None) []
                    (snd (Persistent.run (@Persistent.delete_item (Int 2)) []
                            Sample.persistent_laptop)))))
     = end_ 404 "No item with such ID".
Proof.
  split.
  - refine (f_equal fst (proj1 (proj1 (@deleted_item_stays_absent Sample.env (Int 1))
              Sample.volatile_laptop 0%nat
              {| id := 1; inventory_name := "Laptop"; description := "Dell";
                 photo := Some Sample.pathA |} _ _ _ _))).
    + refine (proj1 (@volatile_reachable_invariant Sample.env
                       Sample.volatile_laptop _)).
      apply (@Volatile.reachable_step Sample.env
               (Sample.register (Some "Laptop") (Some "Dell") (Some Sample.photoA))
               (Volatile.init ∅)); [constructor|].
      intros f [= <-]. by_evaluation.
    + vm_compute. reflexivity.
    + apply (@Volatile.steps_step Sample.env). constructor.
  - refine (f_equal fst (proj1 (proj2 (@deleted_item_stays_absent Sample.env (Int 2))
              [] [] Sample.persistent_laptop 2
              {| Persistent.col_inventory_name := "Laptop";
                 Persistent.col_description := "Dell";
                 Persistent.col_photo := Some Sample.pathA |} _ _ _ _ _ _ _))).
    + constructor.
    + constructor.
    + reflexivity.
    + vm_compute. reflexivity.
    + refine (proj1 (@persistent_reachable_invariant Sample.env
                       Sample.persistent_laptop _)).
      apply (@Persistent.reachable_step Sample.env
               (Sample.register (Some "Laptop") (Some "Dell") (Some Sample.photoA))
               [] (Persistent.init ∅)); [constructor|].
      intros f [= <-]. by_evaluation.
    + apply (@Persistent.steps_step Sample.env _ []). constructor.
Defined.

(** ** Reads *)

Lemma volatile_app_read `{Env} r s :
  mutating r = false -> snd (Volatile.app r s) = s.
Proof.
  unfold mutating, Volatile.app. intros Hm. refused_or_routed.
  unfold Volatile.routes.
  destruct (req_route r) as [| |n|n| |], (req_method r);
    try discriminate; try done.
  all: unfold Volatile.get_item, Volatile.get_photo, Volatile.post_search.
  all: repeat case_match; done.
Qed.

Lemma persistent_app_read `{Env} r o s :
  mutating r = false -> snd (Persistent.app r o s) = s.
Proof.
  unfold mutating, Persistent.app. intros Hm. refused_or_routed.
  unfold Persistent.routes.
  destruct (req_route r) as [| |n|n| |], (req_method r);
    try discriminate; try done.
  all: first
    [ destruct (persistent_get_inventory_outcomes o s) as [[_ ->]|(? & _ & ->)]
    | destruct (persistent_get_item_outcomes n o s) as [(? & _ & ->)| ->]
    | destruct (persistent_get_photo_outcomes n o s) as [(? & _ & ->)| ->]
    | destruct (persistent_search_outcomes r o s) as [(? & _ & ->)| ->] ];
    done.
Qed.

(** A request that reaches none of the four writing handlers (Register,
    UpdateFields, Delete, ReplacePhoto) leaves the items, the id counter,
    the upload directory and the effect log exactly as they were: every
    read, every search, every 405 and every unrouted request, also when a
    query of the MySQL server rejects. *)
Theorem reads_change_nothing `{Env} (r : request) :
  mutating r = false ->
  (forall s, snd (Volatile.app r s) = s)
  /\ (forall o s, snd (Persistent.app r o s) = s).
Proof.
  intros Hm. split; intros; [by apply volatile_app_read|by apply persistent_app_read].
Qed.

(** POST /search for the laptop, while the database rejects the query. *)
Lemma reads_change_nothing_witness :
  snd (@Persistent.app Sample.env (Sample.search (Int 2)) [Some "ECONNRESET"]
         Sample.persistent_laptop)
  = Sample.persistent_laptop.
Proof.
  exact (proj2 (@reads_change_nothing Sample.env (Sample.search (Int 2)) eq_refl)
           [Some "ECONNRESET"] Sample.persistent_laptop).
Defined.

(** ** The other items *)

Lemma filter_insert_outside {A} (P : A -> Prop) `{!forall x, Decision (P x)}
    (l : list A) k x y :
  l !! k = Some x -> ~ P x -> ~ P y -> filter P (<[k := y]> l) = filter P l.
Proof.
  revert k. induction l as [|a l IH]; intros [|k] Hk Hx Hy; try done.
  - injection Hk as ->. change (<[0%nat := y]> (x :: l)) with (y :: l).
    by rewrite !filter_cons, !decide_False.
  - change (<[S k := y]> (a :: l)) with (a :: <[k := y]> l).
    rewrite !filter_cons. by rewrite (IH k).
Qed.

Lemma filter_delete_outside {A} (P : A -> Prop) `{!forall x, Decision (P x)}
    (l : list A) k x :
  l !! k = Some x -> ~ P x -> filter P (delete k l) = filter P l.
Proof.
  revert k. induction l as [|a l IH]; intros [|k] Hk Hx; try done.
  - injection Hk as ->. change (delete 0%nat (x :: l)) with l.
    by rewrite filter_cons, decide_False.
  - change (delete (S k) (a :: l)) with (a :: delete k l).
    rewrite !filter_cons. by rewrite (IH k).
Qed.

Lemma volatile_find_upload `{Env} n file s :
  Volatile.find n (Volatile.upload_single file s) = Volatile.find n s.
Proof. unfold Volatile.find. by rewrite volatile_devices_upload. Qed.

Lemma volatile_app_frame `{Env} r n s :
  addressed r = Some n ->
  filter (fun d => Int (id d) <> n) (Volatile.devices (snd (Volatile.app r s)))
  = filter (fun d => Int (id d) <> n) (Volatile.devices s).
Proof.
  intros Ha.
  destruct (mutating r) eqn:Hm; [|by rewrite volatile_app_read].
  unfold addressed in Ha. unfold mutating in Hm. unfold Volatile.app.
  refused_or_routed. unfold Volatile.routes.
  destruct (req_route r) as [| |m|m| |]; try discriminate;
    injection Ha as ->; destruct (req_method r); try discriminate.
  - (* PUT /inventory/:id *)
    destruct (Volatile.find n s) as [[k d]|] eqn:Hfind;
      [|by rewrite volatile_put_item_absent].
    destruct (volatile_put_item_present n r s k d Hfind)
      as (d' & -> & Hid & _).
    apply volatile_find_Some in Hfind as (Hk & -> & _). cbn.
    apply (filter_insert_outside _ _ k d d' Hk); [by intros []|].
    rewrite Hid. by intros [].
  - (* DELETE /inventory/:id *)
    unfold Volatile.delete_item.
    destruct (Volatile.find n s) as [[k d]|] eqn:Hfind; [|done].
    apply volatile_find_Some in Hfind as (Hk & -> & _). cbn.
    rewrite volatile_devices_unlink_if_exists.
    apply (filter_delete_outside _ _ k d Hk). by intros [].
  - (* PUT /inventory/:id/photo *)
    unfold Volatile.put_photo. rewrite volatile_find_upload.
    destruct (Volatile.find n s) as [[k d]|] eqn:Hfind;
      [|cbn [snd]; by rewrite volatile_devices_upload].
    destruct (req_file r) as [f|]; [|done].
    apply volatile_find_Some in Hfind as (Hk & -> & _). cbn.
    rewrite volatile_devices_unlink_if_exists.
    apply (filter_insert_outside _ _ k d _ Hk); by intros [].
Qed.

Lemma persistent_app_frame `{Env} r n o s j :
  addressed r = Some n -> Int j <> n ->
  Persistent.items (snd (Persistent.app r o s)) !! j = Persistent.items s !! j.
Proof.
  intros Ha Hj.
  destruct (mutating r) eqn:Hm; [|by rewrite persistent_app_read].
  unfold addressed in Ha. unfold mutating in Hm. unfold Persistent.app.
  refused_or_routed. unfold Persistent.routes.
  destruct (req_route r) as [| |m|m| |]; try discriminate;
    injection Ha as ->; destruct (req_method r); try discriminate.
  - destruct (persistent_put_item_outcomes n r o s)
      as [(? & _ & ->)|[[_ ->]|(i & row & -> & _ & [(? & _ & ->)| ->])]];
      try done; cbn; apply lookup_insert_ne; congruence.
  - destruct (persistent_delete_outcomes n o s)
      as [(? & _ & ->)|[[_ ->]|(i & row & -> & _ & ->)]]; try done.
    cbn [snd]. rewrite persistent_items_remove_if_exists. cbn.
    apply lookup_delete_ne. congruence.
  - destruct (req_file r) as [f|] eqn:Hf;
      [|by rewrite persistent_put_photo_no_file].
    destruct (persistent_put_photo_outcomes n r f o s Hf)
      as [(? & _ & ->)|[[_ ->]|(i & row & -> & _ & [(? & _ & ->)| ->])]];
      try done; cbn [snd]; unfold Persistent.photo_replaced;
      rewrite persistent_items_remove_if_exists; cbn;
      apply lookup_insert_ne; congruence.
Qed.

Lemma volatile_app_appends `{Env} r s :
  addressed r = None ->
  Volatile.devices s `prefix_of` Volatile.devices (snd (Volatile.app r s)).
Proof.
  intros Ha.
  destruct (mutating r) eqn:Hm; [|by rewrite volatile_app_read].
  unfold addressed in Ha. unfold mutating in Hm. unfold Volatile.app.
  refused_or_routed. unfold Volatile.routes.
  destruct (req_route r); try discriminate;
    destruct (req_method r); try discriminate.
  unfold Volatile.post_register. destruct (negb _ || _); cbn.
  - by rewrite volatile_devices_upload.
  - rewrite volatile_devices_upload. by apply prefix_app_r.
Qed.

Lemma persistent_app_inserts_register `{Env} r o s j :
  j <> Persistent.auto_increment s ->
  Persistent.items (snd (Persistent.run (Persistent.post_register r) o s)) !! j
  = Persistent.items s !! j.
Proof.
  intros Hj. destruct (persistent_register_outcomes r o s)
    as [[_ ->]|[(_ & _ & ->)|(_ & _ & ->)]]; cbn.
  1,2: by destruct (req_file r).
  rewrite lookup_insert_ne by done. by destruct (req_file r).
Qed.

Lemma persistent_app_inserts `{Env} r o s j :
  addressed r = None -> j <> Persistent.auto_increment s ->
  Persistent.items (snd (Persistent.app r o s)) !! j = Persistent.items s !! j.
Proof.
  intros Ha Hj.
  destruct (mutating r) eqn:Hm; [|by rewrite persistent_app_read].
  unfold addressed in Ha. unfold mutating in Hm. unfold Persistent.app.
  refused_or_routed. unfold Persistent.routes.
  destruct (req_route r); try discriminate;
    destruct (req_method r); try discriminate.
  destruct (persistent_register_outcomes r o s)
    as [[_ ->]|[(_ & _ & ->)|(_ & _ & ->)]]; cbn.
  1,2: by destruct (req_file r).
  rewrite lookup_insert_ne by done. by destruct (req_file r).
Qed.

(** A request addressed to one item (/inventory/:id, /inventory/:id/photo,
    any method, any outcome of the queries) leaves every other item as it
    was: in memory the other items keep their values and their order, in
    MySQL every other row is unchanged.  A request with no id in its path
    never changes or removes an existing item: in memory the list only
    grows at its end, in MySQL only the row of the next AUTO_INCREMENT key
    can change. *)
Theorem other_items_untouched `{Env} (r : request) :
  (forall n s,
     addressed r = Some n ->
     filter (fun d => Int (id d) <> n) (Volatile.devices (snd (Volatile.app r s)))
     = filter (fun d => Int (id d) <> n) (Volatile.devices s))
  /\ (forall n o s j,
        addressed r = Some n -> Int j <> n ->
        Persistent.items (snd (Persistent.app r o s)) !! j
        = Persistent.items s !! j)
  /\ (forall s,
        addressed r = None ->
        Volatile.devices s `prefix_of` Volatile.devices (snd (Volatile.app r s)))
  /\ (forall o s j,
        addressed r = None -> j <> Persistent.auto_increment s ->
        Persistent.items (snd (Persistent.app r o s)) !! j
        = Persistent.items s !! j).
Proof.
  split_and!.
  - intros n s. apply volatile_app_frame.
  - intros n o s j. apply persistent_app_frame.
  - intros s. apply volatile_app_appends.
  - intros o s j. apply persistent_app_inserts.
Qed.

(** Deleting the laptop (row 2) leaves the seeded row 1 alone; registering
    a phone leaves the laptop alone. *)
Lemma other_items_untouched_witness :
  Persistent.items
    (snd (@Persistent.app Sample.env (Sample.req DELETE (Item (Int 2))) []
            Sample.persistent_laptop)) !! 1
  = Persistent.items Sample.persistent_laptop !! 1
  /\ Persistent.items
       (snd (@Persistent.app Sample.env
               (Sample.register (Some "Phone") None None) []
               Sample.persistent_laptop)) !! 2
     = Persistent.items Sample.persistent_laptop !! 2.
Proof.
  split.
  - apply (proj1 (proj2 (@other_items_untouched Sample.env
                           (Sample.req DELETE (Item (Int 2)))))
             (Int 2) [] Sample.persistent_laptop 1); [reflexivity|discriminate].
  - apply (proj2 (proj2 (proj2 (@other_items_untouched Sample.env
                           (Sample.register (Some "Phone") None None))))
             [] Sample.persistent_laptop 2); [reflexivity|].
    vm_compute. discriminate.
Defined.

(** ** The upload directory *)

Lemma volatile_disk_upload `{Env} file s :
  Volatile.disk (Volatile.upload_single file s)
  = match file with
    | Some f => {[file_path f]} ∪ Volatile.disk s
    | None => Volatile.disk s
    end.
Proof. by destruct file. Qed.

Lemma volatile_disk_unlink_if_exists ref s :
  Volatile.disk (Volatile.unlink_if_exists ref s) = Volatile.disk s
  \/ exists q, ref = Some q
       /\ Volatile.disk (Volatile.unlink_if_exists ref s) = Volatile.disk s ∖ {[q]}.
Proof.
  destruct ref as [q|]; [|by left]. unfold Volatile.unlink_if_exists.
  destruct (truthy q && _); [right; by exists q|by left].
Qed.

Lemma persistent_disk_remove_if_exists ref s :
  Persistent.disk (Persistent.remove_if_exists ref s) = Persistent.disk s
  \/ exists q, ref = Some q
       /\ Persistent.disk (Persistent.remove_if_exists ref s)
          = Persistent.disk s ∖ {[q]}.
Proof.
  destruct ref as [q|]; [|by left]. unfold Persistent.remove_if_exists.
  destruct (truthy q && _); [right; by exists q|by left].
Qed.

Lemma volatile_app_disk `{Env} r p s :
  (p ∈ Volatile.disk (snd (Volatile.app r s)) ->
   p ∈ Volatile.disk s \/ exists f, req_file r = Some f /\ p = file_path f)
  /\ (p ∈ Volatile.disk s -> p ∉ Volatile.disk (snd (Volatile.app r s)) ->
      exists n k d,
        addressed r = Some n /\ Volatile.find n s = Some (k, d)
        /\ photo d = Some p).
Proof.
  destruct (mutating r) eqn:Hm; [|rewrite volatile_app_read by done; tauto].
  unfold addressed. unfold mutating in Hm. unfold Volatile.app.
  refused_or_routed. unfold Volatile.routes.
  destruct (req_route r) as [| |n|n| |]; try discriminate;
    destruct (req_method r); try discriminate.
  - (* POST /register *)
    assert (Hd : Volatile.disk (snd (Volatile.post_register r s))
                 = Volatile.disk (Volatile.upload_single (req_file r) s)).
    { unfold Volatile.post_register. by destruct (negb _ || _). }
    rewrite Hd, volatile_disk_upload. destruct (req_file r) as [f|].
    + split; [|set_solver]. intros [->%elem_of_singleton|]%elem_of_union; eauto.
    + tauto.
  - (* PUT /inventory/:id *)
    assert (Hd : Volatile.disk (snd (Volatile.put_item n r s)) = Volatile.disk s).
    { unfold Volatile.put_item. by destruct (Volatile.find n s) as [[]|]. }
    rewrite Hd. tauto.
  - (* DELETE /inventory/:id *)
    unfold Volatile.delete_item.
    destruct (Volatile.find n s) as [[k d]|] eqn:Hfind; cbn; [|tauto].
    destruct (volatile_disk_unlink_if_exists (photo d) s)
      as [->|(q & Hq & ->)]; [tauto|].
    split; [set_solver|]. intros Hp Hgone. exists n, k, d.
    split_and!; [done..|]. rewrite Hq. f_equal.
    destruct (decide (p = q)); [done|set_solver].
  - (* PUT /inventory/:id/photo *)
    unfold Volatile.put_photo. rewrite volatile_find_upload.
    destruct (Volatile.find n s) as [[k d]|] eqn:Hfind; cbn [snd].
    2:{ rewrite volatile_disk_upload. destruct (req_file r) as [f|]; [|tauto].
        split; [|set_solver].
        intros [->%elem_of_singleton|]%elem_of_union; eauto. }
    destruct (req_file r) as [f|]; cbn; [|tauto].
    destruct (volatile_disk_unlink_if_exists (photo d)
                (Volatile.store_blob (file_path f) s)) as [->|(q & Hq & ->)]; cbn.
    + split; [|set_solver].
      intros [->%elem_of_singleton|]%elem_of_union; eauto.
    + split.
      * intros [[->%elem_of_singleton|]%elem_of_union _]%elem_of_difference; eauto.
      * intros Hp Hgone. exists n, k, d. split_and!; [done..|].
        rewrite Hq. f_equal. destruct (decide (p = q)); [done|set_solver].
Qed.

Lemma persistent_app_disk `{Env} r p o s :
  (p ∈ Persistent.disk (snd (Persistent.app r o s)) ->
   p ∈ Persistent.disk s \/ exists f, req_file r = Some f /\ p = file_path f)
  /\ (p ∈ Persistent.disk s -> p ∉ Persistent.disk (snd (Persistent.app r o s)) ->
      (exists i row,
         addressed r = Some (Int i) /\ Persistent.items s !! i = Some row
         /\ Persistent.col_photo row = Some p)
      \/ (exists f, req_file r = Some f /\ p = file_path f)).
Proof.
  destruct (mutating r) eqn:Hm; [|rewrite persistent_app_read by done; tauto].
  unfold addressed. unfold mutating in Hm. unfold Persistent.app.
  refused_or_routed. unfold Persistent.routes.
  destruct (req_route r) as [| |n|n| |]; try discriminate;
    destruct (req_method r); try discriminate.
  - (* POST /register *)
    assert (Hd : Persistent.disk (snd (Persistent.run (Persistent.post_register r) o s))
                 = match req_file r with
                   | Some f => {[file_path f]} ∪ Persistent.disk s
                   | None => Persistent.disk s
                   end).
    { destruct (persistent_register_outcomes r o s)
        as [[_ ->]|[(_ & _ & ->)|(_ & _ & ->)]]; by destruct (req_file r). }
    rewrite Hd. destruct (req_file r) as [f|]; [|tauto].
    split; [|set_solver]. intros [->%elem_of_singleton|]%elem_of_union; eauto.
  - (* PUT /inventory/:id *)
    assert (Hd : Persistent.disk (snd (Persistent.run (Persistent.put_item n r) o s))
                 = Persistent.disk s).
    { by destruct (persistent_put_item_outcomes n r o s)
        as [(? & _ & ->)|[[_ ->]|(i & row & -> & _ & [(? & _ & ->)| ->])]]. }
    rewrite Hd. tauto.
  - (* DELETE /inventory/:id *)
    destruct (persistent_delete_outcomes n o s)
      as [(? & _ & ->)|[[_ ->]|(i & row & -> & Hi & ->)]]; [tauto..|].
    cbn [snd].
    match goal with |- context [Persistent.remove_if_exists ?ref ?s0] =>
      destruct (persistent_disk_remove_if_exists ref s0) as [->|(q & Hq & ->)]
    end; cbn; [tauto|].
    split; [set_solver|]. intros Hp Hgone. left. exists i, row.
    split_and!; [done..|]. rewrite Hq. f_equal.
    destruct (decide (p = q)); [done|set_solver].
  - (* PUT /inventory/:id/photo *)
    destruct (req_file r) as [f|] eqn:Hf;
      [|rewrite persistent_put_photo_no_file by done; tauto].
    destruct (persistent_put_photo_outcomes n r f o s Hf)
      as [(? & _ & ->)|[[_ ->]|(i & row & -> & Hi & Hrun)]]; cbn.
    + split; [|set_solver].
      intros [->%elem_of_singleton|]%elem_of_union; eauto.
    + split; [set_solver|]. intros Hp Hgone. right. exists f. split; [done|].
      destruct (decide (p = file_path f)); [done|set_solver].
    + assert (Hs' : snd (Persistent.run (Persistent.put_photo (Int i) r) o s)
                    = Persistent.photo_replaced i row (file_path f) s).
      { by destruct Hrun as [(? & _ & ->)| ->]. }
      rewrite Hs'. unfold Persistent.photo_replaced.
      match goal with |- context [Persistent.remove_if_exists ?ref ?s0] =>
        destruct (persistent_disk_remove_if_exists ref s0) as [->|(q & Hq & ->)]
      end; cbn.
      * split; [|set_solver].
        intros [->%elem_of_singleton|]%elem_of_union; eauto.
      * split.
        -- intros [[->%elem_of_singleton|]%elem_of_union _]%elem_of_difference;
             eauto.
        -- intros Hp Hgone. left. exists i, row. split_and!; [done..|].
           rewrite Hq. f_equal. destruct (decide (p = q)); [done|set_solver].
Qed.

(** The only file a request can add to the upload directory is its own
    upload, and the only file it can remove is the photo of the item its
    path addresses (in the MySQL variant also its own upload, on the 404
    path of ReplacePhoto): the photos of the other items are never
    touched, whatever the outcome of the queries. *)
Theorem files_touched `{Env} (r : request) (p : string) :
  (forall s,
     (p ∈ Volatile.disk (snd (Volatile.app r s)) ->
      p ∈ Volatile.disk s \/ exists f, req_file r = Some f /\ p = file_path f)
     /\ (p ∈ Volatile.disk s -> p ∉ Volatile.disk (snd (Volatile.app r s)) ->
         exists n k d,
           addressed r = Some n /\ Volatile.find n s = Some (k, d)
           /\ photo d = Some p))
  /\ (forall o s,
        (p ∈ Persistent.disk (snd (Persistent.app r o s)) ->
         p ∈ Persistent.disk s \/ exists f, req_file r = Some f /\ p = file_path f)
        /\ (p ∈ Persistent.disk s ->
            p ∉ Persistent.disk (snd (Persistent.app r o s)) ->
            (exists i row,
               addressed r = Some (Int i) /\ Persistent.items s !! i = Some row
               /\ Persistent.col_photo row = Some p)
            \/ (exists f, req_file r = Some f /\ p = file_path f))).
Proof.
  split; [intros s; apply volatile_app_disk|intros o s; apply persistent_app_disk].
Qed.

(** Deleting the laptop removes photo A from the upload directory, and
    photo A is the photo of the addressed item. *)
Lemma files_touched_witness :
  exists n k d,
    addressed (Sample.req DELETE (Item (Int 1))) = Some n
    /\ Volatile.find n Sample.volatile_laptop = Some (k, d)
    /\ photo d = Some Sample.pathA.
Proof.
  apply (proj2 (proj1 (@files_touched Sample.env
                         (Sample.req DELETE (Item (Int 1))) Sample.pathA)
                  Sample.volatile_laptop)); by_evaluation.
Defined.

(** ** Requests answered 500 *)

Lemma persistent_healthy_no_message o msg :
  Persistent.healthy o -> Some msg ∉ o.
Proof.
  unfold Persistent.healthy. rewrite Forall_forall. intros Ho Hin.
  by specialize (Ho _ Hin).
Qed.

(** When a query of the MySQL server rejects, the handler answers 500 and
    what the client sees depends on the route: GetById, UpdateFields,
    Delete, ReplacePhoto and SearchById relay the driver's [err.message]
    verbatim in [{error: msg}], Register and the list answer
    [{error: 'Database error'}], GetPhoto sends no body.  This holds for
    the first query of each handler and for the write that follows the
    first SELECT of UpdateFields, Delete and ReplacePhoto; the state is
    as before the request, except that the upload multer wrote stays on
    disk. *)
Theorem rejected_queries_are_relayed `{Env}
    (n : jsnum) (r : request) (msg : string) (o : Persistent.oracle)
    (s : Persistent.state) :
  let uploaded :=
    match req_file r with
    | Some f => Persistent.store_blob (file_path f) s
    | None => s
    end in
  (Persistent.run (Persistent.get_item n) (Some msg :: o) s = (server_error msg, s)
   /\ Persistent.run (Persistent.put_item n r) (Some msg :: o) s
      = (server_error msg, s)
   /\ Persistent.run (Persistent.delete_item n) (Some msg :: o) s
      = (server_error msg, s)
   /\ Persistent.run (Persistent.get_photo n) (Some msg :: o) s
      = ({| status := 500; headers := []; payload := NoBody |}, s)
   /\ Persistent.run Persistent.get_inventory (Some msg :: o) s
      = (server_error "Database error", s)
   /\ (body_id r <> NaN ->
       Persistent.run (Persistent.post_search r) (Some msg :: o) s
       = (server_error msg, s))
   /\ (is_Some (req_file r) ->
       Persistent.run (Persistent.put_photo n r) (Some msg :: o) s
       = (server_error msg, uploaded))
   /\ (~ blank (body_inventory_name r) ->
       Persistent.run (Persistent.post_register r) (Some msg :: o) s
       = (server_error "Database error", uploaded)))
  /\ (forall i row,
        n = Int i -> Persistent.items s !! i = Some row ->
        (truthy_opt (body_inventory_name r) || truthy_opt (body_description r)
         = true ->
         Persistent.run (Persistent.put_item n r) (None :: Some msg :: o) s
         = (server_error msg, s))
        /\ Persistent.run (Persistent.delete_item n) (None :: Some msg :: o) s
           = (server_error msg, s)
        /\ (is_Some (req_file r) ->
            Persistent.run (Persistent.put_photo n r) (None :: Some msg :: o) s
            = (server_error msg, uploaded))).
Proof.
  cbv zeta. split.
  - apply persistent_first_query_rejected.
  - intros i row -> Hi. by apply (persistent_write_rejected i row).
Qed.

(** Deleting the laptop while the connection drops, before and after the
    row was read. *)
Lemma rejected_queries_are_relayed_witness :
  Persistent.run (Persistent.delete_item (Int 2)) [Some "ECONNRESET"]
    Sample.persistent_laptop
  = (json_ 500 (JObj [("error", JStr "ECONNRESET")]), Sample.persistent_laptop)
  /\ Persistent.run (Persistent.delete_item (Int 2)) [None; Some "ECONNRESET"]
       Sample.persistent_laptop
     = (json_ 500 (JObj [("error", JStr "ECONNRESET")]),
        Sample.persistent_laptop).
Proof.
  split.
  - apply (@rejected_queries_are_relayed Sample.env (Int 2)
             (Sample.req DELETE (Item (Int 2))) "ECONNRESET" []
             Sample.persistent_laptop).
  - apply (proj2 (@rejected_queries_are_relayed Sample.env (Int 2)
                    (Sample.req DELETE (Item (Int 2))) "ECONNRESET" []
                    Sample.persistent_laptop) 2
             {| Persistent.col_inventory_name := "Laptop";
                Persistent.col_description := "Dell";
                Persistent.col_photo := Some Sample.pathA |});
      reflexivity.
Defined.



(** ** UpdateFields, twice *)

Lemma volatile_put_item_again n r s :
  Volatile.put_item n r (snd (Volatile.put_item n r s)) = Volatile.put_item n r s.
Proof.
  destruct (Volatile.find n s) as [[k d]|] eqn:Hfind.
  2:{ rewrite (volatile_put_item_absent _ _ _ Hfind). cbn [snd].
      by apply volatile_put_item_absent. }
  unfold Volatile.put_item. rewrite Hfind.
  destruct (truthy_opt (body_inventory_name r)),
    (truthy_opt (body_description r)); cbn [snd id inventory_name description photo].
  all: erewrite volatile_find_insert by (try eassumption; done).
  all: cbn; unfold Volatile.set_devices; cbn.
  all: rewrite list_insert_insert_eq; try done.
  all: by destruct d.
Qed.

Lemma volatile_put_item_nothing n r s :
  truthy_opt (body_inventory_name r) = false ->
  truthy_opt (body_description r) = false ->
  snd (Volatile.put_item n r s) = s.
Proof.
  intros Hn Hd. unfold Volatile.put_item. rewrite Hn, Hd.
  destruct (Volatile.find n s) as [[k d]|] eqn:Hfind; [|done].
  apply volatile_find_Some in Hfind as (Hk & _). cbn.
  rewrite list_insert_id by done. by destruct s.
Qed.

Lemma persistent_put_item_again n r o o' s :
  Persistent.healthy o -> Persistent.healthy o' ->
  Persistent.run (Persistent.put_item n r) o'
    (snd (Persistent.run (Persistent.put_item n r) o s))
  = Persistent.run (Persistent.put_item n r) o s.
Proof.
  intros Ho Ho'.
  destruct (Persistent.find n s) as [d|] eqn:Hfind.
  2:{ rewrite (persistent_put_item_absent n r o s Ho Hfind). cbn [snd].
      by apply persistent_put_item_absent. }
  apply persistent_find_Some in Hfind as (i & row & -> & Hi & _).
  rewrite (persistent_put_item_present i row r o s Ho Hi). cbn [snd].
  erewrite persistent_put_item_present;
    [|done|cbn; by rewrite lookup_insert_eq].
  cbn. unfold Persistent.set_items. cbn. rewrite insert_insert_eq.
  by destruct (truthy_opt (body_inventory_name r)),
    (truthy_opt (body_description r)).
Qed.

Lemma persistent_put_item_nothing n r o s :
  truthy_opt (body_inventory_name r) = false ->
  truthy_opt (body_description r) = false ->
  snd (Persistent.run (Persistent.put_item n r) o s) = s.
Proof.
  intros Hn Hd.
  assert (Hsame : forall i row,
            Persistent.items s !! i = Some row ->
            Persistent.set_items
              (<[i := Persistent.update_row r row]> (Persistent.items s)) s = s).
  { intros i row Hi. unfold Persistent.set_items, Persistent.update_row,
      partial_update. rewrite Hn, Hd.
    rewrite insert_id; [by destruct s|]. by destruct row. }
  destruct (persistent_put_item_outcomes n r o s)
    as [(? & _ & ->)|[[_ ->]|(i & row & -> & Hi & [(? & _ & ->)| ->])]];
    cbn [snd]; eauto.
Qed.

(** UpdateFields is idempotent: sending the same PUT /inventory/:id again
    gives the same response and leaves the same state (MySQL variant: when
    the queries of both requests run).  A body with no name and no
    description, or with empty ones, changes nothing at all, whatever the
    queries do. *)
Theorem update_fields_idempotent (n : jsnum) (r : request) :
  (forall s,
     Volatile.put_item n r (snd (Volatile.put_item n r s))
     = Volatile.put_item n r s)
  /\ (forall o o' s,
        Persistent.healthy o -> Persistent.healthy o' ->
        Persistent.run (Persistent.put_item n r) o'
          (snd (Persistent.run (Persistent.put_item n r) o s))
        = Persistent.run (Persistent.put_item n r) o s)
  /\ (truthy_opt (body_inventory_name r) = false ->
      truthy_opt (body_description r) = false ->
      (forall s, snd (Volatile.put_item n r s) = s)
      /\ (forall o s, snd (Persistent.run (Persistent.put_item n r) o s) = s)).
Proof.
  split_and!.
  - intros s. apply volatile_put_item_again.
  - intros o o' s. apply persistent_put_item_again.
  - intros Hn Hd. split.
    + intros s. by apply volatile_put_item_nothing.
    + intros o s. by apply persistent_put_item_nothing.
Qed.

(** Renaming the laptop twice on the MySQL server; an empty update while
    the connection drops. *)
Lemma update_fields_idempotent_witness :
  Persistent.run
    (@Persistent.put_item (Int 2)
       (Sample.update 2 (Some "Notebook") None))
    []
    (snd (Persistent.run
            (@Persistent.put_item (Int 2)
               (Sample.update 2 (Some "Notebook") None))
            [] Sample.persistent_laptop))
  = Persistent.run
      (@Persistent.put_item (Int 2)
         (Sample.update 2 (Some "Notebook") None))
      [] Sample.persistent_laptop
  /\ snd (Persistent.run
            (@Persistent.put_item (Int 2)
               (Sample.update 2 (Some "") None))
            [None; Some "ECONNRESET"] Sample.persistent_laptop)
     = Sample.persistent_laptop.
Proof.
  split.
  - apply (proj1 (proj2 (@update_fields_idempotent (Int 2)
                           (Sample.update 2 (Some "Notebook") None))));
      constructor.
  - apply (proj2 (proj2 (proj2 (@update_fields_idempotent (Int 2)
                                  (Sample.update 2 (Some "") None)))
                    eq_refl eq_refl)).
Defined.

(** ** GetPhoto *)

Lemma volatile_get_photo_present n s k d p :
  Volatile.consistent s -> Volatile.find n s = Some (k, d) -> photo d = Some p ->
  Volatile.get_photo n s
  = ({| status := 200; headers := [("Content-Type", "image/jpeg")];
        payload := SendFile p |}, s).
Proof.
  intros (Hdisk & _ & Htruthy) Hfind Hp. unfold Volatile.get_photo.
  rewrite Hfind, Hp. apply volatile_find_Some in Hfind as (Hk & _).
  cbn. rewrite (Htruthy _ _ _ Hk Hp). unfold Volatile.existsSync.
  by rewrite bool_decide_true by eauto.
Qed.

Lemma volatile_get_photo_200 n s :
  status (fst (Volatile.get_photo n s)) = 200 ->
  exists k d p,
    Volatile.find n s = Some (k, d) /\ photo d = Some p /\ p ∈ Volatile.disk s
    /\ Volatile.get_photo n s
       = ({| status := 200; headers := [("Content-Type", "image/jpeg")];
             payload := SendFile p |}, s).
Proof.
  unfold Volatile.get_photo.
  destruct (Volatile.find n s) as [[k d]|]; [|done].
  destruct (photo d) as [p|] eqn:Hp; cbn; [|done].
  unfold Volatile.existsSync. destruct (truthy p); cbn; [|done].
  case_bool_decide; cbn; [|done]. intros _. exists k, d, p. by rewrite Hp.
Qed.

Lemma persistent_get_photo_present i row p o s :
  Persistent.healthy o -> Persistent.consistent s ->
  Persistent.items s !! i = Some row -> Persistent.col_photo row = Some p ->
  Persistent.run (Persistent.get_photo (Int i)) o s
  = ({| status := 200; headers := [("Content-Type", "image/jpeg")];
        payload := SendFile p |}, s).
Proof.
  intros Ho (Hdisk & _ & Htruthy) Hi Hp.
  destruct (persistent_get_photo_outcomes (Int i) o s) as [(msg & Hin & _)| ->].
  { by apply persistent_healthy_no_message in Hin. }
  unfold Persistent.find. rewrite Hi. cbn. rewrite Hp. cbn.
  rewrite (Htruthy _ _ _ Hi Hp). by rewrite bool_decide_true by eauto.
Qed.

Lemma persistent_get_photo_200 n o s :
  status (fst (Persistent.run (Persistent.get_photo n) o s)) = 200 ->
  exists i row p,
    n = Int i /\ Persistent.items s !! i = Some row
    /\ Persistent.col_photo row = Some p /\ p ∈ Persistent.disk s
    /\ Persistent.run (Persistent.get_photo n) o s
       = ({| status := 200; headers := [("Content-Type", "image/jpeg")];
             payload := SendFile p |}, s).
Proof.
  destruct (persistent_get_photo_outcomes n o s) as [(msg & _ & ->)| ->];
    [done|].
  destruct (Persistent.find n s) as [d|] eqn:Hfind; [|done].
  apply persistent_find_Some in Hfind as (i & row & -> & Hi & ->). cbn.
  destruct (Persistent.col_photo row) as [p|] eqn:Hp; cbn; [|done].
  destruct (truthy p); cbn; [|done].
  case_bool_decide; cbn; [|done]. intros _. by exists i, row, p.
Qed.

(** GetPhoto sends exactly the file the item refers to.  In a state with
    sound photo references (every reachable state) an item that has a
    photo reference is always answered 200 with [Content-Type: image/jpeg]
    and the referenced file (MySQL variant: when the query runs); and a
    200 answer always carries a file that is on disk and is the addressed
    item's photo. *)
Theorem get_photo_sends_the_referenced_file (n : jsnum) :
  (forall s k d p,
     Volatile.consistent s -> Volatile.find n s = Some (k, d) ->
     photo d = Some p ->
     Volatile.get_photo n s
     = ({| status := 200; headers := [("Content-Type", "image/jpeg")];
           payload := SendFile p |}, s))
  /\ (forall s,
        status (fst (Volatile.get_photo n s)) = 200 ->
        exists k d p,
          Volatile.find n s = Some (k, d) /\ photo d = Some p
          /\ p ∈ Volatile.disk s
          /\ Volatile.get_photo n s
             = ({| status := 200; headers := [("Content-Type", "image/jpeg")];
                   payload := SendFile p |}, s))
  /\ (forall o s i row p,
        Persistent.healthy o -> Persistent.consistent s -> n = Int i ->
        Persistent.items s !! i = Some row -> Persistent.col_photo row = Some p ->
        Persistent.run (Persistent.get_photo n) o s
        = ({| status := 200; headers := [("Content-Type", "image/jpeg")];
              payload := SendFile p |}, s))
  /\ (forall o s,
        status (fst (Persistent.run (Persistent.get_photo n) o s)) = 200 ->
        exists i row p,
          n = Int i /\ Persistent.items s !! i = Some row
          /\ Persistent.col_photo row = Some p /\ p ∈ Persistent.disk s
          /\ Persistent.run (Persistent.get_photo n) o s
             = ({| status := 200; headers := [("Content-Type", "image/jpeg")];
                   payload := SendFile p |}, s)).
Proof.
  split_and!.
  - intros s k d p. apply volatile_get_photo_present.
  - intros s. apply volatile_get_photo_200.
  - intros o s i row p Ho Hc ->. by apply persistent_get_photo_present.
  - intros o s. apply persistent_get_photo_200.
Qed.

(** The photo of the laptop, on both servers. *)
Lemma get_photo_sends_the_referenced_file_witness :
  Volatile.get_photo (Int 1) Sample.volatile_laptop
  = ({| status := 200; headers := [("Content-Type", "image/jpeg")];
        payload := SendFile Sample.pathA |}, Sample.volatile_laptop)
  /\ Persistent.run (Persistent.get_photo (Int 2)) [] Sample.persistent_laptop
     = ({| status := 200; headers := [("Content-Type", "image/jpeg")];
           payload := SendFile Sample.pathA |}, Sample.persistent_laptop).
Proof.
  split.
  - apply (proj1 (get_photo_sends_the_referenced_file (Int 1))
             Sample.volatile_laptop 0%nat
             {| id := 1; inventory_name := "Laptop"; description := "Dell";
                photo := Some Sample.pathA |} Sample.pathA);
      [|reflexivity|reflexivity].
    refine (proj2 (@volatile_reachable_invariant Sample.env
                     Sample.volatile_laptop _)).
    apply (@Volatile.reachable_step Sample.env
             (Sample.register (Some "Laptop") (Some "Dell") (Some Sample.photoA))
             (Volatile.init ∅)); [constructor|].
    intros f [= <-]. by_evaluation.
  - apply (proj1 (proj2 (proj2 (get_photo_sends_the_referenced_file (Int 2))))
             [] Sample.persistent_laptop 2
             {| Persistent.col_inventory_name := "Laptop";
                Persistent.col_description := "Dell";
                Persistent.col_photo := Some Sample.pathA |} Sample.pathA);
      [constructor| |reflexivity|reflexivity|reflexivity].
    refine (proj2 (@persistent_reachable_invariant Sample.env
                     Sample.persistent_laptop _)).
    apply (@Persistent.reachable_step Sample.env
             (Sample.register (Some "Laptop") (Some "Dell") (Some Sample.photoA))
             [] (Persistent.init ∅)); [constructor|].
    intros f [= <-]. by_evaluation.
Defined.

(** ** An uploaded photo, read back *)

Lemma volatile_find_appended d s s' :
  Volatile.ids_fresh s -> id d = Volatile.Id s ->
  Volatile.devices s' = Volatile.devices s ++ [d] ->
  Volatile.find (Int (Volatile.Id s)) s' = Some (length (Volatile.devices s), d).
Proof.
  intros [Hbelow _] Hid Hdev.
  unfold Volatile.find. rewrite Hdev. apply list_find_Some. split_and!.
  - by apply list_lookup_middle.
  - by rewrite Hid.
  - intros j y Hj Hlt. rewrite lookup_app_l in Hj by done.
    apply Hbelow in Hj. intros [= Hy]. lia.
Qed.

Lemma volatile_register_then_get_photo `{Env} r f s :
  Volatile.consistent s -> Volatile.ids_fresh s -> Volatile.fresh_upload r s ->
  ~ blank (body_inventory_name r) -> req_file r = Some f ->
  Volatile.get_photo (Int (Volatile.Id s)) (snd (Volatile.post_register r s))
  = ({| status := 200; headers := [("Content-Type", "image/jpeg")];
        payload := SendFile (file_path f) |}, snd (Volatile.post_register r s)).
Proof.
  intros Hc Hids Hfresh Hb Hf.
  pose proof (volatile_consistent_register r s Hc Hfresh) as Hc'.
  destruct (volatile_register_valid r s Hb) as (d & Hrun & Hid & _ & Hp).
  rewrite Hrun in *. cbn [snd] in *.
  eapply volatile_get_photo_present;
    [done|eapply (volatile_find_appended d s _ Hids Hid); reflexivity|].
  by rewrite Hp, Hf.
Qed.

Lemma volatile_replace_then_get_photo `{Env} n r f s k d :
  Volatile.consistent s -> Volatile.fresh_upload r s ->
  Volatile.find n s = Some (k, d) -> req_file r = Some f ->
  Volatile.get_photo n (snd (Volatile.put_photo n r s))
  = ({| status := 200; headers := [("Content-Type", "image/jpeg")];
        payload := SendFile (file_path f) |}, snd (Volatile.put_photo n r s)).
Proof.
  intros Hc Hfresh Hfind Hf.
  pose proof (volatile_consistent_put_photo n r s Hc Hfresh) as Hc'.
  destruct (volatile_put_photo_present n r s k d f Hfind Hf) as (_ & Hdev & _).
  eapply volatile_get_photo_present;
    [done
    |eapply (volatile_find_updated n s _ k d _ Hfind); [|exact Hdev]; reflexivity
    |done].
Qed.

Lemma persistent_register_then_get_photo `{Env} r f o o' s :
  Persistent.healthy o -> Persistent.healthy o' ->
  Persistent.consistent s -> Persistent.keys_below s ->
  Persistent.fresh_upload r s ->
  ~ blank (body_inventory_name r) -> req_file r = Some f ->
  Persistent.run (Persistent.get_photo (Int (Persistent.auto_increment s))) o'
    (snd (Persistent.run (Persistent.post_register r) o s))
  = ({| status := 200; headers := [("Content-Type", "image/jpeg")];
        payload := SendFile (file_path f) |},
     snd (Persistent.run (Persistent.post_register r) o s)).
Proof.
  intros Ho Ho' Hc Hkeys Hfresh Hb Hf.
  pose proof (persistent_consistent_register r o s Hc Hfresh) as Hc'.
  assert (Hfree : Persistent.items s !! Persistent.auto_increment s = None).
  { destruct (Persistent.items s !! Persistent.auto_increment s) eqn:Hi; [|done].
    apply Hkeys in Hi. lia. }
  pose proof (persistent_register_healthy r o s Ho Hb Hfree) as H201.
  destruct (persistent_register_created r o s H201) as [_ Hfind].
  apply persistent_find_Some in Hfind as (i & row & [= <-] & Hi & Hrow).
  eapply persistent_get_photo_present; [done..|].
  apply (f_equal photo) in Hrow. cbn in Hrow. by rewrite <- Hrow, Hf.
Qed.

Lemma persistent_replace_then_get_photo `{Env} i row r f o o' s :
  Persistent.healthy o -> Persistent.healthy o' ->
  Persistent.consistent s -> Persistent.fresh_upload r s ->
  Persistent.items s !! i = Some row -> req_file r = Some f ->
  Persistent.run (Persistent.get_photo (Int i)) o'
    (snd (Persistent.run (Persistent.put_photo (Int i) r) o s))
  = ({| status := 200; headers := [("Content-Type", "image/jpeg")];
        payload := SendFile (file_path f) |},
     snd (Persistent.run (Persistent.put_photo (Int i) r) o s)).
Proof.
  intros Ho Ho' Hc Hfresh Hi Hf.
  pose proof (persistent_consistent_put_photo (Int i) r o s Hc Hfresh) as Hc'.
  pose proof (persistent_put_photo_healthy i row r f o s Ho Hf Hi) as H200.
  destruct (persistent_put_photo_success _ _ _ _ H200)
    as (f' & i' & row' & Hf' & [= <-] & Hi' & Hrun).
  rewrite Hf in Hf'. injection Hf' as <-. rewrite Hrun in *. cbn [snd] in *.
  eapply persistent_get_photo_present; [done..| |].
  - unfold Persistent.photo_replaced.
    rewrite persistent_items_remove_if_exists. cbn. apply lookup_insert_eq.
  - done.
Qed.

(** A photo uploaded with Register or ReplacePhoto is the file GetPhoto
    sends next: starting from a state with sound references, with the
    upload stored under a fresh name, GetPhoto of the new id (Register) or
    of the addressed item (ReplacePhoto) answers 200 with the uploaded
    file.  (In memory: ids below the counter; MySQL: keys below the
    counter and the queries of both requests run.) *)
Theorem uploaded_photo_is_served `{Env} (r : request) (f : upload) :
  req_file r = Some f ->
  (forall s,
     Volatile.consistent s -> Volatile.ids_fresh s -> Volatile.fresh_upload r s ->
     ~ blank (body_inventory_name r) ->
     fst (Volatile.get_photo (Int (Volatile.Id s))
            (snd (Volatile.post_register r s)))
     = {| status := 200; headers := [("Content-Type", "image/jpeg")];
          payload := SendFile (file_path f) |})
  /\ (forall n s k d,
        Volatile.consistent s -> Volatile.fresh_upload r s ->
        Volatile.find n s = Some (k, d) ->
        fst (Volatile.get_photo n (snd (Volatile.put_photo n r s)))
        = {| status := 200; headers := [("Content-Type", "image/jpeg")];
             payload := SendFile (file_path f) |})
  /\ (forall o o' s,
        Persistent.healthy o -> Persistent.healthy o' ->
        Persistent.consistent s -> Persistent.keys_below s ->
        Persistent.fresh_upload r s -> ~ blank (body_inventory_name r) ->
        fst (Persistent.run
               (Persistent.get_photo (Int (Persistent.auto_increment s))) o'
               (snd (Persistent.run (Persistent.post_register r) o s)))
        = {| status := 200; headers := [("Content-Type", "image/jpeg")];
             payload := SendFile (file_path f) |})
  /\ (forall o o' s i row,
        Persistent.healthy o -> Persistent.healthy o' ->
        Persistent.consistent s -> Persistent.fresh_upload r s ->
        Persistent.items s !! i = Some row ->
        fst (Persistent.run (Persistent.get_photo (Int i)) o'
               (snd (Persistent.run (Persistent.put_photo (Int i) r) o s)))
        = {| status := 200; headers := [("Content-Type", "image/jpeg")];
             payload := SendFile (file_path f) |}).
Proof.
  intros Hf. split_and!.
  - intros s Hc Hids Hfresh Hb.
    by rewrite (volatile_register_then_get_photo r f s).
  - intros n s k d Hc Hfresh Hfind.
    by rewrite (volatile_replace_then_get_photo n r f s k d).
  - intros o o' s Ho Ho' Hc Hkeys Hfresh Hb.
    by rewrite (persistent_register_then_get_photo r f o o' s).
  - intros o o' s i row Ho Ho' Hc Hfresh Hi.
    by rewrite (persistent_replace_then_get_photo i row r f o o' s).
Qed.

(** Replacing the laptop's photo by photo B on the MySQL server, then
    downloading it. *)
Lemma uploaded_photo_is_served_witness :
  fst (Persistent.run (Persistent.get_photo (Int 2)) []
         (snd (Persistent.run
                 (@Persistent.put_photo Sample.env (Int 2)
                    (Sample.replace_photo (Int 2) (Some Sample.photoB)))
                 [] Sample.persistent_laptop)))
  = {| status := 200; headers := [("Content-Type", "image/jpeg")];
       payload := SendFile Sample.pathB |}.
Proof.
  apply (proj2 (proj2 (proj2 (@uploaded_photo_is_served Sample.env
                  (Sample.replace_photo (Int 2) (Some Sample.photoB))
                  Sample.photoB eq_refl)))
           [] [] Sample.persistent_laptop 2
           {| Persistent.col_inventory_name := "Laptop";
              Persistent.col_description := "Dell";
              Persistent.col_photo := Some Sample.pathA |});
    [constructor|constructor| | |reflexivity].
  - refine (proj2 (@persistent_reachable_invariant Sample.env
                     Sample.persistent_laptop _)).
    apply (@Persistent.reachable_step Sample.env
             (Sample.register (Some "Laptop") (Some "Dell") (Some Sample.photoA))
             [] (Persistent.init ∅)); [constructor|].
    intros f [= <-]. by_evaluation.
  - intros f [= <-]. by_evaluation.
Defined.

(** ** The list *)

Lemma persistent_get_inventory_healthy o s :
  Persistent.healthy o ->
  exists rows,
    Persistent.run Persistent.get_inventory o s
    = (json_ 200 (JArr (summary <$> rows)), s)
    /\ length rows = size (Persistent.items s)
    /\ forall d, d ∈ rows
         <-> exists i row, Persistent.items s !! i = Some row
                           /\ d = Persistent.as_device i row.
Proof.
  intros Ho.
  destruct (persistent_get_inventory_outcomes o s)
    as [[[msg Hin] _]|(rows & Hperm & ->)].
  { by apply persistent_healthy_no_message in Hin. }
  exists rows. split_and!; [done| |].
  - by rewrite Hperm, length_fmap, length_map_to_list.
  - intros d. rewrite Hperm, list_elem_of_fmap. split.
    + intros ([i row] & -> & Hin%elem_of_map_to_list). eauto.
    + intros (i & row & Hi & ->). exists (i, row).
      split; [done|]. by apply elem_of_map_to_list.
Qed.

(** GET /inventory shows every item once.  The in-memory server lists the
    items in registration order, each with its storage path [photo] and
    its [photo_url]; the MySQL server, when the query runs, lists one
    entry per row, without the storage path.  An item just registered is
    in the list: last in memory, under the inserted key in MySQL, next to
    all the rows that were there before. *)
Theorem inventory_lists_every_item `{Env} (r : request) :
  (forall s,
     Volatile.get_inventory s
     = (json_ 200 (JArr (Volatile.with_photo_url <$> Volatile.devices s)), s))
  /\ (forall o s,
        Persistent.healthy o ->
        exists rows,
          Persistent.run Persistent.get_inventory o s
          = (json_ 200 (JArr (summary <$> rows)), s)
          /\ length rows = size (Persistent.items s)
          /\ forall d, d ∈ rows
               <-> exists i row, Persistent.items s !! i = Some row
                                 /\ d = Persistent.as_device i row)
  /\ (forall s,
        ~ blank (body_inventory_name r) ->
        exists d,
          id d = Volatile.Id s
          /\ Some (inventory_name d) = body_inventory_name r
          /\ fst (Volatile.get_inventory (snd (Volatile.post_register r s)))
             = json_ 200
                 (JArr ((Volatile.with_photo_url <$> Volatile.devices s)
                        ++ [Volatile.with_photo_url d])))
  /\ (forall o o' s,
        Persistent.healthy o -> Persistent.healthy o' ->
        Persistent.keys_below s -> ~ blank (body_inventory_name r) ->
        exists rows d,
          fst (Persistent.run Persistent.get_inventory o'
                 (snd (Persistent.run (Persistent.post_register r) o s)))
          = json_ 200 (JArr (summary <$> rows))
          /\ d ∈ rows /\ id d = Persistent.auto_increment s
          /\ Some (inventory_name d) = body_inventory_name r
          /\ forall i row, Persistent.items s !! i = Some row ->
                           Persistent.as_device i row ∈ rows).
Proof.
  split_and!.
  - done.
  - intros o s. apply persistent_get_inventory_healthy.
  - intros s Hb.
    destruct (volatile_register_valid r s Hb) as (d & -> & Hid & Hname & _).
    exists d. split_and!; [done..|]. cbn. by rewrite fmap_app.
  - intros o o' s Ho Ho' Hkeys Hb.
    assert (Hfree : Persistent.items s !! Persistent.auto_increment s = None).
    { destruct (Persistent.items s !! Persistent.auto_increment s) eqn:Hi;
        [|done]. apply Hkeys in Hi. lia. }
    pose proof (persistent_register_healthy r o s Ho Hb Hfree) as H201.
    destruct (persistent_register_created r o s H201) as [_ Hfind].
    apply persistent_find_Some in Hfind as (i & row & [= <-] & Hi & Hrow).
    destruct (persistent_get_inventory_healthy o'
                (snd (Persistent.run (Persistent.post_register r) o s)) Ho')
      as (rows & -> & _ & Hrows).
    exists rows, (Persistent.as_device (Persistent.auto_increment s) row).
    split_and!; [done|apply Hrows; eauto|done| |].
    + rewrite <- Hrow. cbn. destruct (body_inventory_name r) as [name|]; [done|].
      exfalso. apply Hb. by intros ? [=].
    + intros j row' Hj. apply Hrows. exists j, row'. split; [|done].
      rewrite <- Hj. apply persistent_app_inserts_register.
      intros ->. congruence.
Qed.

(** The list of the MySQL server after registering a phone next to the
    seeded item and the laptop. *)
Lemma inventory_lists_every_item_witness :
  exists rows d,
    fst (Persistent.run Persistent.get_inventory []
           (snd (Persistent.run
                   (@Persistent.post_register Sample.env
                      (Sample.register (Some "Phone") None None))
                   [] Sample.persistent_laptop)))
    = json_ 200 (JArr (summary <$> rows))
    /\ d ∈ rows /\ id d = 3 /\ Some (inventory_name d) = Some "Phone"
    /\ forall i row, Persistent.items Sample.persistent_laptop !! i = Some row ->
                     Persistent.as_device i row ∈ rows.
Proof.
  apply (proj2 (proj2 (proj2 (@inventory_lists_every_item Sample.env
                  (Sample.register (Some "Phone") None None))))
           [] [] Sample.persistent_laptop); [constructor|constructor| |].
  - refine (proj1 (@persistent_reachable_invariant Sample.env
                     Sample.persistent_laptop _)).
    apply (@Persistent.reachable_step Sample.env
             (Sample.register (Some "Laptop") (Some "Dell") (Some Sample.photoA))
             [] (Persistent.init ∅)); [constructor|].
    intros f [= <-]. by_evaluation.
  - intros Hb. by specialize (Hb "Phone" eq_refl).
Defined.

(** ** The id counter *)

Lemma volatile_Id_app `{Env} r s :
  Volatile.Id (snd (Volatile.app r s))
  = if bool_decide (req_route r = Register
                    /\ status (fst (Volatile.app r s)) = 201)
    then Volatile.Id s + 1 else Volatile.Id s.
Proof.
  unfold Volatile.app. destruct (unexpected_file r || body_missing r).
  { by rewrite bool_decide_false by (by intros [? ?]). }
  unfold Volatile.routes.
  destruct (req_route r) as [| |n|n| |] eqn:Hr, (req_method r);
    try (rewrite bool_decide_false by (by intros [? ?]); cbn [snd]).
  all: try done.
  - (* POST /register *)
    unfold Volatile.post_register. destruct (negb _ || _); cbn.
    + rewrite bool_decide_false by (by intros [? ?]).
      apply volatile_Id_upload.
    + rewrite bool_decide_true by done. by rewrite volatile_Id_upload.
  - unfold Volatile.get_item. by repeat case_match.
  - unfold Volatile.get_item. by repeat case_match.
  - unfold Volatile.put_item. by repeat case_match.
  - unfold Volatile.delete_item. destruct (Volatile.find n s) as [[]|]; [|done].
    cbn. apply volatile_Id_unlink_if_exists.
  - unfold Volatile.get_photo. by repeat case_match.
  - unfold Volatile.get_photo. by repeat case_match.
  - unfold Volatile.put_photo.
    destruct (Volatile.find n _) as [[]|]; cbn [snd];
      [|apply volatile_Id_upload].
    destruct (req_file r); cbn; [|done].
    by rewrite volatile_Id_unlink_if_exists.
  - unfold Volatile.post_search. by repeat case_match.
Qed.

(** The in-memory server hands out consecutive ids: the counter [Id]
    moves, by one, exactly when POST /register answers 201, and the item
    created then carries the previous value.  A rejected registration
    consumes no id, and no other request touches the counter. *)
Theorem ids_are_consecutive `{Env} (r : request) (s : Volatile.state) :
  Volatile.Id (snd (Volatile.app r s))
  = (if bool_decide (req_route r = Register
                     /\ status (fst (Volatile.app r s)) = 201)
     then Volatile.Id s + 1 else Volatile.Id s)
  /\ (req_route r = Register -> status (fst (Volatile.app r s)) = 201 ->
      response_field "id" (fst (Volatile.app r s)) = Some (JNum (Volatile.Id s))).
Proof.
  split; [apply volatile_Id_app|].
  unfold Volatile.app. destruct (unexpected_file r || body_missing r); [done|].
  unfold Volatile.routes. intros ->. destruct (req_method r); try done.
  unfold Volatile.post_register. destruct (negb _ || _); [done|].
  intros _. cbn. by rewrite volatile_Id_upload.
Qed.

(** Registering a phone after the laptop: the phone gets id 2. *)
Lemma ids_are_consecutive_witness :
  response_field "id"
    (fst (@Volatile.app Sample.env (Sample.register (Some "Phone") None None)
            Sample.volatile_laptop))
  = Some (JNum 2).
Proof.
  exact (proj2 (@ids_are_consecutive Sample.env
                  (Sample.register (Some "Phone") None None)
                  Sample.volatile_laptop) eq_refl eq_refl).
Defined.

(** ** Requests that fail *)

Lemma volatile_app_rejected `{Env} r s :
  ~ success (fst (Volatile.app r s)) ->
  Volatile.devices (snd (Volatile.app r s)) = Volatile.devices s
  /\ Volatile.Id (snd (Volatile.app r s)) = Volatile.Id s.
Proof.
  unfold success.
  destruct (mutating r) eqn:Hm; [|by rewrite volatile_app_read].
  unfold mutating in Hm. unfold Volatile.app.
  refused_or_routed. unfold Volatile.routes.
  destruct (req_route r) as [| |n|n| |]; try discriminate;
    destruct (req_method r); try discriminate.
  - unfold Volatile.post_register. destruct (negb _ || _); cbn; [|lia].
    intros _. by rewrite volatile_devices_upload, volatile_Id_upload.
  - unfold Volatile.put_item.
    destruct (Volatile.find n s) as [[]|]; cbn; [lia|done].
  - unfold Volatile.delete_item.
    destruct (Volatile.find n s) as [[]|]; cbn; [lia|done].
  - unfold Volatile.put_photo. rewrite volatile_find_upload.
    destruct (Volatile.find n s) as [[]|]; cbn [fst snd].
    + destruct (req_file r); cbn; [lia|done].
    + intros _. by rewrite volatile_devices_upload, volatile_Id_upload.
Qed.

Lemma persistent_app_rejected `{Env} r o s :
  ~ success (fst (Persistent.app r o s)) ->
  status (fst (Persistent.app r o s)) <> 500
  \/ req_route r = Register \/ req_method r = DELETE ->
  Persistent.items (snd (Persistent.app r o s)) = Persistent.items s
  /\ Persistent.auto_increment (snd (Persistent.app r o s))
     = Persistent.auto_increment s.
Proof.
  unfold success.
  destruct (mutating r) eqn:Hm; [|by rewrite persistent_app_read].
  unfold mutating in Hm. unfold Persistent.app.
  refused_or_routed. unfold Persistent.routes.
  destruct (req_route r) as [| |n|n| |]; try discriminate;
    destruct (req_method r); try discriminate.
  - destruct (persistent_register_outcomes r o s)
      as [[_ ->]|[(_ & _ & ->)|(_ & _ & ->)]]; cbn; [| |lia];
      intros _ _; by destruct (req_file r).
  - destruct (persistent_put_item_outcomes n r o s)
      as [(? & _ & ->)|[[_ ->]|(i & row & -> & _ & [(? & _ & ->)| ->])]];
      cbn; [done|done| |lia].
    intros _ [?|[?|?]]; done.
  - destruct (persistent_delete_outcomes n o s)
      as [(? & _ & ->)|[[_ ->]|(i & row & -> & _ & ->)]]; cbn; [done|done|lia].
  - destruct (req_file r) as [f|] eqn:Hf;
      [|by rewrite persistent_put_photo_no_file].
    destruct (persistent_put_photo_outcomes n r f o s Hf)
      as [(? & _ & ->)|[[_ ->]|(i & row & -> & _ & [(? & _ & ->)| ->])]];
      cbn; [done|done| |lia].
    intros _ [?|[?|?]]; done.
Qed.

(** A request that is not answered 2xx changes no item and consumes no id:
    always in memory; in MySQL whenever the answer is a 4xx, and also for
    a 500 of Register or Delete.  A 500 of UpdateFields or ReplacePhoto
    does not tell: the handler reads the row back after writing it, so the
    write may have been done, as when the third query of an UpdateFields
    rejects. *)
Theorem failed_requests_change_no_item `{Env} (r : request) :
  (forall s,
     ~ success (fst (Volatile.app r s)) ->
     Volatile.devices (snd (Volatile.app r s)) = Volatile.devices s
     /\ Volatile.Id (snd (Volatile.app r s)) = Volatile.Id s)
  /\ (forall o s,
        ~ success (fst (Persistent.app r o s)) ->
        status (fst (Persistent.app r o s)) <> 500
        \/ req_route r = Register \/ req_method r = DELETE ->
        Persistent.items (snd (Persistent.app r o s)) = Persistent.items s
        /\ Persistent.auto_increment (snd (Persistent.app r o s))
           = Persistent.auto_increment s)
  /\ (exists u o s,
        mutating u = true
        /\ status (fst (Persistent.app u o s)) = 500
        /\ Persistent.items (snd (Persistent.app u o s)) <> Persistent.items s).
Proof.
  split_and!.
  - intros s. apply volatile_app_rejected.
  - intros o s. apply persistent_app_rejected.
  - exists (Sample.update 2 (Some "Notebook") None),
      [None; None; Some "ECONNRESET"], Sample.persistent_laptop.
    split_and!; [reflexivity|reflexivity|]. intros Heq.
    apply (f_equal (fun m => Persistent.col_inventory_name <$> m !! 2)) in Heq.
    vm_compute in Heq. discriminate.
Qed.

(** Deleting the laptop while the connection drops. *)
Lemma failed_requests_change_no_item_witness :
  Persistent.items
    (snd (@Persistent.app Sample.env (Sample.req DELETE (Item (Int 2)))
            [None; Some "ECONNRESET"] Sample.persistent_laptop))
  = Persistent.items Sample.persistent_laptop.
Proof.
  refine (proj1 (proj1 (proj2 (@failed_requests_change_no_item Sample.env
                                 (Sample.req DELETE (Item (Int 2)))))
                   [None; Some "ECONNRESET"] Sample.persistent_laptop _ _)).
  - unfold success. vm_compute. intros [_ Hlt]. discriminate.
  - right. right. reflexivity.
Defined.

(** ** Ids that are not integers *)

Lemma volatile_find_not_integer n s :
  (forall i, n <> Int i) -> Volatile.find n s = None.
Proof.
  intros Hn. unfold Volatile.find. apply list_find_None, Forall_forall.
  intros d _ Hd. by apply (Hn (id d)).
Qed.

(** The in-memory server does not validate the id of a path: when
    [Number(req.params.id)] is not an integer ([/inventory/abc],
    [/inventory/1.5]) every item route answers 404 as for a missing item,
    never 400, and no item changes; whereas POST /search answers 400 for
    an id that is not a number. *)
Theorem path_id_not_validated `{Env} (n : jsnum) (r : request) (s : Volatile.state) :
  (forall i, n <> Int i) ->
  Volatile.get_item n s = (end_ 404 "No item with such ID", s)
  /\ Volatile.put_item n r s = (end_ 404 "No item with such ID", s)
  /\ Volatile.delete_item n s = (end_ 404 "Item not found", s)
  /\ Volatile.get_photo n s = (end_ 404 "Item not found", s)
  /\ Volatile.put_photo n r s
     = (end_ 404 "Item not found", Volatile.upload_single (req_file r) s)
  /\ (body_id r = NaN -> Volatile.post_search r s = (end_ 400 "Invalid ID", s)).
Proof.
  intros Hn. pose proof (volatile_find_not_integer n s Hn) as Hfind.
  split_and!.
  - by apply volatile_get_absent.
  - by apply volatile_put_item_absent.
  - by apply volatile_delete_absent.
  - by apply volatile_get_absent.
  - by apply volatile_put_photo_absent.
  - apply volatile_search_NaN.
Qed.

(** GET /inventory/abc on the server holding the laptop. *)
Lemma path_id_not_validated_witness :
  Volatile.get_item NaN Sample.volatile_laptop
  = (end_ 404 "No item with such ID", Sample.volatile_laptop).
Proof.
  refine (proj1 (@path_id_not_validated Sample.env NaN
                   (Sample.req GET (Item NaN)) Sample.volatile_laptop _)).
  intros i. discriminate.
Defined.

(** ** What Register stores, and what it answers *)

Lemma volatile_register_fields `{Env} r s :
  ~ blank (body_inventory_name r) ->
  exists d,
    Volatile.devices (snd (Volatile.post_register r s)) = Volatile.devices s ++ [d]
    /\ Some (inventory_name d) = body_inventory_name r
    /\ description d
       = (if truthy_opt (body_description r)
          then default "" (body_description r) else "")
    /\ response_field "inventory_name" (fst (Volatile.post_register r s))
       = Some (JStr (inventory_name d))
    /\ response_field "description" (fst (Volatile.post_register r s))
       = Some (JStr (description d)).
Proof.
  intros Hb. unfold Volatile.post_register.
  destruct (negb _ || _) eqn:Hg; [by apply name_rejected_iff_blank in Hg|].
  eexists. cbn. rewrite volatile_devices_upload. split_and!; try done.
  destruct (body_inventory_name r) as [name|]; [done|].
  exfalso. apply Hb. by intros ? [=].
Qed.

Lemma persistent_register_fields `{Env} r o s :
  status (fst (Persistent.run (Persistent.post_register r) o s)) = 201 ->
  exists row,
    Persistent.items (snd (Persistent.run (Persistent.post_register r) o s))
      !! Persistent.auto_increment s = Some row
    /\ Some (Persistent.col_inventory_name row) = body_inventory_name r
    /\ Persistent.col_description row
       = (if truthy_opt (body_description r)
          then default "" (body_description r) else "")
    /\ response_field "inventory_name"
         (fst (Persistent.run (Persistent.post_register r) o s))
       = Some (JStr (Persistent.col_inventory_name row))
    /\ response_field "description"
         (fst (Persistent.run (Persistent.post_register r) o s))
       = JStr <$> body_description r.
Proof.
  destruct (persistent_register_outcomes r o s)
    as [[_ ->]|[(_ & _ & ->)|(Hb & _ & ->)]]; [done|done|].
  intros _. eexists. cbn. rewrite lookup_insert_eq. split_and!; try done.
  - destruct (body_inventory_name r) as [name|]; [done|].
    exfalso. apply Hb. by intros ? [=].
  - by destruct (body_description r).
Qed.

(** Register stores the name exactly as sent (it is trimmed for the check
    only) and the description, or the empty string when the description is
    absent or empty.  The in-memory server answers with the stored item;
    the MySQL server answers with the fields of the request, so that a
    registration without description is answered without a [description]
    field although the stored row, and every later GetById, has the empty
    string. *)
Theorem register_stores_fields `{Env} (r : request) :
  (forall s,
     ~ blank (body_inventory_name r) ->
     exists d,
       Volatile.devices (snd (Volatile.post_register r s))
       = Volatile.devices s ++ [d]
       /\ Some (inventory_name d) = body_inventory_name r
       /\ description d
          = (if truthy_opt (body_description r)
             then default "" (body_description r) else "")
       /\ response_field "inventory_name" (fst (Volatile.post_register r s))
          = Some (JStr (inventory_name d))
       /\ response_field "description" (fst (Volatile.post_register r s))
          = Some (JStr (description d)))
  /\ (forall o s,
        status (fst (Persistent.run (Persistent.post_register r) o s)) = 201 ->
        exists row,
          Persistent.items (snd (Persistent.run (Persistent.post_register r) o s))
            !! Persistent.auto_increment s = Some row
          /\ Some (Persistent.col_inventory_name row) = body_inventory_name r
          /\ Persistent.col_description row
             = (if truthy_opt (body_description r)
                then default "" (body_description r) else "")
          /\ response_field "inventory_name"
               (fst (Persistent.run (Persistent.post_register r) o s))
             = Some (JStr (Persistent.col_inventory_name row))
          /\ response_field "description"
               (fst (Persistent.run (Persistent.post_register r) o s))
             = JStr <$> body_description r).
Proof.
  split.
  - intros s. apply volatile_register_fields.
  - intros o s. apply persistent_register_fields.
Qed.

(** Registering a phone without description on the MySQL server: the row
    has the empty description, the response has none. *)
Lemma register_stores_fields_witness :
  exists row,
    Persistent.items
      (snd (Persistent.run
              (@Persistent.post_register Sample.env
                 (Sample.register (Some " Phone ") None None))
              [] Sample.persistent_laptop)) !! 3 = Some row
    /\ Some (Persistent.col_inventory_name row) = Some " Phone "
    /\ Persistent.col_description row = ""
    /\ response_field "inventory_name"
         (fst (Persistent.run
                 (@Persistent.post_register Sample.env
                    (Sample.register (Some " Phone ") None None))
                 [] Sample.persistent_laptop))
       = Some (JStr (Persistent.col_inventory_name row))
    /\ response_field "description"
         (fst (Persistent.run
                 (@Persistent.post_register Sample.env
                    (Sample.register (Some " Phone ") None None))
                 [] Sample.persistent_laptop))
       = None.
Proof.
  exact (proj2 (@register_stores_fields Sample.env
                  (Sample.register (Some " Phone ") None None))
           [] Sample.persistent_laptop eq_refl).
Defined.

(** ** Names that UpdateFields lets through *)

Lemma truthy_not_empty (s : string) : s <> "" -> truthy s = true.
Proof.
  intros Hs. unfold truthy. apply negb_true_iff, not_true_is_false.
  by intros ?%String.eqb_eq.
Qed.

(** UpdateFields does not validate the name as Register does: a name made
    of white space only, which Register rejects with 400, is stored by
    UpdateFields as the name of an existing item, with a 200 answer (MySQL
    variant: when the queries run). *)
Theorem update_does_not_validate_the_name `{Env} (r : request) (ws : string) :
  body_inventory_name r = Some ws -> ws <> "" -> all_white_space ws = true ->
  (forall s, status (fst (Volatile.post_register r s)) = 400)
  /\ (forall o s,
        status (fst (Persistent.run (Persistent.post_register r) o s)) = 400)
  /\ (forall n s k d,
        Volatile.find n s = Some (k, d) ->
        exists d',
          fst (Volatile.put_item n r s) = json_ 200 (JObj (device_json d'))
          /\ inventory_name d' = ws
          /\ Volatile.find n (snd (Volatile.put_item n r s)) = Some (k, d'))
  /\ (forall o s i row,
        Persistent.healthy o -> Persistent.items s !! i = Some row ->
        status (fst (Persistent.run (Persistent.put_item (Int i) r) o s)) = 200
        /\ Persistent.col_inventory_name
           <$> Persistent.items
                 (snd (Persistent.run (Persistent.put_item (Int i) r) o s)) !! i
           = Some ws).
Proof.
  intros Hname Hne Hws.
  assert (Hb : blank (body_inventory_name r)).
  { intros ? Heq. rewrite Hname in Heq. by injection Heq as <-. }
  assert (Ht : truthy_opt (body_inventory_name r) = true).
  { rewrite Hname. by apply truthy_not_empty. }
  split_and!.
  - intros s. by rewrite volatile_register_blank.
  - intros o s. by rewrite persistent_register_blank.
  - intros n s k d Hfind.
    destruct (volatile_put_item_present n r s k d Hfind)
      as (d' & Hrun & Hid & _ & Hn & _).
    exists d'. rewrite Hrun. cbn [fst snd]. split_and!; [done| |].
    + by rewrite Hn, Ht, Hname.
    + by apply (volatile_find_insert n s s k d d').
  - intros o s i row Ho Hi.
    rewrite (persistent_put_item_present i row r o s Ho Hi). cbn.
    rewrite lookup_insert_eq. cbn. by rewrite Ht, Hname.
Qed.

(** Renaming the laptop to a single space. *)
Lemma update_does_not_validate_the_name_witness :
  status (fst (@Volatile.post_register Sample.env
                 (Sample.update 1 (Some " ") None) Sample.volatile_laptop)) = 400
  /\ exists d',
       fst (Volatile.put_item (Int 1) (Sample.update 1 (Some " ") None)
              Sample.volatile_laptop)
       = json_ 200 (JObj (device_json d'))
       /\ inventory_name d' = " "
       /\ Volatile.find (Int 1)
            (snd (Volatile.put_item (Int 1) (Sample.update 1 (Some " ") None)
                    Sample.volatile_laptop))
          = Some (0%nat, d').
Proof.
  destruct (@update_does_not_validate_the_name Sample.env
              (Sample.update 1 (Some " ") None) " " eq_refl)
    as (Hreg & _ & Hput & _); [discriminate|reflexivity|].
  split; [apply Hreg|]. eapply Hput. reflexivity.
Defined.
